(** * gitlab-migrate: the cross-instance migration engine

    A shallow embedding of the Go code of package [cmd] (get.go, set.go,
    migrate.go, mirror.go) and of [utils/http.go], [utils/config.go].

    The remote instances are modelled by the sequence of replies the HTTP
    transport hands back, in the order the program asks for them; everything
    the program does that can be observed from outside (requests sent, time
    slept, lines printed, snapshots written) is collected as a list of
    events. *)

From Stdlib Require Import List String Ascii ZArith Lia Bool DecimalString.
Import ListNotations.
Open Scope string_scope.
Open Scope Z_scope.

Set Implicit Arguments.
Set Warnings "-register-all".

(** ** Strings and formatting *)

(** [%d] of an integer. *)
Definition itoa (z : Z) : string := NilZero.string_of_int (Z.to_int z).

(** [fmt.Sprintf] for the verbs the code uses ([%s], [%d], [%v]): every verb
    prints the text of the next argument. *)
Fixpoint Sprintf (format : string) (args : list string) : string :=
  match format with
  | EmptyString => EmptyString
  | String "%"%char (String v rest) =>
      match args with
      | a :: args' => a ++ Sprintf rest args'
      | [] => "%!" ++ String v "(MISSING)" ++ Sprintf rest []
      end
  | String c rest => String c (Sprintf rest args)
  end.

(** Go errors are carried by their message; [nil] is [None]. *)
Definition error := option string.

Inductive Result (A : Type) : Type :=
| Ok (a : A)
| Err (msg : string).
Arguments Ok {A} a.
Arguments Err {A} msg.

(** ** Numbers: integer literals and the float64 they are read as *)

Definition two53 : Z := 9007199254740992.

(** [strconv.ParseFloat(s, 64)], which [encoding/json] applies to every
    number it decodes into an [interface{}], on a literal whose value is
    the integer [n]: the float64 nearest to [n], a tie going to the even
    mantissa.  Below 2^53 every integer is a float64; above, [n] is cut to
    53 binary digits.  (A literal of 2^1024 - 2^970 or more overflows:
    [encoding/json] reports an error there, and such literals are outside
    the model.) *)
Definition ParseFloat_integer (n : Z) : Z :=
  let a := Z.abs n in
  if a <? two53 then n
  else
    let e := Z.log2 a - 52 in
    let q := a / 2 ^ e in
    let r := a mod 2 ^ e in
    let half := 2 ^ (e - 1) in
    let q' := if (half <? r) || ((r =? half) && Z.odd q) then q + 1 else q in
    Z.sgn n * (q' * 2 ^ e).

(** The digits [strconv.AppendFloat(b, f, fmt, -1, 64)] chooses for the
    positive integral float64 [a]: the fewest significant digits that parse
    back to [a], so the multiple of the largest power of ten that does, and
    the nearer one when two do.  [j] bounds the power of ten. *)
Fixpoint shortest (j : nat) (a : Z) : Z :=
  match j with
  | O => a
  | S j' =>
      let p := 10 ^ Z.of_nat j in
      let lo := a / p * p in
      let hi := lo + p in
      match ParseFloat_integer lo =? a, ParseFloat_integer hi =? a with
      | true, true => if a - lo <=? hi - a then lo else hi
      | true, false => lo
      | false, true => hi
      | false, false => shortest j' a
      end
  end.

(** The value of the literal [encoding/json] writes for the integral
    float64 [f] (format [f] below 1e21 and [e] from there on, which changes
    the text and not the value).  Below 2^53 it is [f] digit for digit. *)
Definition FormatFloat_integer (f : Z) : Z :=
  let a := Z.abs f in
  if a <? two53 then f
  else Z.sgn f * shortest (Z.to_nat (Z.log2 a / 3 + 1)) a.

(** ** JSON documents and the Go values they decode to *)

(** A JSON document, as a tree.  [JNum n] is a number literal whose value
    is the integer [n] (literals with a fractional value are outside the
    model); [JStr s] is a string literal that denotes the text [s]. *)
Inductive JSON : Type :=
| JNull
| JBool (b : bool)
| JNum (n : Z)
| JStr (s : string)
| JArr (l : list JSON)
| JObj (kvs : list (string * JSON)).

(** Induction on a document, with the hypothesis for every element of an
    array and every value of an object. *)
Unset Implicit Arguments.

Section JSON_induction.

Variable P : JSON -> Prop.
Hypothesis HNull : P JNull.
Hypothesis HBool : forall b, P (JBool b).
Hypothesis HNum : forall n, P (JNum n).
Hypothesis HStr : forall s, P (JStr s).
Hypothesis HArr : forall l, Forall P l -> P (JArr l).
Hypothesis HObj : forall kvs, Forall (fun kv => P (snd kv)) kvs -> P (JObj kvs).

Fixpoint JSON_nested_ind (j : JSON) : P j :=
  match j with
  | JNull => HNull
  | JBool b => HBool b
  | JNum n => HNum n
  | JStr s => HStr s
  | JArr l =>
      HArr l ((fix all (l : list JSON) : Forall P l :=
                 match l with
                 | [] => Forall_nil P
                 | x :: l' => Forall_cons x (JSON_nested_ind x) (all l')
                 end) l)
  | JObj kvs =>
      HObj kvs ((fix all (kvs : list (string * JSON)) : Forall (fun kv => P (snd kv)) kvs :=
                   match kvs with
                   | [] => Forall_nil _
                   | kv :: kvs' => Forall_cons kv (JSON_nested_ind (snd kv)) (all kvs')
                   end) kvs)
  end.

End JSON_induction.

Set Implicit Arguments.

(** The dynamically typed values ([interface{}]) the code handles.  A map is
    kept as an association list sorted by key without repetition; [None] is
    the nil map.  [VSlice] is a [[]interface{}], [VMaps] a
    [[]map[string]interface{}]; nil and empty slices are not told apart:
    the code only ranges over slices.  [VFloat64 n] is the float64 whose
    value is the integer [n].  [VUnsupported] stands for the values
    [encoding/json] refuses (channels, functions). *)
Inductive GoVal : Type :=
| VNil
| VBool (b : bool)
| VFloat64 (n : Z)
| VString (s : string)
| VSlice (l : list GoVal)
| VMap (m : option (list (string * GoVal)))
| VMaps (l : list (option (list (string * GoVal))))
| VUnsupported.

(** [map[string]interface{}] *)
Definition gomap := option (list (string * GoVal)).

(** [m[k] = v] on a non-nil map. *)
Fixpoint map_set {V : Type} (k : string) (v : V) (m : list (string * V))
  : list (string * V) :=
  match m with
  | [] => [(k, v)]
  | (k', v') :: m' =>
      match String.compare k k' with
      | Lt => (k, v) :: m
      | Eq => (k, v) :: m'
      | Gt => (k', v') :: map_set k v m'
      end
  end.

Fixpoint map_get {V : Type} (k : string) (m : list (string * V)) : option V :=
  match m with
  | [] => None
  | (k', v') :: m' => if String.eqb k k' then Some v' else map_get k m'
  end.

(** [m[k]] on a [map[string]interface{}]: the zero value (nil interface)
    when the key is absent or the map is nil. *)
Definition index (m : gomap) (k : string) : GoVal :=
  match m with
  | None => VNil
  | Some kvs => match map_get k kvs with Some v => v | None => VNil end
  end.
Arguments index : simpl never.

(** Decoding into [interface{}]: numbers become float64, objects become
    maps (a repeated key keeps its last value), arrays become
    [[]interface{}]. *)
Fixpoint decode (j : JSON) : GoVal :=
  match j with
  | JNull => VNil
  | JBool b => VBool b
  | JNum n => VFloat64 (ParseFloat_integer n)
  | JStr s => VString s
  | JArr l => VSlice (map decode l)
  | JObj kvs =>
      VMap (Some (fold_left (fun m kv => map_set (fst kv) (decode (snd kv)) m) kvs []))
  end.

Definition decode_fields (kvs : list (string * JSON)) : list (string * GoVal) :=
  fold_left (fun m kv => map_set (fst kv) (decode (snd kv)) m) kvs [].

(** Decoding one element of a [[]map[string]interface{}]. *)
Definition decode_map (j : JSON) : Result gomap :=
  match j with
  | JNull => Ok None
  | JObj kvs => Ok (Some (decode_fields kvs))
  | _ => Err "json: cannot unmarshal value into Go value of type map[string]interface {}"
  end.

Fixpoint decode_maps (l : list JSON) : Result (list gomap) :=
  match l with
  | [] => Ok []
  | j :: l' =>
      match decode_map j, decode_maps l' with
      | Ok m, Ok ms => Ok (m :: ms)
      | Err e, _ => Err e
      | _, Err e => Err e
      end
  end.

(** [json.Marshal]: fails on a value that has no JSON encoding, wherever it
    is nested.  Object keys come out in sorted order, which is the order the
    map is kept in. *)
Fixpoint Marshal (v : GoVal) : Result JSON :=
  let fields :=
    fix fields (kvs : list (string * GoVal)) : Result (list (string * JSON)) :=
      match kvs with
      | [] => Ok []
      | (k, x) :: kvs' =>
          match Marshal x, fields kvs' with
          | Ok j, Ok js => Ok ((k, j) :: js)
          | Err e, _ => Err e
          | _, Err e => Err e
          end
      end in
  let object (m : option (list (string * GoVal))) : Result JSON :=
    match m with
    | None => Ok JNull
    | Some kvs => match fields kvs with Ok js => Ok (JObj js) | Err e => Err e end
    end in
  match v with
  | VNil => Ok JNull
  | VBool b => Ok (JBool b)
  | VFloat64 n => Ok (JNum (FormatFloat_integer n))
  | VString s => Ok (JStr s)
  | VSlice l =>
      match (fix elems (l : list GoVal) : Result (list JSON) :=
               match l with
               | [] => Ok []
               | x :: l' =>
                   match Marshal x, elems l' with
                   | Ok j, Ok js => Ok (j :: js)
                   | Err e, _ => Err e
                   | _, Err e => Err e
                   end
               end) l with
      | Ok js => Ok (JArr js)
      | Err e => Err e
      end
  | VMap m => object m
  | VMaps l =>
      match (fix elems (l : list (option (list (string * GoVal)))) : Result (list JSON) :=
               match l with
               | [] => Ok []
               | m :: l' =>
                   match object m, elems l' with
                   | Ok j, Ok js => Ok (j :: js)
                   | Err e, _ => Err e
                   | _, Err e => Err e
                   end
               end) l with
      | Ok js => Ok (JArr js)
      | Err e => Err e
      end
  | VUnsupported => Err "json: unsupported type"
  end.

(** [json.Marshal] on the fields of a map and on the elements of a slice. *)
Fixpoint Marshal_fields (kvs : list (string * GoVal)) : Result (list (string * JSON)) :=
  match kvs with
  | [] => Ok []
  | (k, x) :: kvs' =>
      match Marshal x, Marshal_fields kvs' with
      | Ok j, Ok js => Ok ((k, j) :: js)
      | Err e, _ => Err e
      | _, Err e => Err e
      end
  end.

Fixpoint Marshal_elems (l : list GoVal) : Result (list JSON) :=
  match l with
  | [] => Ok []
  | x :: l' =>
      match Marshal x, Marshal_elems l' with
      | Ok j, Ok js => Ok (j :: js)
      | Err e, _ => Err e
      | _, Err e => Err e
      end
  end.

(** [json.Marshal] on the elements of a [[]map[string]interface{}]. *)
Fixpoint Marshal_maps (l : list gomap) : Result (list JSON) :=
  match l with
  | [] => Ok []
  | m :: l' =>
      match Marshal (VMap m), Marshal_maps l' with
      | Ok j, Ok js => Ok (j :: js)
      | Err e, _ => Err e
      | _, Err e => Err e
      end
  end.

Example itoa_examples : itoa 0 = "0" /\ itoa 237 = "237" /\ itoa (-5) = "-5".
Proof. repeat split. Qed.

Example Sprintf_example :
  Sprintf "%s/api/v4/groups/%s/projects?per_page=100&page=%d" ["https://g"; "7"; itoa 3]
  = "https://g/api/v4/groups/7/projects?per_page=100&page=3".
Proof. reflexivity. Qed.

(** ** The HTTP transport and the observable behaviour of a run *)

(** The bytes of a body: a JSON document, or text that is not one. *)
Inductive Bytes : Type :=
| JSONText (doc : JSON)
| Garbage (text : string).

(** A response body: its bytes, or a stream whose reading fails. *)
Inductive Body : Type :=
| Readable (b : Bytes)
| Unreadable (err : string).

Record Response : Type := {
  StatusCode : Z;
  Status : string;
  RespBody : Body
}.

(** What [client.Do] gets from the network for one request. *)
Inductive Reply : Type :=
| NetError (err : string)
| Answer (resp : Response).

Record Request : Type := {
  Method : string;
  URL : string;
  Header : list (string * string);
  ReqBody : option Bytes
}.

Definition Header_Set (req : Request) (key value : string) : Request :=
  {| Method := Method req; URL := URL req;
     Header := map_set key value (Header req); ReqBody := ReqBody req |}.

Definition StatusOK : Z := 200.

(** [time.Duration], in nanoseconds. *)
Definition Second : Z := 1000000000.

(** *** utils/http.go *)

Definition DefaultTimeout : Z := 30 * Second.
Definition DefaultMaxIdleConns : Z := 100.
Definition DefaultIdleConnTimeout : Z := 90 * Second.

Record HTTPClientConfig : Type := {
  Timeout : Z;
  SkipTLSVerification : bool;
  MaxIdleConns : Z;
  IdleConnTimeout : Z
}.

Definition NewDefaultConfig : HTTPClientConfig :=
  {| Timeout := DefaultTimeout;
     SkipTLSVerification := false;
     MaxIdleConns := DefaultMaxIdleConns;
     IdleConnTimeout := DefaultIdleConnTimeout |}.

(** [httpConfig.SkipTLSVerification = b] *)
Definition set_SkipTLSVerification (c : HTTPClientConfig) (b : bool) : HTTPClientConfig :=
  {| Timeout := Timeout c; SkipTLSVerification := b;
     MaxIdleConns := MaxIdleConns c; IdleConnTimeout := IdleConnTimeout c |}.

Record Transport : Type := {
  InsecureSkipVerify : bool;          (* TLSClientConfig.InsecureSkipVerify *)
  TransportMaxIdleConns : Z;
  TransportIdleConnTimeout : Z
}.

(** [http.Client]; no transport means [http.DefaultTransport], which
    verifies certificates. *)
Record Client : Type := {
  ClientTransport : option Transport;
  ClientTimeout : Z
}.

Definition CreateHTTPClient (config : option HTTPClientConfig) : Client :=
  let config := match config with None => NewDefaultConfig | Some c => c end in
  let transport :=
    {| InsecureSkipVerify := SkipTLSVerification config;
       TransportMaxIdleConns := MaxIdleConns config;
       TransportIdleConnTimeout := IdleConnTimeout config |} in
  {| ClientTransport := Some transport; ClientTimeout := Timeout config |}.

Definition CreateHTTPClientWithTLS (skipTLSVerification : bool) : Client :=
  CreateHTTPClient (Some {| Timeout := DefaultTimeout;
                            SkipTLSVerification := skipTLSVerification;
                            MaxIdleConns := DefaultMaxIdleConns;
                            IdleConnTimeout := DefaultIdleConnTimeout |}).

(** Does a request through this client check the server certificate? *)
Definition verifies_certificate (c : Client) : bool :=
  match ClientTransport c with
  | None => true
  | Some t => negb (InsecureSkipVerify t)
  end.

(** *** Events, outcomes and the monad of runs *)

Inductive Arg : Type :=
| AString (s : string)
| AInt (n : Z)
| ABytes (b : Bytes).

Inductive Event : Type :=
| Sent (c : Client) (req : Request) (a : Reply)   (* client.Do *)
| Slept (d : Z)                                   (* time.Sleep *)
| Logged (format : string) (args : list Arg)      (* log.Printf, log.Println *)
| Printed (format : string) (args : list Arg)     (* fmt.Printf, fmt.Println *)
| Written (path : string) (doc : JSON).           (* snapshot file *)

Inductive Outcome (A : Type) : Type :=
| Ret (a : A)
| Panic (msg : string)   (* a failed type assertion *)
| Blocked                (* waiting for a reply the script does not hold *)
| OutOfFuel.
Arguments Ret {A} a.
Arguments Panic {A} msg.
Arguments Blocked {A}.
Arguments OutOfFuel {A}.

Record Run (A : Type) : Type := {
  result : Outcome A;
  events : list Event;
  rest : list Reply
}.

(** A computation consumes replies in order and emits events. *)
Definition M (A : Type) : Type := list Reply -> Run A.

Definition ret {A : Type} (a : A) : M A :=
  fun p => {| result := Ret a; events := []; rest := p |}.

Definition bind {A B : Type} (m : M A) (f : A -> M B) : M B :=
  fun p =>
    match m p with
    | {| result := Ret a; events := ev; rest := p' |} =>
        match f a p' with
        | {| result := o; events := ev'; rest := p'' |} =>
            {| result := o; events := ev ++ ev'; rest := p'' |}
        end
    | {| result := Panic msg; events := ev; rest := p' |} =>
        {| result := Panic msg; events := ev; rest := p' |}
    | {| result := Blocked; events := ev; rest := p' |} =>
        {| result := Blocked; events := ev; rest := p' |}
    | {| result := OutOfFuel; events := ev; rest := p' |} =>
        {| result := OutOfFuel; events := ev; rest := p' |}
    end.

Declare Scope run_scope.
Delimit Scope run_scope with run.
Bind Scope run_scope with M.
Notation "x <- c1 ;; c2" := (bind c1 (fun x => c2))
  (at level 61, c1 at next level, right associativity) : run_scope.
Notation "c1 ;; c2" := (bind c1 (fun _ => c2))
  (at level 61, right associativity) : run_scope.
Open Scope run_scope.

Definition emit (e : Event) : M unit :=
  fun p => {| result := Ret tt; events := [e]; rest := p |}.

Definition panic {A : Type} (msg : string) : M A :=
  fun p => {| result := Panic msg; events := []; rest := p |}.

Definition out_of_fuel {A : Type} : M A :=
  fun p => {| result := OutOfFuel; events := []; rest := p |}.

Definition log_Printf (format : string) (args : list Arg) : M unit :=
  emit (Logged format args).
Definition log_Println (line : string) : M unit := emit (Logged line []).
Definition fmt_Printf (format : string) (args : list Arg) : M unit :=
  emit (Printed format args).
Definition time_Sleep (d : Z) : M unit := emit (Slept d).

(** [client.Do(req)]: the next reply of the script. *)
Definition client_Do (c : Client) (req : Request) : M (Result Response) :=
  fun p =>
    match p with
    | [] => {| result := Blocked; events := []; rest := [] |}
    | a :: p' =>
        {| result := Ret (match a with NetError err => Err err | Answer resp => Ok resp end);
           events := [Sent c req a];
           rest := p' |}
    end.

Definition io_ReadAll (b : Body) : Result Bytes :=
  match b with
  | Readable bytes => Ok bytes
  | Unreadable err => Err err
  end.

(** [json.Unmarshal(body, &v)] with [v] a nil [[]map[string]interface{}]. *)
Definition json_Unmarshal_maps (body : Bytes) : Result (list gomap) :=
  match body with
  | Garbage _ => Err "invalid character looking for beginning of value"
  | JSONText JNull => Ok []
  | JSONText (JArr l) => decode_maps l
  | JSONText _ =>
      Err "json: cannot unmarshal value into Go value of type []map[string]interface {}"
  end.

(** [json.NewDecoder(resp.Body).Decode(&v)] with [v] a nil
    [[]map[string]interface{}]. *)
Definition json_Decode_maps (b : Body) : Result (list gomap) :=
  match b with
  | Readable bytes => json_Unmarshal_maps bytes
  | Unreadable err => Err err
  end.

(** [json.NewDecoder(resp.Body).Decode(&result)] with [result] an
    [interface{}]. *)
Definition json_Decode_any (b : Body) : Result GoVal :=
  match b with
  | Readable (JSONText j) => Ok (decode j)
  | Readable (Garbage _) => Err "invalid character looking for beginning of value"
  | Unreadable err => Err err
  end.

(** Type assertions [v.(T)], which panic when [v] does not hold a [T]. *)
Definition assert_string (v : GoVal) : M string :=
  match v with
  | VString s => ret s
  | _ => panic "interface conversion: interface {} is not string"
  end.

Definition assert_float64 (v : GoVal) : M Z :=
  match v with
  | VFloat64 n => ret n
  | _ => panic "interface conversion: interface {} is not float64"
  end.

(** [int64(f)] and [int(f)] of an integral float64 (amd64: a value out of
    range converts to the smallest integer). *)
Definition int64_of_float64 (n : Z) : Z :=
  if (- 2 ^ 63 <=? n) && (n <? 2 ^ 63) then n else - 2 ^ 63.

(** [math.Round] of an integral float64. *)
Definition math_Round (n : Z) : Z := n.

(** ** utils/config.go and the command-line flags *)

Record Config : Type := {
  SourceBaseURL : string;
  SourceAccessToken : string;
  DestinationBaseURL : string;
  DestinationAccessToken : string;
  AuthUser : string;
  AuthPassword : string
}.

(** The package-level flag variables of [cmd], set by cobra before [Run]. *)
Record Flags : Type := {
  isDestination : bool;
  groupID : string;
  projectID : string;
  recursive : bool;
  isSource : bool;
  destinationGroupID : string;
  destinationProjectID : string
}.

(** The machine the tool runs on: the configuration file and the file
    system calls of [os] and [path/filepath]. *)
Record Host : Type := {
  host_loadConfig : Result Config;       (* cmd.loadConfig() *)
  host_MkdirAll : string -> error;       (* os.MkdirAll(dir, 0755) *)
  host_Create : string -> error;         (* os.Create(path) and the write *)
  filepath_Dir : string -> string
}.

Definition nonempty (s : string) : bool := negb (String.eqb s "").

Definition GenerateOutputFileName (command gid pid : string)
    (isDest isRecursive : bool) : string :=
  let prefix := if isDest then "d" else "s" in
  let identifier :=
    if String.eqb command "groups" then "groups"
    else if String.eqb command "projects" then
      if nonempty gid then Sprintf "projects_g-%s" [gid] else "projects"
    else if String.eqb command "variables" then
      if nonempty gid then
        if isRecursive then Sprintf "variables_g-%s_recursive" [gid]
        else Sprintf "variables_g-%s" [gid]
      else if nonempty pid then Sprintf "variables_p-%s" [pid]
      else "variables"
    else "" in
  let fileName := Sprintf "%s-gitlab_get_%s.json" [prefix; identifier] in
  "data/" ++ fileName.

(** ** Package cmd *)

Definition defaultPerPage : Z := 100.
Definition maxRetries : Z := 3.
Definition retryDelay : Z := 2 * Second.

(** The variables a run of [migrate variables] holds between its fetch and
    its create phase ([sourceVars interface{}]): the map built in recursive
    mode, or a plain list. *)
Inductive SourceVars : Type :=
| ByProject (m : list (string * list (string * GoVal)))
| Flat (vars : list gomap).

Definition SourceVars_value (s : SourceVars) : GoVal :=
  match s with
  | ByProject m => VMap (Some (map (fun kv => (fst kv, VMap (Some (snd kv)))) m))
  | Flat vars => VMaps vars
  end.

Section Engine.

(** [http.NewRequest] fails exactly when [net/url] rejects the URL. *)
Variable url_Parse_ok : string -> bool.
Variable flags : Flags.
Variable host : Host.
(** The order in which [range] visits the entries of a map. *)
Variable range_order :
  list (string * list (string * GoVal)) -> list (string * list (string * GoVal)).

Definition http_NewRequest (method url : string) (body : option Bytes)
  : Result Request :=
  if url_Parse_ok url
  then Ok {| Method := method; URL := url; Header := []; ReqBody := body |}
  else Err ("parse " ++ url ++ ": invalid URL").

Definition EnsureDataDir : error :=
  match host_MkdirAll host "data" with
  | Some err => Some (Sprintf "failed to create data directory: %w" [err])
  | None => None
  end.

(** *** get.go *)

Definition saveOutputToFile (data : GoVal) (filePath : string) : M error :=
  match host_MkdirAll host (filepath_Dir host filePath) with
  | Some err => ret (Some (Sprintf "failed to create directory: %w" [err]))
  | None =>
      match host_Create host filePath with
      | Some err => ret (Some (Sprintf "failed to create file: %w" [err]))
      | None =>
          match Marshal data with
          | Err err => ret (Some (Sprintf "failed to encode data: %w" [err]))
          | Ok doc =>
              emit (Written filePath doc) ;;
              log_Printf "Successfully saved output to %s" [AString filePath] ;;
              ret None
          end
      end
  end.

Definition getProjectsForGroup (config : Config) (gid : string) : M (list gomap) :=
  let url :=
    if isDestination flags
    then Sprintf "%s/api/v4/groups/%s/projects" [DestinationBaseURL config; gid]
    else Sprintf "%s/api/v4/groups/%s/projects" [SourceBaseURL config; gid] in
  let accessToken :=
    if isDestination flags then DestinationAccessToken config
    else SourceAccessToken config in
  match http_NewRequest "GET" url None with
  | Err err =>
      log_Printf "Error creating request for group %s: %v" [AString gid; AString err] ;;
      ret []
  | Ok req =>
      let req := Header_Set req "PRIVATE-TOKEN" accessToken in
      let httpConfig := NewDefaultConfig in
      let httpConfig := set_SkipTLSVerification httpConfig true in
      let client := CreateHTTPClient (Some httpConfig) in
      resp <- client_Do client req ;;
      match resp with
      | Err err =>
          log_Printf "Error fetching projects for group %s: %v" [AString gid; AString err] ;;
          ret []
      | Ok resp =>
          match io_ReadAll (RespBody resp) with
          | Err err =>
              log_Printf "Error reading projects response for group %s: %v"
                [AString gid; AString err] ;;
              ret []
          | Ok body =>
              if negb (StatusCode resp =? StatusOK) then
                log_Printf "Error fetching projects for group %s: %s"
                  [AString gid; ABytes body] ;;
                ret []
              else
                match json_Unmarshal_maps body with
                | Err err =>
                    log_Printf "Error parsing projects JSON for group %s: %v"
                      [AString gid; AString err] ;;
                    ret []
                | Ok projects => ret projects
                end
          end
      end
  end.

Definition getVariablesForGroup (config : Config) (gid : string) : M (list gomap) :=
  let url :=
    if isDestination flags
    then Sprintf "%s/api/v4/groups/%s/variables" [DestinationBaseURL config; gid]
    else Sprintf "%s/api/v4/groups/%s/variables" [SourceBaseURL config; gid] in
  let accessToken :=
    if isDestination flags then DestinationAccessToken config
    else SourceAccessToken config in
  match http_NewRequest "GET" url None with
  | Err err =>
      log_Printf "Error creating request for group %s: %v" [AString gid; AString err] ;;
      ret []
  | Ok req =>
      let req := Header_Set req "PRIVATE-TOKEN" accessToken in
      let httpConfig := NewDefaultConfig in
      let httpConfig := set_SkipTLSVerification httpConfig true in
      let client := CreateHTTPClient (Some httpConfig) in
      resp <- client_Do client req ;;
      match resp with
      | Err err =>
          log_Printf "Error fetching variables for group %s: %v" [AString gid; AString err] ;;
          ret []
      | Ok resp =>
          match io_ReadAll (RespBody resp) with
          | Err err =>
              log_Printf "Error reading variables response for group %s: %v"
                [AString gid; AString err] ;;
              ret []
          | Ok body =>
              if negb (StatusCode resp =? StatusOK) then
                log_Printf "Error fetching variables for group %s: %s"
                  [AString gid; ABytes body] ;;
                ret []
              else
                match json_Unmarshal_maps body with
                | Err err =>
                    log_Printf "Error parsing variables JSON for group %s: %v"
                      [AString gid; AString err] ;;
                    ret []
                | Ok variables => ret variables
                end
          end
      end
  end.

Definition getVariablesForProject (config : Config) (pid : string) : M (list gomap) :=
  let url :=
    if isDestination flags
    then Sprintf "%s/api/v4/projects/%s/variables" [DestinationBaseURL config; pid]
    else Sprintf "%s/api/v4/projects/%s/variables" [SourceBaseURL config; pid] in
  let accessToken :=
    if isDestination flags then DestinationAccessToken config
    else SourceAccessToken config in
  match http_NewRequest "GET" url None with
  | Err err =>
      log_Printf "Error creating request for project %s: %v" [AString pid; AString err] ;;
      ret []
  | Ok req =>
      let req := Header_Set req "PRIVATE-TOKEN" accessToken in
      let httpConfig := NewDefaultConfig in
      let httpConfig := set_SkipTLSVerification httpConfig true in
      let client := CreateHTTPClient (Some httpConfig) in
      resp <- client_Do client req ;;
      match resp with
      | Err err =>
          log_Printf "Error fetching variables for project %s: %v"
            [AString pid; AString err] ;;
          ret []
      | Ok resp =>
          match io_ReadAll (RespBody resp) with
          | Err err =>
              log_Printf "Error reading variables response for project %s: %v"
                [AString pid; AString err] ;;
              ret []
          | Ok body =>
              if negb (StatusCode resp =? StatusOK) then
                log_Printf "Error fetching variables for project %s: %s"
                  [AString pid; ABytes body] ;;
                ret []
              else
                match json_Unmarshal_maps body with
                | Err err =>
                    log_Printf "Error parsing variables JSON for project %s: %v"
                      [AString pid; AString err] ;;
                    ret []
                | Ok variables => ret variables
                end
          end
      end
  end.

(** The body of the [for _, project := range projects] loop of
    [getAllVariablesForGroupProjects], with the map built so far. *)
Fixpoint getAllVariablesForGroupProjects_range (config : Config)
    (projects : list gomap) (variablesByProject : list (string * list (string * GoVal)))
  : M (list (string * list (string * GoVal))) :=
  match projects with
  | [] => ret variablesByProject
  | project :: projects' =>
      f <- assert_float64 (index project "id") ;;
      let pid := int64_of_float64 (math_Round f) in
      projectName <- assert_string (index project "name") ;;
      variables <- getVariablesForProject config (Sprintf "%d" [itoa pid]) ;;
      getAllVariablesForGroupProjects_range config projects'
        (map_set (Sprintf "%d" [itoa pid])
           (map_set "variables" (VMaps variables)
              (map_set "project_name" (VString projectName) []))
           variablesByProject)
  end.

Definition getAllVariablesForGroupProjects (config : Config) (gid : string)
  : M (list (string * list (string * GoVal))) :=
  projects <- getProjectsForGroup config gid ;;
  getAllVariablesForGroupProjects_range config projects [].

(** The [for retry := ...; retry < maxRetries; retry++] loop of
    [executeGitLabAPIRequest]; [left] counts the iterations that remain. *)
Fixpoint executeGitLabAPIRequest_for (left : nat) (retry : Z) (client : Client)
    (baseURL token resource : string) : M GoVal :=
  match left with
  | O =>
      log_Printf "Failed to execute GitLab API request after %d attempts" [AInt maxRetries] ;;
      ret VNil
  | S left' =>
      let continue :=
        executeGitLabAPIRequest_for left' (retry + 1) client baseURL token resource in
      (if 0 <? retry then
         log_Printf "Retrying request (attempt %d/%d)..." [AInt (retry + 1); AInt maxRetries] ;;
         time_Sleep retryDelay
       else ret tt) ;;
      let url := Sprintf "%s/api/v4/%s?per_page=%d" [baseURL; resource; itoa defaultPerPage] in
      match http_NewRequest "GET" url None with
      | Err err =>
          log_Printf "Error creating request: %v" [AString err] ;;
          continue
      | Ok req =>
          let req := Header_Set req "PRIVATE-TOKEN" token in
          resp <- client_Do client req ;;
          match resp with
          | Err err =>
              log_Printf "Error making request: %v" [AString err] ;;
              continue
          | Ok resp =>
              if negb (StatusCode resp =? StatusOK) then
                let body := match io_ReadAll (RespBody resp) with
                            | Ok b => b
                            | Err _ => Garbage ""
                            end in
                log_Printf "API request failed with status %d: %s"
                  [AInt (StatusCode resp); ABytes body] ;;
                if retry =? maxRetries - 1 then ret VNil else continue
              else
                match json_Decode_any (RespBody resp) with
                | Err err =>
                    log_Printf "Error decoding response: %v" [AString err] ;;
                    continue
                | Ok result => ret result
                end
          end
      end
  end.

Definition executeGitLabAPIRequest (baseURL token resource : string) : M GoVal :=
  let client := {| ClientTransport := None; ClientTimeout := 30 * Second |} in
  executeGitLabAPIRequest_for (Z.to_nat maxRetries) 0 client baseURL token resource.

(** *** set.go *)

(** The [for { ... }] loop of [fetchAllProjects]. *)
Fixpoint fetchAllProjects_for (fuel : nat) (baseUrl accessToken : string)
    (page : Z) (allProjects : list gomap) : M (Result (list gomap)) :=
  match fuel with
  | O => out_of_fuel
  | S fuel' =>
      let url := Sprintf "%s/api/v4/groups/%s/projects?per_page=100&page=%d"
                   [baseUrl; destinationGroupID flags; itoa page] in
      match http_NewRequest "GET" url None with
      | Err err => ret (Err (Sprintf "error creating request: %v" [err]))
      | Ok req =>
          let req := Header_Set req "PRIVATE-TOKEN" accessToken in
          let httpConfig := NewDefaultConfig in
          let httpConfig := set_SkipTLSVerification httpConfig true in
          let client := CreateHTTPClient (Some httpConfig) in
          resp <- client_Do client req ;;
          match resp with
          | Err err => ret (Err (Sprintf "error fetching projects: %v" [err]))
          | Ok resp =>
              if negb (StatusCode resp =? StatusOK) then
                ret (Err (Sprintf "error fetching projects: %s" [Status resp]))
              else
                match io_ReadAll (RespBody resp) with
                | Err err => ret (Err (Sprintf "error reading response: %v" [err]))
                | Ok body =>
                    match json_Unmarshal_maps body with
                    | Err err => ret (Err (Sprintf "error parsing projects: %v" [err]))
                    | Ok projects =>
                        if (List.length projects =? 0)%nat then ret (Ok allProjects)
                        else fetchAllProjects_for fuel' baseUrl accessToken
                               (page + 1) (allProjects ++ projects)
                    end
                end
          end
      end
  end.

Definition fetchAllProjects (fuel : nat) (config : Config) : M (Result (list gomap)) :=
  let baseUrl :=
    if isSource flags then SourceBaseURL config else DestinationBaseURL config in
  let accessToken :=
    if isSource flags then SourceAccessToken config else DestinationAccessToken config in
  fetchAllProjects_for fuel baseUrl accessToken 1 [].

Fixpoint findProjectIDByExactName (projects : list gomap) (projectName : string)
  : M Z :=
  match projects with
  | [] => ret 0
  | project :: projects' =>
      name <- assert_string (index project "name") ;;
      if String.eqb projectName name then
        id <- assert_float64 (index project "id") ;;
        ret (int64_of_float64 id)
      else findProjectIDByExactName projects' projectName
  end.

Definition makeGitLabAPIRequest (method url token : string) (payload : Bytes) : M error :=
  match http_NewRequest method url (Some payload) with
  | Err err => ret (Some (Sprintf "error creating request: %v" [err]))
  | Ok req =>
      let req := Header_Set req "PRIVATE-TOKEN" token in
      let req := Header_Set req "Content-Type" "application/json" in
      let httpConfig := NewDefaultConfig in
      let httpConfig := set_SkipTLSVerification httpConfig true in
      let client := CreateHTTPClient (Some httpConfig) in
      resp <- client_Do client req ;;
      match resp with
      | Err err => ret (Some (Sprintf "request failed: %v" [err]))
      | Ok resp =>
          if 400 <=? StatusCode resp then
            ret (Some (Sprintf "API returned error status: %s" [Status resp]))
          else ret None
      end
  end.

(** The [for _, variable := range variables] loop of
    [createVariablesForProject]. *)
Fixpoint createVariablesForProject_range (pid url accessToken : string)
    (variables : list GoVal) : M unit :=
  match variables with
  | [] => ret tt
  | variable :: variables' =>
      match Marshal variable with
      | Err err =>
          fmt_Printf "Error marshaling variable payload for project %s: %v\n"
            [AString pid; AString err] ;;
          createVariablesForProject_range pid url accessToken variables'
      | Ok payload =>
          err <- makeGitLabAPIRequest "POST" url accessToken (JSONText payload) ;;
          match err with
          | Some err =>
              fmt_Printf "Error creating variable for project %s: %v\n"
                [AString pid; AString err]
          | None =>
              fmt_Printf "Successfully created variable for project %s\n" [AString pid]
          end ;;
          createVariablesForProject_range pid url accessToken variables'
      end
  end.

Definition createVariablesForProject (config : Config) (pid : string)
    (variables : list GoVal) : M unit :=
  let baseUrl :=
    if isSource flags then SourceBaseURL config else DestinationBaseURL config in
  let accessToken :=
    if isSource flags then SourceAccessToken config else DestinationAccessToken config in
  let url := Sprintf "%s/api/v4/projects/%s/variables" [baseUrl; pid] in
  createVariablesForProject_range pid url accessToken variables.

(** The [for _, variable := range variables] loop of
    [createVariablesForGroup]. *)
Fixpoint createVariablesForGroup_range (gid url accessToken : string)
    (variables : list GoVal) : M unit :=
  match variables with
  | [] => ret tt
  | variable :: variables' =>
      match Marshal variable with
      | Err err =>
          fmt_Printf "Error marshaling variable payload for group %s: %v\n"
            [AString gid; AString err] ;;
          createVariablesForGroup_range gid url accessToken variables'
      | Ok payload =>
          err <- makeGitLabAPIRequest "POST" url accessToken (JSONText payload) ;;
          match err with
          | Some err =>
              fmt_Printf "Error creating variable for group %s: %v\n"
                [AString gid; AString err]
          | None =>
              fmt_Printf "Successfully created variable for group %s\n" [AString gid]
          end ;;
          createVariablesForGroup_range gid url accessToken variables'
      end
  end.

Definition createVariablesForGroup (config : Config) (gid : string)
    (variables : list GoVal) : M unit :=
  let baseUrl :=
    if isSource flags then SourceBaseURL config else DestinationBaseURL config in
  let accessToken :=
    if isSource flags then SourceAccessToken config else DestinationAccessToken config in
  let url := Sprintf "%s/api/v4/groups/%s/variables" [baseUrl; gid] in
  createVariablesForGroup_range gid url accessToken variables.

(** *** mirror.go *)

(** The [for { ... }] loop of [MirrorCommand.fetchGroupProjects]. *)
Fixpoint fetchGroupProjects_for (fuel : nat) (baseURL accessToken gid : string)
    (page : Z) (allProjects : list gomap) : M (Result (list gomap)) :=
  match fuel with
  | O => out_of_fuel
  | S fuel' =>
      let url :=
        Sprintf "%s/api/v4/groups/%s/projects?per_page=100&page=%d&include_subgroups=true"
          [baseURL; gid; itoa page] in
      match http_NewRequest "GET" url None with
      | Err err => ret (Err (Sprintf "error creating request: %v" [err]))
      | Ok req =>
          let req := Header_Set req "PRIVATE-TOKEN" accessToken in
          let client := {| ClientTransport := None; ClientTimeout := 0 |} in
          resp <- client_Do client req ;;
          match resp with
          | Err err => ret (Err (Sprintf "error fetching projects: %v" [err]))
          | Ok resp =>
              if negb (StatusCode resp =? StatusOK) then
                ret (Err (Sprintf "error fetching projects: %s" [Status resp]))
              else
                match json_Decode_maps (RespBody resp) with
                | Err err => ret (Err (Sprintf "error parsing projects: %v" [err]))
                | Ok projects =>
                    if (List.length projects =? 0)%nat then ret (Ok allProjects)
                    else fetchGroupProjects_for fuel' baseURL accessToken gid
                           (page + 1) (allProjects ++ projects)
                end
          end
      end
  end.

Definition fetchGroupProjects (fuel : nat) (config : Config) (gid : string)
    (fromSource : bool) : M (Result (list gomap)) :=
  let baseURL :=
    if fromSource then SourceBaseURL config else DestinationBaseURL config in
  let accessToken :=
    if fromSource then SourceAccessToken config else DestinationAccessToken config in
  fetchGroupProjects_for fuel baseURL accessToken gid 1 [].

(** *** migrate.go *)

(** [interfaceVars[i] = v]: a [[]map[string]interface{}] as [[]interface{}]. *)
Definition interfaceVars (vars : list gomap) : list GoVal := map VMap vars.

(** The [for sourceProjectID, projectData := range sourceVarsMap] loop of
    [migrateVariablesCmd], over the entries in the order [range] yields
    them. *)
Fixpoint migrateVariables_range (config : Config) (destProjects : list gomap)
    (entries : list (string * list (string * GoVal))) : M unit :=
  match entries with
  | [] => ret tt
  | (sourceProjectID, projectData) :: entries' =>
      let continue := migrateVariables_range config destProjects entries' in
      match index (Some projectData) "project_name" with
      | VString projectName =>
          destProjectID <- findProjectIDByExactName destProjects projectName ;;
          if destProjectID =? 0 then
            log_Printf "Warning: Project %s not found in destination group"
              [AString projectName] ;;
            continue
          else
            match index (Some projectData) "variables" with
            | VMaps vars =>
                log_Printf "Migrating variables for project %s (ID: %d)"
                  [AString projectName; AInt destProjectID] ;;
                createVariablesForProject config (itoa destProjectID)
                  (interfaceVars vars) ;;
                continue
            | _ =>
                log_Printf "Error: Invalid variables format for project %s"
                  [AString projectName] ;;
                continue
            end
      | _ =>
          log_Printf "Error: Project name not found for project %s"
            [AString sourceProjectID] ;;
          continue
      end
  end.

Definition migrateVariablesCmd (fuel : nat) : M unit :=
  if (negb (nonempty (groupID flags)) && negb (nonempty (projectID flags)))
     || (negb (nonempty (destinationGroupID flags))
         && negb (nonempty (destinationProjectID flags)))
  then
    log_Println "Error: Source and destination IDs must be provided using one of:" ;;
    log_Println "  - Source group (-g) and destination group (--destination-group)" ;;
    log_Println "  - Source project (-p) and destination project (--destination-project)"
  else
    match host_loadConfig host with
    | Err err => log_Printf "Error loading config: %v" [AString err]
    | Ok config =>
        match EnsureDataDir with
        | Some err => log_Printf "Error: %v" [AString err]
        | None =>
            sourceVars <-
              (if nonempty (groupID flags) then
                 if recursive flags then
                   m <- getAllVariablesForGroupProjects config (groupID flags) ;;
                   ret (ByProject m)
                 else
                   vars <- getVariablesForGroup config (groupID flags) ;;
                   ret (Flat vars)
               else
                 vars <- getVariablesForProject config (projectID flags) ;;
                 ret (Flat vars)) ;;
            let sourceFile :=
              GenerateOutputFileName "variables" (groupID flags) (projectID flags)
                false (recursive flags) in
            saved <- saveOutputToFile (SourceVars_value sourceVars) sourceFile ;;
            match saved with
            | Some err => log_Printf "Error saving source variables: %v" [AString err]
            | None =>
                let completed := log_Println "Variables migration completed successfully" in
                if nonempty (groupID flags) then
                  if recursive flags then
                    log_Printf "Migrating variables recursively from group %s to group %s"
                      [AString (groupID flags); AString (destinationGroupID flags)] ;;
                    match sourceVars with
                    | ByProject sourceVarsMap =>
                        destProjects <- fetchAllProjects fuel config ;;
                        match destProjects with
                        | Err err =>
                            log_Printf "Error fetching destination projects: %v" [AString err]
                        | Ok destProjects =>
                            migrateVariables_range config destProjects
                              (range_order sourceVarsMap) ;;
                            completed
                        end
                    | Flat _ => log_Printf "Error: Invalid source variables format" []
                    end
                  else
                    log_Printf "Migrating variables from group %s to group %s"
                      [AString (groupID flags); AString (destinationGroupID flags)] ;;
                    match sourceVars with
                    | Flat vars =>
                        createVariablesForGroup config (destinationGroupID flags)
                          (interfaceVars vars) ;;
                        completed
                    | ByProject _ => log_Printf "Error: Invalid source variables format" []
                    end
                else
                  log_Printf "Migrating variables from project %s to project %s"
                    [AString (projectID flags); AString (destinationProjectID flags)] ;;
                  match sourceVars with
                  | Flat vars =>
                      createVariablesForProject config (destinationProjectID flags)
                        (interfaceVars vars) ;;
                      completed
                  | ByProject _ => log_Printf "Error: Invalid source variables format" []
                  end
            end
        end
    end.

End Engine.

(** ** The commands around the engine *)

(** Files and the terminal, beyond what [Host] gives: opening a file for
    reading, [os.WriteFile], the YAML file behind [utils.LoadConfig] (the
    result of [os.ReadFile], then of [yaml.Unmarshal]), [os.UserHomeDir] and
    [filepath.Join]. *)
Record Files : Type := {
  file_open : string -> Result Body;
  file_write : string -> error;
  file_yaml : string -> Result (Result Config);
  user_home : Result string;
  filepath_Join : string -> string -> string
}.

(** [json.Unmarshal(data, &v)] with [v] a nil [[]interface{}]. *)
Definition json_Unmarshal_list (data : Bytes) : Result (list GoVal) :=
  match data with
  | Garbage _ => Err "invalid character looking for beginning of value"
  | JSONText JNull => Ok []
  | JSONText (JArr l) => Ok (map decode l)
  | JSONText _ => Err "json: cannot unmarshal value into Go value of type []interface {}"
  end.

(** The entries of a [map[string]map[string]interface{}], decoded from the
    members of an object: a repeated key keeps its last value, a member that
    is neither an object nor null is an error. *)
Fixpoint decode_named_maps (kvs : list (string * JSON)) (acc : list (string * gomap))
  : Result (list (string * gomap)) :=
  match kvs with
  | [] => Ok acc
  | (k, v) :: kvs' =>
      match decode_map v with
      | Ok m => decode_named_maps kvs' (map_set k m acc)
      | Err e => Err e
      end
  end.

(** [json.Unmarshal(data, &v)] with [v] a nil
    [map[string]map[string]interface{}]. *)
Definition json_Unmarshal_named_maps (data : Bytes) : Result (list (string * gomap)) :=
  match data with
  | Garbage _ => Err "invalid character looking for beginning of value"
  | JSONText JNull => Ok []
  | JSONText (JObj kvs) => decode_named_maps kvs []
  | JSONText _ =>
      Err "json: cannot unmarshal value into Go value of type map[string]map[string]interface {}"
  end.

(** [fmt.Println(args...)]: the operands separated by blanks, then a
    newline. *)
Definition fmt_Println (args : list Arg) : M unit :=
  emit (Printed (match args with
                 | [] => "\n"
                 | [_] => "%v\n"
                 | [_; _] => "%v %v\n"
                 | _ => "%v %v %v\n"
                 end) args).

(** [fmt.Print(text)] *)
Definition fmt_Print (text : string) : M unit := emit (Printed text []).

(** [input[:len(input)-1]], which panics on the empty string. *)
Definition sanitizeInput (input : string) : M string :=
  match String.length input with
  | O => panic "runtime error: slice bounds out of range [:-1]"
  | S n => ret (String.substring 0 n input)
  end.

(** [reader.ReadString('\n')] on what is left of standard input: the text
    up to and including the first newline, or all of it when there is no
    newline (the error is dropped by the caller); and what is left after. *)
Fixpoint ReadString_newline (stdin : string) : string * string :=
  match stdin with
  | EmptyString => (EmptyString, EmptyString)
  | String c stdin' =>
      if Ascii.eqb c "010"%char then (String c EmptyString, stdin')
      else let (line, left) := ReadString_newline stdin' in (String c line, left)
  end.

(** The YAML mapping [yaml.Marshal] makes of a [Config], as a tree. *)
Definition Config_document (config : Config) : JSON :=
  JObj [("source_base_url", JStr (SourceBaseURL config));
        ("source_access_token", JStr (SourceAccessToken config));
        ("destination_base_url", JStr (DestinationBaseURL config));
        ("destination_access_token", JStr (DestinationAccessToken config));
        ("auth_user", JStr (AuthUser config));
        ("auth_password", JStr (AuthPassword config))].

Section Commands.

Variable url_Parse_ok : string -> bool.
Variable flags : Flags.
Variable host : Host.
Variable files : Files.
(** The flag variables [inputFilePath], [outputFile] and [configPath]. *)
Variable inputFilePath : string.
Variable outputFile : string.
Variable configPath : string.
(** [strings.TrimSpace], and [url.Parse] giving the scheme of the URL. *)
Variable strings_TrimSpace : string -> string.
Variable url_Parse : string -> Result string.
(** The order in which [range] visits the entries of the input map. *)
Variable range_input : list (string * gomap) -> list (string * gomap).

(** *** utils/config.go *)

Definition validateURL (urlStr : string) : error :=
  match url_Parse urlStr with
  | Err err => Some err
  | Ok scheme =>
      if negb (nonempty scheme) then Some "URL must be absolute"
      else if negb (String.eqb scheme "http") && negb (String.eqb scheme "https")
      then Some "URL must use HTTP or HTTPS protocol"
      else None
  end.

Definition Validate (c : Config) : error :=
  if String.eqb (strings_TrimSpace (SourceBaseURL c)) "" then
    Some "source_base_url is required"
  else if String.eqb (strings_TrimSpace (SourceAccessToken c)) "" then
    Some "source_access_token is required"
  else if String.eqb (strings_TrimSpace (DestinationBaseURL c)) "" then
    Some "destination_base_url is required"
  else if String.eqb (strings_TrimSpace (DestinationAccessToken c)) "" then
    Some "destination_access_token is required"
  else
    match validateURL (SourceBaseURL c) with
    | Some err => Some (Sprintf "invalid source_base_url: %w" [err])
    | None =>
        match validateURL (DestinationBaseURL c) with
        | Some err => Some (Sprintf "invalid destination_base_url: %w" [err])
        | None => None
        end
    end.

Definition LoadConfig (filePath : string) : Result Config :=
  if String.eqb (strings_TrimSpace filePath) "" then
    Err "config file path cannot be empty"
  else
    match file_yaml files filePath with
    | Err err => Err (Sprintf "failed to read config file: %w" [err])
    | Ok (Err err) => Err (Sprintf "failed to unmarshal yaml: %w" [err])
    | Ok (Ok config) =>
        match Validate config with
        | Some err => Err (Sprintf "invalid configuration: %w" [err])
        | None => Ok config
        end
    end.

(** *** get.go: loadConfig and the commands *)

Definition loadConfig : Result Config :=
  let path :=
    if String.eqb configPath "" then
      match user_home files with
      | Err err => Err (Sprintf "unable to find home directory: %v" [err])
      | Ok homeDir => Ok (filepath_Join files homeDir "config.yaml")
      end
    else Ok configPath in
  match path with
  | Err err => Err err
  | Ok path =>
      match LoadConfig path with
      | Err err => Err (Sprintf "failed to load config from %s: %v" [path; err])
      | Ok config => Ok config
      end
  end.

Definition getProjectsCmd : M unit :=
  match host_loadConfig host with
  | Err err => log_Printf "Error loading config: %v" [AString err]
  | Ok config =>
      projects <-
        (if nonempty (groupID flags) then
           l <- getProjectsForGroup url_Parse_ok flags config (groupID flags) ;;
           ret (VMaps l)
         else
           executeGitLabAPIRequest url_Parse_ok (SourceBaseURL config)
             (SourceAccessToken config) "projects") ;;
      match EnsureDataDir host with
      | Some err => log_Printf "Error: %v" [AString err]
      | None =>
          let outputFile :=
            if String.eqb outputFile "" then
              GenerateOutputFileName "projects" (groupID flags) "" (isDestination flags) false
            else outputFile in
          saved <- saveOutputToFile host projects outputFile ;;
          match saved with
          | Some err => log_Printf "Error saving output to file: %v" [AString err]
          | None => ret tt
          end
      end
  end.

Definition getGroupsCmd : M unit :=
  match host_loadConfig host with
  | Err err => log_Printf "Error loading config: %v" [AString err]
  | Ok config =>
      let accessToken :=
        if isDestination flags then DestinationAccessToken config
        else SourceAccessToken config in
      let baseURL :=
        if isDestination flags then DestinationBaseURL config
        else SourceBaseURL config in
      groups <- executeGitLabAPIRequest url_Parse_ok baseURL accessToken "groups" ;;
      match EnsureDataDir host with
      | Some err => log_Printf "Error: %v" [AString err]
      | None =>
          let outputFile :=
            if String.eqb outputFile "" then
              GenerateOutputFileName "groups" "" "" (isDestination flags) false
            else outputFile in
          saved <- saveOutputToFile host groups outputFile ;;
          match saved with
          | Some err => log_Printf "Error saving output to file: %v" [AString err]
          | None => ret tt
          end
      end
  end.

Definition getVariablesCmd : M unit :=
  match host_loadConfig host with
  | Err err => log_Printf "Error loading config: %v" [AString err]
  | Ok config =>
      if negb (nonempty (groupID flags)) && negb (nonempty (projectID flags)) then
        log_Println "Error: Either --group or --project must be provided."
      else
        match EnsureDataDir host with
        | Some err => log_Printf "Error: %v" [AString err]
        | None =>
            let outputFile :=
              if String.eqb outputFile "" then
                GenerateOutputFileName "variables" (groupID flags) (projectID flags)
                  (isDestination flags) (recursive flags)
              else outputFile in
            if nonempty (groupID flags) then
              if recursive flags then
                variablesByProject <-
                  getAllVariablesForGroupProjects url_Parse_ok flags config (groupID flags) ;;
                saved <- saveOutputToFile host
                           (SourceVars_value (ByProject variablesByProject)) outputFile ;;
                match saved with
                | Some err => log_Printf "Error saving output to file: %v" [AString err]
                | None => ret tt
                end
              else
                variables <- getVariablesForGroup url_Parse_ok flags config (groupID flags) ;;
                saved <- saveOutputToFile host (VMaps variables) outputFile ;;
                match saved with
                | Some err => log_Printf "Error saving output to file: %v" [AString err]
                | None => ret tt
                end
            else if nonempty (projectID flags) then
              if recursive flags then
                log_Println "Error: Recursive mode is not supported for individual projects."
              else
                variables <-
                  getVariablesForProject url_Parse_ok flags config (projectID flags) ;;
                saved <- saveOutputToFile host (VMaps variables) outputFile ;;
                match saved with
                | Some err => log_Printf "Error saving output to file: %v" [AString err]
                | None => ret tt
                end
            else ret tt
        end
  end.

(** *** set.go: the input files and the command *)

Definition readRecursiveIputFile (filePath : string) : Result (list (string * gomap)) :=
  match file_open files filePath with
  | Err err => Err (Sprintf "could not open file: %v" [err])
  | Ok file =>
      match io_ReadAll file with
      | Err err => Err (Sprintf "could not read file: %v" [err])
      | Ok data =>
          match json_Unmarshal_named_maps data with
          | Err err => Err (Sprintf "could not parse JSON: %v" [err])
          | Ok parsedData => Ok parsedData
          end
      end
  end.

Definition readInputFile (filePath : string) : Result (list GoVal) :=
  match file_open files filePath with
  | Err err => Err (Sprintf "could not open file: %v" [err])
  | Ok file =>
      match io_ReadAll file with
      | Err err => Err (Sprintf "could not read file: %v" [err])
      | Ok data =>
          match json_Unmarshal_list data with
          | Err err => Err (Sprintf "could not parse JSON: %v" [err])
          | Ok parsedData => Ok parsedData
          end
      end
  end.

(** The [for _, projectData := range inputData] loop of [setVariablesCmd],
    over the values in the order [range] yields them. *)
Fixpoint setVariables_range (config : Config) (projects : list gomap)
    (inputData : list (string * gomap)) : M unit :=
  match inputData with
  | [] => ret tt
  | (_, projectData) :: inputData' =>
      let continue := setVariables_range config projects inputData' in
      match index projectData "project_name" with
      | VString projectName =>
          pid <- findProjectIDByExactName projects projectName ;;
          if pid =? 0 then
            fmt_Printf "Error: Project %s not found in the destination.\n"
              [AString projectName] ;;
            continue
          else
            match index projectData "variables" with
            | VSlice variables =>
                createVariablesForProject url_Parse_ok flags config (itoa pid) variables ;;
                continue
            | _ =>
                fmt_Printf "Error: Variables for project %s are not in the correct format.\n"
                  [AString projectName] ;;
                continue
            end
      | _ =>
          fmt_Printf "Error: Project name is not in the correct format.\n" [] ;;
          continue
      end
  end.

Definition setVariablesCmd (fuel : nat) : M unit :=
  match host_loadConfig host with
  | Err err => fmt_Println [AString "Error:"; AString err]
  | Ok config =>
      if String.eqb inputFilePath "" then
        fmt_Println [AString "Error: Input file path is required."]
      else if (nonempty (destinationProjectID flags) && nonempty (destinationGroupID flags))
              || (negb (nonempty (destinationProjectID flags))
                  && negb (nonempty (destinationGroupID flags)))
      then
        fmt_Println
          [AString "Error: Either --destination-project or --destination-group must be provided."]
      else if nonempty (destinationGroupID flags) then
        if recursive flags then
          match readRecursiveIputFile inputFilePath with
          | Err err => fmt_Printf "Error reading input file: %v\n" [AString err]
          | Ok inputData =>
              projects <- fetchAllProjects url_Parse_ok flags fuel config ;;
              match projects with
              | Err err => fmt_Printf "Error fetching projects: %v\n" [AString err]
              | Ok projects => setVariables_range config projects (range_input inputData)
              end
          end
        else
          match readInputFile inputFilePath with
          | Err err => fmt_Printf "Error reading input file: %v\n" [AString err]
          | Ok variables =>
              createVariablesForGroup url_Parse_ok flags config (destinationGroupID flags)
                variables
          end
      else
        match readInputFile inputFilePath with
        | Err err => fmt_Printf "Error reading input file: %v\n" [AString err]
        | Ok variables =>
            createVariablesForProject url_Parse_ok flags config (destinationProjectID flags)
              variables
        end
  end.

(** *** init.go *)

Definition writeConfigToFile (config : Config) (filePath : string) : M error :=
  match file_write files filePath with
  | Some err => ret (Some (Sprintf "failed to write config file: %v" [err]))
  | None => emit (Written filePath (Config_document config)) ;; ret None
  end.

(** The [Run] of [initCmd], on the text waiting on standard input. *)
Definition initCmd (stdin : string) : M unit :=
  path <-
    (if String.eqb configPath "" then
       match user_home files with
       | Err err =>
           fmt_Println [AString "Error finding home directory:"; AString err] ;;
           ret None
       | Ok homeDir =>
           let path := filepath_Join files homeDir "config.yaml" in
           fmt_Println [AString "Defaulting to home directory:"; AString path] ;;
           ret (Some path)
       end
     else
       match host_MkdirAll host (filepath_Dir host configPath) with
       | Some err =>
           fmt_Printf "Error creating config directory: %v\n" [AString err] ;;
           ret None
       | None => ret (Some configPath)
       end) ;;
  match path with
  | None => ret tt
  | Some configPath =>
      fmt_Print "Enter Source Base URL: " ;;
      let (line, stdin) := ReadString_newline stdin in
      sourceBaseURL <- sanitizeInput line ;;
      fmt_Print "Enter Source Access Token: " ;;
      let (line, stdin) := ReadString_newline stdin in
      sourceAccessToken <- sanitizeInput line ;;
      fmt_Print "Enter Destination Base URL: " ;;
      let (line, stdin) := ReadString_newline stdin in
      destinationBaseURL <- sanitizeInput line ;;
      fmt_Print "Enter Destination Access Token: " ;;
      let (line, stdin) := ReadString_newline stdin in
      destinationAccessToken <- sanitizeInput line ;;
      let config :=
        {| SourceBaseURL := sourceBaseURL;
           SourceAccessToken := sourceAccessToken;
           DestinationBaseURL := destinationBaseURL;
           DestinationAccessToken := destinationAccessToken;
           AuthUser := ""; AuthPassword := "" |} in
      err <- writeConfigToFile config configPath ;;
      match err with
      | Some err => fmt_Printf "Error writing config file: %v\n" [AString err]
      | None => fmt_Printf "Configuration saved successfully to %s\n" [AString configPath]
      end
  end.

End Commands.

(** ** mirror.go: the command *)

Record MirrorCommand : Type := {
  sourceProjectID : string;
  targetProjectID : string;
  sourceGroupID : string;
  targetGroupID : string
}.

(** [fmt.Sprintf("%.0f", id)] of an integral float64. *)
Definition Sprintf_f0 (id : Z) : string := itoa id.

Section Mirror.

Variable url_Parse_ok : string -> bool.
Variable host : Host.
(** [mc.mirrorProject(config, sourceID, targetID)], which talks to both
    instances and to the terminal: the error it returns, and the
    configuration as it leaves it (it fills in the mirror credentials of
    the [*utils.Config] it is handed, which the caller goes on using). *)
Variable mirrorProject : Config -> string -> string -> M (error * Config).

(** The first loop of [mirrorGroup], with the map built so far. *)
Fixpoint targetProjectMap_range (targetProjects : list gomap)
    (targetProjectMap : list (string * string)) : M (list (string * string)) :=
  match targetProjects with
  | [] => ret targetProjectMap
  | project :: targetProjects' =>
      match index project "namespace" with
      | VMap namespace =>
          match index project "name" with
          | VString name =>
              namespaceName <- assert_string (index namespace "name") ;;
              let path := Sprintf "%s/%s" [namespaceName; name] in
              match index project "id" with
              | VFloat64 id =>
                  targetProjectMap_range targetProjects'
                    (map_set path (Sprintf_f0 id) targetProjectMap)
              | _ => targetProjectMap_range targetProjects' targetProjectMap
              end
          | _ => targetProjectMap_range targetProjects' targetProjectMap
          end
      | _ => targetProjectMap_range targetProjects' targetProjectMap
      end
  end.

(** The second loop of [mirrorGroup]; the configuration is the one the
    calls of [mirrorProject] so far have left. *)
Fixpoint mirrorGroup_range (config : Config) (targetProjectMap : list (string * string))
    (sourceProjects : list gomap) : M unit :=
  match sourceProjects with
  | [] => ret tt
  | sourceProject :: sourceProjects' =>
      match index sourceProject "namespace" with
      | VMap namespace =>
          match index sourceProject "name" with
          | VString name =>
              namespaceName <- assert_string (index namespace "name") ;;
              let sourcePath := Sprintf "%s/%s" [namespaceName; name] in
              match map_get sourcePath targetProjectMap with
              | None =>
                  fmt_Printf "Warning: Target project %s not found\n" [AString sourcePath] ;;
                  mirrorGroup_range config targetProjectMap sourceProjects'
              | Some targetID =>
                  id <- assert_float64 (index sourceProject "id") ;;
                  mirrored <- mirrorProject config (Sprintf_f0 id) targetID ;;
                  match fst mirrored with
                  | Some err =>
                      fmt_Printf "Error mirroring project %s: %v\n"
                        [AString sourcePath; AString err] ;;
                      mirrorGroup_range (snd mirrored) targetProjectMap sourceProjects'
                  | None =>
                      mirrorGroup_range (snd mirrored) targetProjectMap sourceProjects'
                  end
              end
          | _ =>
              fmt_Printf "Warning: Could not get name for source project\n" [] ;;
              mirrorGroup_range config targetProjectMap sourceProjects'
          end
      | _ =>
          fmt_Printf "Warning: Could not get namespace for source project\n" [] ;;
          mirrorGroup_range config targetProjectMap sourceProjects'
      end
  end.

Definition mirrorGroup (fuel : nat) (config : Config) (sourceGroup targetGroup : string)
  : M error :=
  sourceProjects <- fetchGroupProjects url_Parse_ok fuel config sourceGroup true ;;
  match sourceProjects with
  | Err err => ret (Some (Sprintf "failed to fetch source projects: %v" [err]))
  | Ok sourceProjects =>
      targetProjects <- fetchGroupProjects url_Parse_ok fuel config targetGroup false ;;
      match targetProjects with
      | Err err => ret (Some (Sprintf "failed to fetch target projects: %v" [err]))
      | Ok targetProjects =>
          targetProjectMap <- targetProjectMap_range targetProjects [] ;;
          mirrorGroup_range config targetProjectMap sourceProjects ;;
          ret None
      end
  end.

(** [MirrorCommand.Run]. *)
Definition MirrorCommand_Run (fuel : nat) (mc : MirrorCommand) : M error :=
  match host_loadConfig host with
  | Err err => ret (Some (Sprintf "failed to load config: %v" [err]))
  | Ok config =>
      if (String.eqb (sourceProjectID mc) "" && String.eqb (sourceGroupID mc) "")
         || (String.eqb (targetProjectID mc) "" && String.eqb (targetGroupID mc) "")
      then ret (Some "must specify either project IDs (-p, -P) or group IDs (-g, -G)")
      else if nonempty (sourceProjectID mc) && nonempty (targetProjectID mc) then
        mirrored <- mirrorProject config (sourceProjectID mc) (targetProjectID mc) ;;
        ret (fst mirrored)
      else if nonempty (sourceGroupID mc) && nonempty (targetGroupID mc) then
        mirrorGroup fuel config (sourceGroupID mc) (targetGroupID mc)
      else ret None
  end.

End Mirror.

(** ** Observations on a run *)

Open Scope list_scope.

Definition prepend {A : Type} (ev : list Event) (r : Run A) : Run A :=
  {| result := result r; events := ev ++ events r; rest := rest r |}.

(** The requests a run has sent, in order. *)
Definition requests (evs : list Event) : list Request :=
  flat_map (fun e => match e with Sent _ q _ => [q] | _ => [] end) evs.

(** Every event a computation emits satisfies [P], whatever the replies. *)
Definition emits {A : Type} (P : Event -> Prop) (m : M A) : Prop :=
  forall p, Forall P (events (m p)).

(** The event is not a request checked against the server certificate. *)
Definition skips_verification (e : Event) : Prop :=
  match e with
  | Sent c _ _ => verifies_certificate c = false
  | _ => True
  end.

(** The events of the fetch phase: no request but GETs, none of them
    checked against the server certificate. *)
Definition fetch_event (e : Event) : Prop :=
  match e with
  | Sent c q _ => Method q = "GET" /\ verifies_certificate c = false
  | _ => True
  end.

(** The events of the write phase: no request but POSTs, none of them
    checked against the server certificate. *)
Definition create_event (e : Event) : Prop :=
  match e with
  | Sent c q _ => Method q = "POST" /\ verifies_certificate c = false
  | _ => True
  end.

(** All fetching comes before all writing. *)
Definition fetch_then_write (evs : list Event) : Prop :=
  exists fetched written,
    evs = fetched ++ written /\ Forall fetch_event fetched /\ Forall create_event written.

Definition phased {A : Type} (m : M A) : Prop :=
  forall p, fetch_then_write (events (m p)).

(** The requests sent and the pauses taken, in order (log lines dropped). *)
Definition timeline (evs : list Event) : list Event :=
  filter (fun e => match e with Sent _ _ _ | Slept _ => true | _ => false end) evs.

(** An attempt of [executeGitLabAPIRequest] that does not return a result:
    no response, a status other than 200, or a body that does not decode. *)
Definition attempt_fails (a : Reply) : bool :=
  match a with
  | NetError _ => true
  | Answer resp =>
      negb (StatusCode resp =? StatusOK)
      || match json_Decode_any (RespBody resp) with Ok _ => false | Err _ => true end
  end.

(** The replies a run has received, in order. *)
Definition answers (evs : list Event) : list Reply :=
  flat_map (fun e => match e with Sent _ _ a => [a] | _ => [] end) evs.

(** The payloads of the records that have a JSON encoding, in order. *)
Definition payloads (variables : list GoVal) : list JSON :=
  flat_map (fun v => match Marshal v with Ok j => [j] | Err _ => [] end) variables.

(** The creation request for one payload. *)
Definition creation_request (url token : string) (payload : JSON) : Request :=
  {| Method := "POST"; URL := url;
     Header := [("Content-Type", "application/json"); ("PRIVATE-TOKEN", token)];
     ReqBody := Some (JSONText payload) |}.

(** The error [makeGitLabAPIRequest] returns for a reply. *)
Definition creation_error (a : Reply) : error :=
  match a with
  | NetError err => Some (Sprintf "request failed: %v" [err])
  | Answer resp =>
      if 400 <=? StatusCode resp
      then Some (Sprintf "API returned error status: %s" [Status resp])
      else None
  end.

(** A reply on which a creation request succeeds. *)
Definition accepted (a : Reply) : bool :=
  match creation_error a with None => true | Some _ => false end.

(** The per-record lines a transfer prints: [true] for "Successfully
    created ...", [false] for an error line. *)
Definition reports (evs : list Event) : list bool :=
  flat_map (fun e => match e with
                     | Printed format _ => [String.prefix "Successfully created" format]
                     | _ => []
                     end) evs.

(** The report line each record is owed, in order: a failure for a record
    that has no encoding, and for the others what became of their request,
    the replies being handed out to them in order. *)
Fixpoint outcomes (variables : list GoVal) (replies : list Reply) : list bool :=
  match variables with
  | [] => []
  | v :: variables' =>
      match Marshal v with
      | Err _ => false :: outcomes variables' replies
      | Ok _ =>
          match replies with
          | a :: replies' => accepted a :: outcomes variables' replies'
          | [] => []
          end
      end
  end.

(** What the transfer executor owes its caller, for an executor [create]
    posting to [url] with [token]: every record that has an encoding is
    posted once, in order, whatever the earlier replies were; each reply is
    consumed by its own record; every record gets its report line, a
    failure when it could not be encoded, when its request got no
    response, or when the response carried an error status, and a success
    otherwise; the run always returns; nothing but these posts is sent. *)
Definition continues_past_failures (create : list GoVal -> M unit)
    (url token : string) : Prop :=
  forall variables replies later,
    List.length replies = List.length (payloads variables) ->
    let r := create variables (replies ++ later) in
    result r = Ret tt /\
    rest r = later /\
    requests (events r) = map (creation_request url token) (payloads variables) /\
    answers (events r) = replies /\
    reports (events r) = outcomes variables replies.

(** A record of a listing, given by the fields of its JSON object. *)
Definition decode_record (fields : list (string * JSON)) : gomap :=
  Some (decode_fields fields).

(** The answer 200 that carries one page of records. *)
Definition page_reply (page : list (list (string * JSON))) : Reply :=
  Answer {| StatusCode := 200; Status := "200 OK";
            RespBody := Readable (JSONText (JArr (map JObj page))) |}.

(** The exchanges of a paginated listing: one request per page, the page
    number going up by one from [first]. *)
Fixpoint page_exchanges (client : Client) (request : Z -> Request) (first : Z)
    (pages : list (list (list (string * JSON)))) : list Event :=
  match pages with
  | [] => []
  | page :: pages' =>
      Sent client (request first) (page_reply page)
      :: page_exchanges client request (first + 1) pages'
  end.

(** A variable-creation request. *)
Definition is_write (e : Event) : bool :=
  match e with
  | Sent _ q _ => String.eqb (Method q) "POST"
  | _ => false
  end.

(** The two lines by which the recursive migration tells how a source
    project was resolved. *)
Definition reports_resolution (e : Event) : bool :=
  match e with
  | Logged format _ =>
      String.eqb format "Migrating variables for project %s (ID: %d)"
      || String.eqb format "Warning: Project %s not found in destination group"
  | _ => false
  end.

(** Every source project is resolved before the first write: no resolution
    is reported once a creation request has been sent. *)
Fixpoint plan_precedes_writes (evs : list Event) : bool :=
  match evs with
  | [] => true
  | e :: evs' =>
      if is_write e then forallb (fun e' => negb (reports_resolution e')) evs'
      else plan_precedes_writes evs'
  end.

(** The document [json.Marshal] gives back for a decoded document: the keys
    of every object sorted, a repeated key keeping its last value, every
    number written anew from the float64 it was read as, all else
    unchanged. *)
Fixpoint canonical (j : JSON) : JSON :=
  match j with
  | JNum n => JNum (FormatFloat_integer (ParseFloat_integer n))
  | JArr l => JArr (map canonical l)
  | JObj kvs =>
      JObj (fold_left (fun m kv => map_set (fst kv) (canonical (snd kv)) m) kvs [])
  | _ => j
  end.

(** The replayed record names exactly the fields of the fetched one, and
    each of its values comes from the fetched field of that name. *)
Definition same_fields (record replayed : list (string * JSON)) : Prop :=
  (forall k, In k (map fst replayed) <-> In k (map fst record)) /\
  (forall k v, In (k, v) replayed -> exists v0, In (k, v0) record /\ v = canonical v0).




(** The prompts of [init], in order. *)
Definition init_prompts : list Event :=
  [Printed "Enter Source Base URL: " []; Printed "Enter Source Access Token: " [];
   Printed "Enter Destination Base URL: " []; Printed "Enter Destination Access Token: " []].

(** Input made of newline-ended lines. *)
Definition typed_lines (answers : list string) (left : string) : string :=
  fold_right (fun a s => (a ++ String "010"%char s)%string) left answers.

(** The listing request of [executeGitLabAPIRequest]. *)
Definition listing_request (baseURL token resource : string) : Request :=
  {| Method := "GET";
     URL := Sprintf "%s/api/v4/%s?per_page=%d" [baseURL; resource; itoa defaultPerPage];
     Header := [("PRIVATE-TOKEN", token)]; ReqBody := None |}.

(** The events of a [get groups] or [get projects] run that lists
    [resource] on the instance at [baseURL] and saves to [path]: the only
    request is the listing request, sent through a client that verifies
    certificates; the only file written is [path]. *)
Definition listing_run_event (baseURL token resource path : string) (e : Event) : Prop :=
  match e with
  | Sent c q _ => q = listing_request baseURL token resource /\ verifies_certificate c = true
  | Written p _ => p = path
  | _ => True
  end.

(** A pause between attempts. *)
Definition is_pause (e : Event) : bool :=
  match e with Slept _ => true | _ => false end.

(** The keys of an association list go strictly up. *)
Fixpoint keys_ascend {V : Type} (m : list (string * V)) : Prop :=
  match m with
  | [] => True
  | (k, _) :: m' => Forall (fun kv => String.compare k (fst kv) = Lt) m' /\ keys_ascend m'
  end.

(** The snapshots a run has written, in order. *)
Definition snapshots (evs : list Event) : list (string * JSON) :=
  flat_map (fun e => match e with Written path doc => [(path, doc)] | _ => [] end) evs.

(** The creation requests a run has sent, in order. *)
Definition creations (evs : list Event) : list Request :=
  filter (fun q => String.eqb (Method q) "POST") (requests evs).

(** A run that ended normally without sending a request, writing a
    snapshot or reading a reply. *)
Definition untouched (r : Run unit) (script : list Reply) : Prop :=
  result r = Ret tt /\ rest r = script /\
  requests (events r) = [] /\ snapshots (events r) = [].

(** A reply from which the single-request fetchers of get.go get nothing:
    no response, an unreadable body, a status other than 200, or a body
    that is not a JSON array of objects. *)
Definition unusable (a : Reply) : bool :=
  match a with
  | NetError _ => true
  | Answer resp =>
      match io_ReadAll (RespBody resp) with
      | Err _ => true
      | Ok body =>
          negb (StatusCode resp =? StatusOK)
          || match json_Unmarshal_maps body with Ok _ => false | Err _ => true end
      end
  end.

(** What the single-request fetchers of get.go make of a reply: the decoded
    array of a 200 answer, and nothing of any other reply. *)
Definition fetched (a : Reply) : list gomap :=
  match a with
  | NetError _ => []
  | Answer resp =>
      match io_ReadAll (RespBody resp) with
      | Err _ => []
      | Ok body =>
          if negb (StatusCode resp =? StatusOK) then []
          else match json_Unmarshal_maps body with Ok l => l | Err _ => [] end
      end
  end.

(** The key under which [getAllVariablesForGroupProjects] files a project. *)
Definition project_key (id : Z) : string :=
  Sprintf "%d" [itoa (int64_of_float64 (math_Round id))].

(** The entry it files: the name of the project and what was fetched. *)
Definition filed (name : string) (a : Reply) : list (string * GoVal) :=
  [("project_name", VString name); ("variables", VMaps (fetched a))].

(** A project record as the loops read it: a numeric id and a string name. *)
Definition listed (project : gomap) (entry : Z * string) : Prop :=
  index project "id" = VFloat64 (fst entry) /\
  index project "name" = VString (snd entry).

(** A project record as [mirrorGroup] reads it: a namespace with a string
    name, a string name and a numeric id. *)
Definition placed (project : gomap) (entry : string * string * Z) : Prop :=
  exists namespace,
    index project "namespace" = VMap namespace /\
    index namespace "name" = VString (fst (fst entry)) /\
    index project "name" = VString (snd (fst entry)) /\
    index project "id" = VFloat64 (snd entry).

(** The path under which [mirrorGroup] looks a project up. *)
Definition mirror_path (entry : string * string * Z) : string :=
  Sprintf "%s/%s" [fst (fst entry); snd (fst entry)].

(** An event that is not a creation request for another URL than [url]. *)
Definition aimed_at (url : string) (e : Event) : Prop :=
  match e with
  | Sent _ q _ => Method q = "POST" -> URL q = url
  | _ => True
  end.

(** The event is not a request sent without checking the server
    certificate. *)
Definition checks_certificate (e : Event) : Prop :=
  match e with
  | Sent c _ _ => verifies_certificate c = true
  | _ => True
  end.


(** ** Sample data *)

(** A configuration with source [https://src] and destination
    [https://dst]. *)
Definition cfg0 : Config :=
  {| SourceBaseURL := "https://src"; SourceAccessToken := "st";
     DestinationBaseURL := "https://dst"; DestinationAccessToken := "dt";
     AuthUser := ""; AuthPassword := "" |}.

(** [migrate variables -g 5 -G 9 -r] *)
Definition fl0 : Flags :=
  {| isDestination := false; groupID := "5"; projectID := ""; recursive := true;
     isSource := false; destinationGroupID := "9"; destinationProjectID := "" |}.

(** A machine whose configuration file holds [cfg0] and whose file system
    never fails. *)
Definition host0 : Host :=
  {| host_loadConfig := Ok cfg0; host_MkdirAll := fun _ => None;
     host_Create := fun _ => None; filepath_Dir := fun _ => "data" |}.

(** A project as the listing returns it. *)
Definition project_record (id : Z) (name : string) : gomap :=
  Some (decode_fields [("id", JNum id); ("name", JStr name)]).

(** An answer with a JSON body. *)
Definition answer (code : Z) (status : string) (j : JSON) : Reply :=
  Answer {| StatusCode := code; Status := status; RespBody := Readable (JSONText j) |}.

(** Every URL the run builds is well formed. *)
Definition all_urls_parse (url : string) : bool := true.

(** Five variable records, and replies of which the third is an error. *)
Definition five_variables : list GoVal :=
  map (fun k => VMap (Some [("key", VString k)])) ["V1"; "V2"; "V3"; "V4"; "V5"].

Definition third_fails : list Reply :=
  [answer 201 "201 Created" JNull; answer 201 "201 Created" JNull;
   answer 422 "422 Unprocessable Entity" JNull;
   answer 201 "201 Created" JNull; answer 201 "201 Created" JNull].

(** A page of [count] project records with ids from [first]. *)
Definition numbered_page (first count : nat) : list (list (string * JSON)) :=
  map (fun i => [("id", JNum (Z.of_nat i)); ("name", JStr "p")]) (seq first count).

(** An entry of the map built by [getAllVariablesForGroupProjects]. *)
Definition project_entry (sid name : string) (vars : list gomap)
  : string * list (string * GoVal) :=
  (sid, map_set "variables" (VMaps vars) (map_set "project_name" (VString name) [])).

(** A variable record with its key alone. *)
Definition variable (key : string) : gomap := Some [("key", VString key)].

(** The answer to a creation request that went through. *)
Definition created : Reply := answer 201 "201 Created" JNull.

(** Source group 5 holds projects A and B, each with one variable;
    destination group 9 holds A and B under other ids. *)
Definition two_matched_projects : list Reply :=
  [ page_reply [[("id", JNum 1); ("name", JStr "A")]; [("id", JNum 2); ("name", JStr "B")]];
    page_reply [[("key", JStr "X")]];
    page_reply [[("key", JStr "Y")]];
    page_reply [[("id", JNum 11); ("name", JStr "A")]; [("id", JNum 12); ("name", JStr "B")]];
    page_reply [];
    created; created ].

(** A machine without input files, whose writes succeed and whose home is
    [/home/u]. *)
Definition files0 : Files :=
  {| file_open := fun _ => Err "no such file"; file_write := fun _ => None;
     file_yaml := fun _ => Err "no such file"; user_home := Ok "/home/u";
     filepath_Join := fun d f => (d ++ "/" ++ f)%string |}.

(** [url.Parse] on the sample URLs: the text before [://] is the scheme. *)
Definition scheme_of (url : string) : Result string :=
  if String.prefix "https://" url then Ok "https"
  else if String.prefix "http://" url then Ok "http"
  else if String.prefix "ftp://" url then Ok "ftp"
  else Ok "".

(** [strings.TrimSpace] on texts without blanks. *)
Definition no_blanks (s : string) : string := s.

(** A machine whose only input file holds the document [doc]. *)
Definition files_with (doc : JSON) : Files :=
  {| file_open := fun _ => Ok (Readable (JSONText doc)); file_write := fun _ => None;
     file_yaml := fun _ => Err "no such file"; user_home := Ok "/home/u";
     filepath_Join := fun d f => (d ++ "/" ++ f)%string |}.

(** A machine like [host0] on which no file can be created. *)
Definition host_read_only : Host :=
  {| host_loadConfig := Ok cfg0; host_MkdirAll := fun _ => None;
     host_Create := fun _ => Some "read-only file system";
     filepath_Dir := fun _ => "data" |}.

(** The flags of a command on source project [p] and destination project
    [P]. *)
Definition project_flags (p P : string) : Flags :=
  {| isDestination := false; groupID := ""; projectID := p; recursive := false;
     isSource := false; destinationGroupID := ""; destinationProjectID := P |}.

(** The order of the entries as they are. *)
Definition as_listed {A : Type} (l : list A) : list A := l.

(** A project of namespace [ns] as the group listing returns it. *)
Definition namespaced (ns name : string) (id : Z) : list (string * JSON) :=
  [("id", JNum id); ("name", JStr name); ("namespace", JObj [("name", JStr ns)])].

(** A [mirrorProject] that fails on every project, telling what it was
    asked to mirror. *)
Definition mirror_always_fails (config : Config) (source target : string)
  : M (error * Config) :=
  ret (Some (Sprintf "cannot mirror %s to %s" [source; target]), config).

(** * Properties *)

Unset Implicit Arguments.

(** ** Laws of the monad of runs *)

Lemma bind_ret : forall (A B : Type) (a : A) (f : A -> M B) p,
  bind (ret a) f p = f a p.
Proof. intros. unfold bind, ret. simpl. destruct (f a p); reflexivity. Qed.

Lemma bind_emit : forall (B : Type) e (f : unit -> M B) p,
  bind (emit e) f p = prepend [e] (f tt p).
Proof. intros. unfold bind, emit, prepend. simpl. destruct (f tt p); reflexivity. Qed.

Lemma bind_Ret : forall (A B : Type) (m : M A) (f : A -> M B) p a ev p',
  m p = {| result := Ret a; events := ev; rest := p' |} ->
  bind m f p = prepend ev (f a p').
Proof. intros. unfold bind, prepend. rewrite H. destruct (f a p'); reflexivity. Qed.

Lemma bind_assoc : forall (A B C : Type) (m : M A) (f : A -> M B) (g : B -> M C) p,
  bind (bind m f) g p = bind m (fun a => bind (f a) g) p.
Proof.
  intros. unfold bind.
  destruct (m p) as [[a| | |] ev p']; try reflexivity.
  destruct (f a p') as [[b| | |] ev' p'']; try reflexivity.
  destruct (g b p'') as [o ev'' p3]. rewrite app_assoc. reflexivity.
Qed.

Lemma prepend_nil : forall (A : Type) (r : Run A), prepend [] r = r.
Proof. intros. destruct r; reflexivity. Qed.

Lemma events_bind : forall (A B : Type) (m : M A) (f : A -> M B) p,
  events (bind m f p) =
  events (m p) ++ match result (m p) with
                  | Ret a => events (f a (rest (m p)))
                  | _ => []
                  end.
Proof.
  intros. unfold bind.
  destruct (m p) as [[a| | |] ev p']; simpl; try (rewrite app_nil_r; reflexivity).
  destruct (f a p'); reflexivity.
Qed.

(** ** Invariants of the emitted events *)

Lemma emits_ret : forall (A : Type) P (a : A), emits P (ret a).
Proof. intros A P a p. constructor. Qed.

Lemma emits_panic : forall (A : Type) P msg, emits P (@panic A msg).
Proof. intros A P msg p. constructor. Qed.

Lemma emits_out_of_fuel : forall (A : Type) P, emits P (@out_of_fuel A).
Proof. intros A P p. constructor. Qed.

Lemma emits_emit : forall (P : Event -> Prop) e, P e -> emits P (emit e).
Proof. intros P e H p. simpl. constructor; [assumption | constructor]. Qed.

Lemma emits_bind : forall (A B : Type) P (m : M A) (f : A -> M B),
  emits P m -> (forall a, emits P (f a)) -> emits P (bind m f).
Proof.
  intros A B P m f Hm Hf p. rewrite events_bind. apply Forall_app. split.
  - apply Hm.
  - destruct (result (m p)); try constructor. apply Hf.
Qed.

Lemma emits_client_Do : forall (P : Event -> Prop) c req,
  (forall a, P (Sent c req a)) -> emits P (client_Do c req).
Proof.
  intros P c req H [|a p]; simpl.
  - constructor.
  - constructor; [apply H | constructor].
Qed.

(** One step of an invariant proof: split the computation at its head. *)
Ltac emits_step :=
  match goal with
  | |- emits _ (bind _ _) => apply emits_bind; [| intros ?]
  | |- emits _ (ret _) => apply emits_ret
  | |- emits _ (panic _) => apply emits_panic
  | |- emits _ out_of_fuel => apply emits_out_of_fuel
  | |- emits _ (client_Do _ _) => apply emits_client_Do; intros ?
  | |- emits _ (emit _) => apply emits_emit
  | |- emits _ (log_Printf _ _) => apply emits_emit
  | |- emits _ (log_Println _) => apply emits_emit
  | |- emits _ (fmt_Printf _ _) => apply emits_emit
  | |- emits _ (time_Sleep _) => apply emits_emit
  | |- emits _ (assert_string ?v) => destruct v; simpl
  | |- emits _ (assert_float64 ?v) => destruct v; simpl
  | |- emits _ (match (if ?b then _ else _) with _ => _ end) => destruct b
  | |- emits _ (match ?x with _ => _ end) => destruct x
  | |- emits _ (let _ := _ in _) => cbv zeta
  end.

Lemma emits_weaken : forall (A : Type) (P Q : Event -> Prop) (m : M A),
  (forall e, P e -> Q e) -> emits P m -> emits Q m.
Proof. intros A P Q m HPQ Hm p. eapply Forall_impl; [exact HPQ | apply Hm]. Qed.

Lemma fetch_event_skips : forall e, fetch_event e -> skips_verification e.
Proof. intros [c q a| | | |] H; simpl in *; tauto. Qed.

Lemma create_event_skips : forall e, create_event e -> skips_verification e.
Proof. intros [c q a| | | |] H; simpl in *; tauto. Qed.

Lemma phased_fetch : forall (A : Type) (m : M A), emits fetch_event m -> phased m.
Proof.
  intros A m Hm p. exists (events (m p)), []. rewrite app_nil_r.
  repeat split; [apply Hm | constructor].
Qed.

Lemma phased_create : forall (A : Type) (m : M A), emits create_event m -> phased m.
Proof.
  intros A m Hm p. exists [], (events (m p)).
  repeat split; [constructor | apply Hm].
Qed.

Lemma phased_bind_fetch : forall (A B : Type) (m : M A) (f : A -> M B),
  emits fetch_event m -> (forall a, phased (f a)) -> phased (bind m f).
Proof.
  intros A B m f Hm Hf p. rewrite events_bind.
  destruct (result (m p)) as [a| | |].
  - destruct (Hf a (rest (m p))) as (fetched & written & E & Hfetched & Hwritten).
    exists (events (m p) ++ fetched), written. rewrite E, app_assoc.
    repeat split; [apply Forall_app; split; [apply Hm | exact Hfetched] | exact Hwritten].
  - exists (events (m p)), []. repeat split; [apply Hm | constructor].
  - exists (events (m p)), []. repeat split; [apply Hm | constructor].
  - exists (events (m p)), []. repeat split; [apply Hm | constructor].
Qed.

Lemma phased_skips : forall (A : Type) (m : M A), phased m -> emits skips_verification m.
Proof.
  intros A m Hm p. destruct (Hm p) as (fetched & written & E & Hf & Hw).
  rewrite E. apply Forall_app. split.
  - eapply Forall_impl; [exact fetch_event_skips | exact Hf].
  - eapply Forall_impl; [exact create_event_skips | exact Hw].
Qed.

Section Invariants.

Variable url_Parse_ok : string -> bool.
Variable flags : Flags.
Variable host : Host.
Variable range_order :
  list (string * list (string * GoVal)) -> list (string * list (string * GoVal)).

Ltac emits_auto :=
  repeat (first [ assumption | emits_step ]); try exact I; try (split; reflexivity).

Lemma getProjectsForGroup_fetches : forall config gid,
  emits fetch_event (getProjectsForGroup url_Parse_ok flags config gid).
Proof. intros. unfold getProjectsForGroup, http_NewRequest. emits_auto. Qed.

Lemma getVariablesForGroup_fetches : forall config gid,
  emits fetch_event (getVariablesForGroup url_Parse_ok flags config gid).
Proof. intros. unfold getVariablesForGroup, http_NewRequest. emits_auto. Qed.

Lemma getVariablesForProject_fetches : forall config pid,
  emits fetch_event (getVariablesForProject url_Parse_ok flags config pid).
Proof. intros. unfold getVariablesForProject, http_NewRequest. emits_auto. Qed.

Lemma getAllVariablesForGroupProjects_fetches : forall config gid,
  emits fetch_event (getAllVariablesForGroupProjects url_Parse_ok flags config gid).
Proof.
  intros. unfold getAllVariablesForGroupProjects.
  apply emits_bind; [apply getProjectsForGroup_fetches |].
  intros projects. generalize (@nil (string * list (string * GoVal))).
  induction projects as [|project projects IH]; intros acc; simpl.
  - apply emits_ret.
  - apply emits_bind; [emits_auto | intros f].
    apply emits_bind; [emits_auto | intros name].
    apply emits_bind; [apply getVariablesForProject_fetches | intros vars].
    apply IH.
Qed.

Lemma fetchAllProjects_fetches : forall fuel config,
  emits fetch_event (fetchAllProjects url_Parse_ok flags fuel config).
Proof.
  intros. unfold fetchAllProjects.
  generalize (@nil gomap) 1.
  generalize (if isSource flags then SourceAccessToken config
              else DestinationAccessToken config).
  generalize (if isSource flags then SourceBaseURL config
              else DestinationBaseURL config).
  induction fuel as [|fuel IH]; intros baseUrl tok acc page; simpl.
  - apply emits_out_of_fuel.
  - unfold http_NewRequest. emits_auto. apply IH.
Qed.

Lemma findProjectIDByExactName_silent : forall P projects name,
  emits P (findProjectIDByExactName projects name).
Proof.
  intros P projects name. induction projects as [|project projects IH]; simpl.
  - apply emits_ret.
  - apply emits_bind; [emits_auto | intros s].
    destruct (String.eqb name s); [emits_auto | apply IH].
Qed.

Lemma makeGitLabAPIRequest_creates : forall url token payload,
  emits create_event (makeGitLabAPIRequest url_Parse_ok "POST" url token payload).
Proof. intros. unfold makeGitLabAPIRequest, http_NewRequest. emits_auto. Qed.

Lemma makeGitLabAPIRequest_skips : forall method url token payload,
  emits skips_verification (makeGitLabAPIRequest url_Parse_ok method url token payload).
Proof. intros. unfold makeGitLabAPIRequest, http_NewRequest. emits_auto. Qed.

Lemma createVariablesForProject_creates : forall config pid variables,
  emits create_event (createVariablesForProject url_Parse_ok flags config pid variables).
Proof.
  intros. unfold createVariablesForProject.
  induction variables as [|v variables IH]; simpl.
  - apply emits_ret.
  - destruct (Marshal v).
    + apply emits_bind; [apply makeGitLabAPIRequest_creates | intros err].
      apply emits_bind; [emits_auto | intros _; apply IH].
    + apply emits_bind; [emits_auto | intros _; apply IH].
Qed.

Lemma createVariablesForGroup_creates : forall config gid variables,
  emits create_event (createVariablesForGroup url_Parse_ok flags config gid variables).
Proof.
  intros. unfold createVariablesForGroup.
  induction variables as [|v variables IH]; simpl.
  - apply emits_ret.
  - destruct (Marshal v).
    + apply emits_bind; [apply makeGitLabAPIRequest_creates | intros err].
      apply emits_bind; [emits_auto | intros _; apply IH].
    + apply emits_bind; [emits_auto | intros _; apply IH].
Qed.

Lemma migrateVariables_range_creates : forall config destProjects entries,
  emits create_event
    (migrateVariables_range url_Parse_ok flags config destProjects entries).
Proof.
  intros. induction entries as [|[sid projectData] entries IH]; simpl.
  - apply emits_ret.
  - destruct (index (Some projectData) "project_name");
      try (apply emits_bind; [emits_auto | intros _; apply IH]).
    apply emits_bind; [apply findProjectIDByExactName_silent | intros d].
    destruct (d =? 0).
    + apply emits_bind; [emits_auto | intros _; apply IH].
    + destruct (index (Some projectData) "variables");
        try (apply emits_bind; [emits_auto | intros _; apply IH]).
      apply emits_bind; [emits_auto | intros _].
      apply emits_bind; [apply createVariablesForProject_creates | intros _; apply IH].
Qed.

Lemma saveOutputToFile_fetches : forall data path,
  emits fetch_event (saveOutputToFile host data path).
Proof. intros. unfold saveOutputToFile. emits_auto. Qed.

(** A run of [migrate variables] fetches, then writes. *)
Lemma migrateVariablesCmd_phased : forall fuel,
  phased (migrateVariablesCmd url_Parse_ok flags host range_order fuel).
Proof.
  intros. unfold migrateVariablesCmd.
  repeat first
    [ apply phased_bind_fetch;
      [ solve [ repeat first [ apply getAllVariablesForGroupProjects_fetches
                             | apply getVariablesForGroup_fetches
                             | apply getVariablesForProject_fetches
                             | apply saveOutputToFile_fetches
                             | apply fetchAllProjects_fetches
                             | emits_step ]; try exact I ]
      | intros ? ]
    | apply phased_create;
      solve [ repeat first [ apply migrateVariables_range_creates
                           | apply createVariablesForGroup_creates
                           | apply createVariablesForProject_creates
                           | emits_step ]; try exact I ]
    | apply phased_fetch; solve [emits_auto]
    | match goal with
      | |- phased (match ?x with _ => _ end) => destruct x
      | |- phased (let _ := _ in _) => cbv zeta
      end ].
Qed.

End Invariants.

(** ** Transport: certificate verification *)

Lemma executeGitLabAPIRequest_emits :
  forall (P : Event -> Prop) url_ok baseURL token resource,
    (forall a, P (Sent {| ClientTransport := None; ClientTimeout := 30 * Second |}
                    (listing_request baseURL token resource) a)) ->
    (forall format args, P (Logged format args)) ->
    (forall d, P (Slept d)) ->
    emits P (executeGitLabAPIRequest url_ok baseURL token resource).
Proof.
  intros P url_ok baseURL token resource HSent HLogged HSlept.
  unfold executeGitLabAPIRequest.
  generalize 0. generalize (Z.to_nat maxRetries).
  induction n as [|left IH]; intros retry; cbn [executeGitLabAPIRequest_for].
  - repeat emits_step; apply HLogged.
  - cbv zeta. unfold http_NewRequest.
    repeat first [ apply IH | apply HLogged | apply HSlept | apply HSent | emits_step ].
Qed.

Lemma fetchGroupProjects_checks : forall url_ok fuel config gid fromSource,
  emits checks_certificate (fetchGroupProjects url_ok fuel config gid fromSource).
Proof.
  intros. unfold fetchGroupProjects.
  generalize (@nil gomap) 1.
  generalize (if fromSource then SourceAccessToken config
              else DestinationAccessToken config).
  generalize (if fromSource then SourceBaseURL config else DestinationBaseURL config).
  induction fuel as [|fuel IH]; intros baseURL tok acc page; simpl.
  - apply emits_out_of_fuel.
  - unfold http_NewRequest.
    repeat first [ apply IH | emits_step ]; try exact I; reflexivity.
Qed.

(** C10 as stated fails on the code: not every client of the project
    fetches skips verification. [get projects] without [--group] lists the
    projects through [executeGitLabAPIRequest], which builds a plain
    [http.Client]: its request is checked against the server
    certificate. *)
Lemma get_projects_verifies_certificate :
  let flags := {| isDestination := false; groupID := ""; projectID := ""; recursive := false;
                  isSource := false; destinationGroupID := ""; destinationProjectID := "" |} in
  let a := answer 200 "200 OK" (JArr [JObj [("id", JNum 1); ("name", JStr "api")]]) in
  let r := getProjectsCmd all_urls_parse flags host0 "" [a] in
  exists c q,
    In (Sent c q a) (events r) /\
    URL q = "https://src/api/v4/projects?per_page=100" /\
    verifies_certificate c = true /\
    ~ skips_verification (Sent c q a).
Proof.
  cbv zeta. eexists _, _. split; [left; reflexivity |].
  split; [reflexivity |]. split; [reflexivity |].
  cbn. discriminate.
Qed.

(** C10, corrected. The default configuration verifies certificates
    ([SkipTLSVerification] is false) and [CreateHTTPClient] follows the
    configuration it is given. The five call sites of [CreateHTTPClient]
    set [SkipTLSVerification] before building the client: every request
    sent by the group-scoped project fetch, by the variable fetches, by the
    paginated destination listing, by the creation request, by the two
    executors and by a whole run of [migrate variables] goes through a
    client that does not verify the server certificate. The other fetches
    build a plain [http.Client]: every request of
    [executeGitLabAPIRequest] (behind [get projects] without [--group] and
    [get groups]) and of the listing of [mirror] is checked against the
    server certificate. *)
Theorem tls_verification_disabled :
  SkipTLSVerification NewDefaultConfig = false /\
  verifies_certificate (CreateHTTPClient None) = true /\
  (forall c, verifies_certificate (CreateHTTPClient (Some c)) = negb (SkipTLSVerification c)) /\
  (forall url_ok flags config gid,
      emits skips_verification (getProjectsForGroup url_ok flags config gid)) /\
  (forall url_ok flags config gid,
      emits skips_verification (getVariablesForGroup url_ok flags config gid)) /\
  (forall url_ok flags config pid,
      emits skips_verification (getVariablesForProject url_ok flags config pid)) /\
  (forall url_ok flags fuel config,
      emits skips_verification (fetchAllProjects url_ok flags fuel config)) /\
  (forall url_ok method url token payload,
      emits skips_verification (makeGitLabAPIRequest url_ok method url token payload)) /\
  (forall url_ok flags config pid variables,
      emits skips_verification (createVariablesForProject url_ok flags config pid variables)) /\
  (forall url_ok flags config gid variables,
      emits skips_verification (createVariablesForGroup url_ok flags config gid variables)) /\
  (forall url_ok flags host order fuel,
      emits skips_verification (migrateVariablesCmd url_ok flags host order fuel)) /\
  (forall url_ok baseURL token resource,
      emits checks_certificate (executeGitLabAPIRequest url_ok baseURL token resource)) /\
  (forall url_ok fuel config gid fromSource,
      emits checks_certificate (fetchGroupProjects url_ok fuel config gid fromSource)).
Proof.
  repeat split; intros.
  - apply emits_weaken with (1 := fetch_event_skips), getProjectsForGroup_fetches.
  - apply emits_weaken with (1 := fetch_event_skips), getVariablesForGroup_fetches.
  - apply emits_weaken with (1 := fetch_event_skips), getVariablesForProject_fetches.
  - apply emits_weaken with (1 := fetch_event_skips), fetchAllProjects_fetches.
  - apply makeGitLabAPIRequest_skips.
  - apply emits_weaken with (1 := create_event_skips), createVariablesForProject_creates.
  - apply emits_weaken with (1 := create_event_skips), createVariablesForGroup_creates.
  - apply phased_skips, migrateVariablesCmd_phased.
  - apply executeGitLabAPIRequest_emits; intros; exact I || reflexivity.
  - apply fetchGroupProjects_checks.
Qed.

(** ** Entity resolver *)

Lemma findProjectIDByExactName_found :
  forall before p after id sourceName script,
    Forall (fun q => exists s, index q "name" = VString s /\ s <> sourceName) before ->
    index p "name" = VString sourceName ->
    index p "id" = VFloat64 id ->
    - 2 ^ 63 <= id < 2 ^ 63 ->
    findProjectIDByExactName (before ++ p :: after) sourceName script
    = {| result := Ret id; events := []; rest := script |}.
Proof.
  intros before p after id sourceName script Hbefore Hname Hid Hrange.
  induction Hbefore as [|q before [s [Hq Hs]] _ IH]; simpl.
  - rewrite Hname. simpl. rewrite bind_ret, String.eqb_refl, Hid. simpl.
    rewrite bind_ret. unfold ret, int64_of_float64.
    replace ((- 2 ^ 63 <=? id) && (id <? 2 ^ 63)) with true; [reflexivity |].
    symmetry. apply andb_true_intro. split; [apply Z.leb_le | apply Z.ltb_lt]; lia.
  - rewrite Hq. simpl. rewrite bind_ret.
    destruct (String.eqb_spec sourceName s) as [E | _]; [congruence | exact IH].
Qed.

Lemma findProjectIDByExactName_absent :
  forall projects sourceName script,
    Forall (fun q => exists s, index q "name" = VString s /\ s <> sourceName) projects ->
    findProjectIDByExactName projects sourceName script
    = {| result := Ret 0; events := []; rest := script |}.
Proof.
  intros projects sourceName script Hall.
  induction Hall as [|q projects [s [Hq Hs]] _ IH]; simpl.
  - reflexivity.
  - rewrite Hq. simpl. rewrite bind_ret.
    destruct (String.eqb_spec sourceName s) as [E | _]; [congruence | exact IH].
Qed.

(** C3. The resolver walks the collection in order: it returns the id of the
    first record whose name is the source name itself (string equality, so
    case and surrounding blanks count), and 0 when no record has that name.
    It emits nothing and reads no reply. *)
Theorem findProjectIDByExactName_first_exact :
  (forall before p after id sourceName script,
      Forall (fun q => exists s, index q "name" = VString s /\ s <> sourceName) before ->
      index p "name" = VString sourceName ->
      index p "id" = VFloat64 id ->
      - 2 ^ 63 <= id < 2 ^ 63 ->
      findProjectIDByExactName (before ++ p :: after) sourceName script
      = {| result := Ret id; events := []; rest := script |}) /\
  (forall projects sourceName script,
      Forall (fun q => exists s, index q "name" = VString s /\ s <> sourceName) projects ->
      findProjectIDByExactName projects sourceName script
      = {| result := Ret 0; events := []; rest := script |}).
Proof.
  split.
  - exact findProjectIDByExactName_found.
  - exact findProjectIDByExactName_absent.
Qed.

(** Resolving among [api] and [api-v2], in both orders, and with a name
    that differs in case or by a blank. *)
Lemma findProjectIDByExactName_api :
  findProjectIDByExactName [project_record 7 "api"; project_record 8 "api-v2"] "api" []
  = {| result := Ret 7; events := []; rest := [] |} /\
  findProjectIDByExactName [project_record 8 "api-v2"; project_record 7 "api"] "api" []
  = {| result := Ret 7; events := []; rest := [] |} /\
  findProjectIDByExactName [project_record 7 "api"; project_record 8 "api-v2"] "API" []
  = {| result := Ret 0; events := []; rest := [] |} /\
  findProjectIDByExactName [project_record 7 "api"; project_record 8 "api-v2"] " api" []
  = {| result := Ret 0; events := []; rest := [] |}.
Proof.
  split; [| split; [| split]].
  - apply (proj1 findProjectIDByExactName_first_exact
             [] (project_record 7 "api") [project_record 8 "api-v2"] 7 "api" []).
    + constructor.
    + reflexivity.
    + reflexivity.
    + lia.
  - apply (proj1 findProjectIDByExactName_first_exact
             [project_record 8 "api-v2"] (project_record 7 "api") [] 7 "api" []).
    + constructor; [exists "api-v2"; split; [reflexivity | discriminate] | constructor].
    + reflexivity.
    + reflexivity.
    + lia.
  - apply (proj2 findProjectIDByExactName_first_exact).
    repeat constructor; eexists; (split; [reflexivity | discriminate]).
  - apply (proj2 findProjectIDByExactName_first_exact).
    repeat constructor; eexists; (split; [reflexivity | discriminate]).
Defined.

(** ** Single creation request *)

(** C9 as stated fails: a 304 answer is not 2xx, yet the request reports
    success. *)
Lemma makeGitLabAPIRequest_accepts_304 :
  result (makeGitLabAPIRequest all_urls_parse "POST"
            "https://dst/api/v4/projects/11/variables" "dt"
            (JSONText (JObj [("key", JStr "X")]))
            [Answer {| StatusCode := 304; Status := "304 Not Modified";
                       RespBody := Readable (Garbage "") |}])
  = Ret None /\
  ~ (200 <= 304 < 300).
Proof. split; [reflexivity | lia]. Qed.

(** C9, amended. A creation request is sent once: it returns an error
    exactly when the transport fails or the status is 400 or above, and
    it succeeds exactly when a response arrives with a status below 400;
    either way one request is sent and no further reply is read. *)
Theorem makeGitLabAPIRequest_one_attempt :
  forall url_ok method url token payload a later,
    url_ok url = true ->
    let r := makeGitLabAPIRequest url_ok method url token payload (a :: later) in
    let req := {| Method := method; URL := url;
                  Header := [("Content-Type", "application/json"); ("PRIVATE-TOKEN", token)];
                  ReqBody := Some payload |} in
    (exists err, result r = Ret err /\
                 (err = None <-> exists resp, a = Answer resp /\ StatusCode resp < 400)) /\
    events r = [Sent (CreateHTTPClient (Some (set_SkipTLSVerification NewDefaultConfig true)))
                  req a] /\
    rest r = later.
Proof.
  intros url_ok method url token payload a later Hurl.
  unfold makeGitLabAPIRequest, http_NewRequest. rewrite Hurl.
  destruct a as [e | resp]; cbn.
  - repeat split. eexists. split; [reflexivity |].
    split; [discriminate | intros [resp [Ha _]]; discriminate].
  - destruct (Z.leb_spec 400 (StatusCode resp)); cbn.
    + repeat split. eexists. split; [reflexivity |].
      split; [discriminate | intros [resp' [Ha Hlt]]; inversion Ha; subst; lia].
    + repeat split. exists None. split; [reflexivity |].
      split; [intros _; exists resp; split; [reflexivity | lia] | reflexivity].
Qed.

(** A creation answered 201. *)
Lemma makeGitLabAPIRequest_created :
  result (makeGitLabAPIRequest all_urls_parse "POST"
            "https://dst/api/v4/projects/11/variables" "dt"
            (JSONText (JObj [("key", JStr "X")]))
            [answer 201 "201 Created" (JObj [("key", JStr "X")])])
  = Ret None.
Proof.
  destruct (makeGitLabAPIRequest_one_attempt all_urls_parse "POST"
              "https://dst/api/v4/projects/11/variables" "dt"
              (JSONText (JObj [("key", JStr "X")]))
              (answer 201 "201 Created" (JObj [("key", JStr "X")])) []
              eq_refl) as [[err [Hres Hiff]] _].
  rewrite Hres. f_equal. apply Hiff. eexists. split; [reflexivity | simpl; lia].
Defined.

(** ** Retry-wrapped single-page fetch *)

Lemma bind_client_Do : forall (B : Type) c req (f : Result Response -> M B) a p,
  bind (client_Do c req) f (a :: p)
  = prepend [Sent c req a]
      (f (match a with NetError err => Err err | Answer resp => Ok resp end) p).
Proof. intros. apply bind_Ret. reflexivity. Qed.

Lemma timeline_app : forall ev1 ev2, timeline (ev1 ++ ev2) = timeline ev1 ++ timeline ev2.
Proof. intros. apply filter_app. Qed.

(** Push the run through the binds at its head. *)
Ltac run_steps :=
  unfold log_Printf, log_Println, fmt_Printf, time_Sleep;
  repeat first [ rewrite bind_assoc | rewrite bind_ret | rewrite bind_emit
               | rewrite bind_client_Do ].

(** One iteration of the retry loop whose attempt fails. *)
Lemma executeGitLabAPIRequest_for_failed :
  forall url_ok left retry client baseURL token resource a later,
    url_ok (Sprintf "%s/api/v4/%s?per_page=%d" [baseURL; resource; itoa defaultPerPage]) = true ->
    attempt_fails a = true ->
    let req := {| Method := "GET";
                  URL := Sprintf "%s/api/v4/%s?per_page=%d"
                           [baseURL; resource; itoa defaultPerPage];
                  Header := [("PRIVATE-TOKEN", token)]; ReqBody := None |} in
    let pause := if 0 <? retry then [Slept retryDelay] else [] in
    let next :=
      if (retry =? maxRetries - 1)
         && match a with Answer resp => negb (StatusCode resp =? StatusOK)
                       | NetError _ => false end
      then ret VNil later
      else executeGitLabAPIRequest_for url_ok left (retry + 1) client
             baseURL token resource later in
    let r := executeGitLabAPIRequest_for url_ok (S left) retry client baseURL token resource
               (a :: later) in
    result r = result next /\
    timeline (events r) = pause ++ Sent client req a :: timeline (events next) /\
    rest r = rest next.
Proof.
  intros url_ok left retry client baseURL token resource a later Hurl Hfail req pause.
  cbn [executeGitLabAPIRequest_for]. unfold http_NewRequest. rewrite Hurl.
  cbv zeta. subst pause.
  destruct (0 <? retry); run_steps;
    (destruct a as [e | resp];
     [| cbn [attempt_fails] in Hfail;
        destruct (StatusCode resp =? StatusOK); cbn [negb orb] in Hfail;
        [destruct (json_Decode_any (RespBody resp)); [discriminate |] |]]);
    cbn [negb]; rewrite ?andb_false_r, ?andb_true_r;
    try destruct (retry =? maxRetries - 1); run_steps;
    unfold prepend; cbn [result events rest]; rewrite ?timeline_app;
    repeat split.
Qed.

(** One iteration of the retry loop whose attempt answers 200 with a body
    that decodes. *)
Lemma executeGitLabAPIRequest_for_succeeded :
  forall url_ok left retry client baseURL token resource resp v later,
    url_ok (Sprintf "%s/api/v4/%s?per_page=%d" [baseURL; resource; itoa defaultPerPage]) = true ->
    StatusCode resp = StatusOK ->
    json_Decode_any (RespBody resp) = Ok v ->
    let req := {| Method := "GET";
                  URL := Sprintf "%s/api/v4/%s?per_page=%d"
                           [baseURL; resource; itoa defaultPerPage];
                  Header := [("PRIVATE-TOKEN", token)]; ReqBody := None |} in
    let pause := if 0 <? retry then [Slept retryDelay] else [] in
    let r := executeGitLabAPIRequest_for url_ok (S left) retry client baseURL token resource
               (Answer resp :: later) in
    result r = Ret v /\
    timeline (events r) = pause ++ [Sent client req (Answer resp)] /\
    rest r = later.
Proof.
  intros url_ok left retry client baseURL token resource resp v later Hurl Hcode Hbody
         req pause.
  cbn [executeGitLabAPIRequest_for]. unfold http_NewRequest. rewrite Hurl.
  cbv zeta. subst pause.
  destruct (0 <? retry); run_steps; rewrite Hcode, Hbody; cbn [Z.eqb negb StatusOK Pos.eqb];
    unfold prepend; cbn [result events rest ret]; rewrite ?timeline_app;
    repeat split.
Qed.

(** C2 as stated fails: after two failed attempts a third attempt answered
    201 (a 2xx status) with a JSON body is not returned; the fetch gives
    nil. *)
Lemma executeGitLabAPIRequest_rejects_201 :
  let third := answer 201 "201 Created" (JArr [JStr "x"]) in
  json_Decode_any (Readable (JSONText (JArr [JStr "x"]))) = Ok (VSlice [VString "x"]) /\
  200 <= 201 < 300 /\
  result (executeGitLabAPIRequest all_urls_parse "https://src" "st" "projects"
            [NetError "dial tcp: connection refused"; NetError "dial tcp: connection refused";
             third])
  = Ret VNil /\
  VNil <> VSlice [VString "x"].
Proof. repeat split; try lia; discriminate. Qed.

(** C2, amended. An attempt fails on a transport error, on a status other
    than 200, or on a body that does not decode.  After two failed attempts
    a third that answers 200 with a decodable body gives the decoded value;
    after three failed attempts the result is nil and the fourth reply is
    never asked for.  In both cases three requests are sent, and a pause of
    two seconds comes before the second and before the third. *)
Theorem executeGitLabAPIRequest_retry_budget :
  forall url_ok baseURL token resource,
    url_ok (Sprintf "%s/api/v4/%s?per_page=%d" [baseURL; resource; itoa defaultPerPage]) = true ->
    let client := {| ClientTransport := None; ClientTimeout := 30 * Second |} in
    let req := {| Method := "GET";
                  URL := Sprintf "%s/api/v4/%s?per_page=%d"
                           [baseURL; resource; itoa defaultPerPage];
                  Header := [("PRIVATE-TOKEN", token)]; ReqBody := None |} in
    retryDelay = 2 * 1000000000 /\
    (forall a1 a2 resp v later,
        attempt_fails a1 = true -> attempt_fails a2 = true ->
        StatusCode resp = 200 -> json_Decode_any (RespBody resp) = Ok v ->
        let r := executeGitLabAPIRequest url_ok baseURL token resource
                   (a1 :: a2 :: Answer resp :: later) in
        result r = Ret v /\
        timeline (events r)
        = [Sent client req a1; Slept retryDelay; Sent client req a2; Slept retryDelay;
           Sent client req (Answer resp)] /\
        rest r = later) /\
    (forall a1 a2 a3 later,
        attempt_fails a1 = true -> attempt_fails a2 = true -> attempt_fails a3 = true ->
        let r := executeGitLabAPIRequest url_ok baseURL token resource
                   (a1 :: a2 :: a3 :: later) in
        result r = Ret VNil /\
        timeline (events r)
        = [Sent client req a1; Slept retryDelay; Sent client req a2; Slept retryDelay;
           Sent client req a3] /\
        rest r = later).
Proof.
  intros url_ok baseURL token resource Hurl. cbv zeta.
  split; [reflexivity |]. split.
  - intros a1 a2 resp v later H1 H2 Hcode Hbody.
    unfold executeGitLabAPIRequest. change (Z.to_nat maxRetries) with 3%nat.
    set (client := {| ClientTransport := None; ClientTimeout := 30 * Second |}).
    pose proof (executeGitLabAPIRequest_for_failed url_ok 2 0 client baseURL token resource
                  a1 (a2 :: Answer resp :: later) Hurl H1) as (R1 & T1 & P1).
    pose proof (executeGitLabAPIRequest_for_failed url_ok 1 1 client baseURL token resource
                  a2 (Answer resp :: later) Hurl H2) as (R2 & T2 & P2).
    pose proof (executeGitLabAPIRequest_for_succeeded url_ok 0 2 client baseURL token
                  resource resp v later Hurl Hcode Hbody) as (R3 & T3 & P3).
    cbn [Z.eqb Z.ltb Z.compare Z.sub Z.add Pos.eqb andb maxRetries Z.opp Z.pos_sub
         Pos.compare Pos.compare_cont Pos.add Pos.succ] in R1, T1, P1, R2, T2, P2, R3, T3, P3.
    rewrite R1, T1, P1, R2, T2, P2, R3, T3, P3. repeat split.
  - intros a1 a2 a3 later H1 H2 H3.
    unfold executeGitLabAPIRequest. change (Z.to_nat maxRetries) with 3%nat.
    set (client := {| ClientTransport := None; ClientTimeout := 30 * Second |}).
    pose proof (executeGitLabAPIRequest_for_failed url_ok 2 0 client baseURL token resource
                  a1 (a2 :: a3 :: later) Hurl H1) as (R1 & T1 & P1).
    pose proof (executeGitLabAPIRequest_for_failed url_ok 1 1 client baseURL token resource
                  a2 (a3 :: later) Hurl H2) as (R2 & T2 & P2).
    pose proof (executeGitLabAPIRequest_for_failed url_ok 0 2 client baseURL token resource
                  a3 later Hurl H3) as (R3 & T3 & P3).
    cbn [Z.eqb Z.ltb Z.compare Z.sub Z.add Pos.eqb andb maxRetries Z.opp Z.pos_sub
         Pos.compare Pos.compare_cont Pos.add Pos.succ] in R1, T1, P1, R2, T2, P2, R3, T3, P3.
    rewrite R1, T1, P1, R2, T2, P2, R3, T3, P3.
    destruct (match a3 with
              | NetError _ => false
              | Answer resp => negb (StatusCode resp =? StatusOK)
              end); repeat split.
Qed.

(** A timeout, a 503, then a 200; and a timeout, a 503, then a page that is
    not JSON. *)
Lemma executeGitLabAPIRequest_third_attempt :
  let flaky := [NetError "dial tcp: i/o timeout";
                answer 503 "503 Service Unavailable" JNull;
                answer 200 "200 OK" (JArr [JStr "x"]);
                answer 200 "200 OK" (JArr [JStr "unused"])] in
  let down := [NetError "dial tcp: i/o timeout";
               answer 503 "503 Service Unavailable" JNull;
               Answer {| StatusCode := 200; Status := "200 OK";
                         RespBody := Readable (Garbage "<html>") |};
               answer 200 "200 OK" (JArr [JStr "unused"])] in
  let r := executeGitLabAPIRequest all_urls_parse "https://src" "st" "projects" flaky in
  let r' := executeGitLabAPIRequest all_urls_parse "https://src" "st" "projects" down in
  (result r = Ret (VSlice [VString "x"]) /\
   rest r = [answer 200 "200 OK" (JArr [JStr "unused"])]) /\
  (result r' = Ret VNil /\
   rest r' = [answer 200 "200 OK" (JArr [JStr "unused"])]).
Proof.
  destruct (executeGitLabAPIRequest_retry_budget all_urls_parse "https://src" "st"
              "projects" eq_refl) as (_ & Hgood & Hbad).
  cbv zeta. split.
  - destruct (Hgood (NetError "dial tcp: i/o timeout")
                (answer 503 "503 Service Unavailable" JNull)
                {| StatusCode := 200; Status := "200 OK";
                   RespBody := Readable (JSONText (JArr [JStr "x"])) |}
                (VSlice [VString "x"])
                [answer 200 "200 OK" (JArr [JStr "unused"])]
                eq_refl eq_refl eq_refl eq_refl) as (R & _ & P).
    split; [exact R | exact P].
  - destruct (Hbad (NetError "dial tcp: i/o timeout")
                (answer 503 "503 Service Unavailable" JNull)
                (Answer {| StatusCode := 200; Status := "200 OK";
                           RespBody := Readable (Garbage "<html>") |})
                [answer 200 "200 OK" (JArr [JStr "unused"])]
                eq_refl eq_refl eq_refl) as (R & _ & P).
    split; [exact R | exact P].
Defined.

(** ** Transfer executor *)

Lemma makeGitLabAPIRequest_run : forall url_ok url token payload a later,
  url_ok url = true ->
  makeGitLabAPIRequest url_ok "POST" url token (JSONText payload) (a :: later)
  = {| result := Ret (creation_error a);
       events := [Sent (CreateHTTPClient (Some (set_SkipTLSVerification NewDefaultConfig true)))
                    (creation_request url token payload) a];
       rest := later |}.
Proof.
  intros url_ok url token payload a later Hurl.
  unfold makeGitLabAPIRequest, http_NewRequest. rewrite Hurl. cbv zeta.
  rewrite bind_client_Do. destruct a as [e | resp]; cbn [creation_error].
  - reflexivity.
  - destruct (400 <=? StatusCode resp); reflexivity.
Qed.

Lemma requests_app : forall ev1 ev2, requests (ev1 ++ ev2) = requests ev1 ++ requests ev2.
Proof. intros. apply flat_map_app. Qed.

Lemma answers_app : forall ev1 ev2, answers (ev1 ++ ev2) = answers ev1 ++ answers ev2.
Proof. intros. apply flat_map_app. Qed.

Lemma reports_app : forall ev1 ev2, reports (ev1 ++ ev2) = reports ev1 ++ reports ev2.
Proof. intros. apply flat_map_app. Qed.

Lemma payloads_length : forall variables,
  (List.length (payloads variables) <= List.length variables)%nat.
Proof.
  induction variables as [|v variables IH]; simpl; [lia |].
  unfold payloads in *. simpl. destruct (Marshal v); simpl; lia.
Qed.

Lemma createVariablesForProject_range_continues : forall url_ok pid url token,
  url_ok url = true ->
  continues_past_failures (createVariablesForProject_range url_ok pid url token) url token.
Proof.
  intros url_ok pid url token Hurl variables.
  induction variables as [|v variables IH]; intros replies later Hlen.
  - destruct replies; [| discriminate]. repeat split.
  - cbn [createVariablesForProject_range outcomes]. unfold payloads in *.
    cbn [flat_map] in *. destruct (Marshal v) as [j | e].
    + destruct replies as [|a replies]; [discriminate |].
      cbn [List.length app] in Hlen. injection Hlen as Hlen.
      specialize (IH replies later Hlen). cbv zeta in IH.
      destruct IH as (R & P & Q & A & O).
      cbv zeta. cbn [app map].
      erewrite bind_Ret by (apply makeGitLabAPIRequest_run; exact Hurl).
      unfold accepted at 1.
      destruct (creation_error a); run_steps;
        unfold prepend; cbn [result events rest];
        rewrite !requests_app, !answers_app, !reports_app, R, P, Q, A, O; cbn;
        repeat split.
    + specialize (IH replies later Hlen). cbv zeta in IH.
      destruct IH as (R & P & Q & A & O).
      run_steps. unfold prepend; cbn [result events rest].
      rewrite !requests_app, !answers_app, !reports_app, R, P, Q, A, O. cbn.
      repeat split.
Qed.

Lemma createVariablesForGroup_range_continues : forall url_ok gid url token,
  url_ok url = true ->
  continues_past_failures (createVariablesForGroup_range url_ok gid url token) url token.
Proof.
  intros url_ok gid url token Hurl variables.
  induction variables as [|v variables IH]; intros replies later Hlen.
  - destruct replies; [| discriminate]. repeat split.
  - cbn [createVariablesForGroup_range outcomes]. unfold payloads in *.
    cbn [flat_map] in *. destruct (Marshal v) as [j | e].
    + destruct replies as [|a replies]; [discriminate |].
      cbn [List.length app] in Hlen. injection Hlen as Hlen.
      specialize (IH replies later Hlen). cbv zeta in IH.
      destruct IH as (R & P & Q & A & O).
      cbv zeta. cbn [app map].
      erewrite bind_Ret by (apply makeGitLabAPIRequest_run; exact Hurl).
      unfold accepted at 1.
      destruct (creation_error a); run_steps;
        unfold prepend; cbn [result events rest];
        rewrite !requests_app, !answers_app, !reports_app, R, P, Q, A, O; cbn;
        repeat split.
    + specialize (IH replies later Hlen). cbv zeta in IH.
      destruct IH as (R & P & Q & A & O).
      run_steps. unfold prepend; cbn [result events rest].
      rewrite !requests_app, !answers_app, !reports_app, R, P, Q, A, O. cbn.
      repeat split.
Qed.

(** C5. Both executors post every record that has an encoding, one request
    per record and in order, whatever the replies to the earlier records
    were (transport error, error status) and past records that fail to
    encode. Every record gets its own report line: a failure is reported
    for the record that could not be encoded, for the one whose request got
    no response and for the one answered with an error status, a success
    for every other. The run returns normally and sends nothing but these
    posts, so nothing is rolled back. *)
Theorem createVariables_continue_past_failures :
  forall url_ok flags config id,
    let baseUrl :=
      if isSource flags then SourceBaseURL config else DestinationBaseURL config in
    let token :=
      if isSource flags then SourceAccessToken config else DestinationAccessToken config in
    (url_ok (Sprintf "%s/api/v4/projects/%s/variables" [baseUrl; id]) = true ->
     continues_past_failures (createVariablesForProject url_ok flags config id)
       (Sprintf "%s/api/v4/projects/%s/variables" [baseUrl; id]) token) /\
    (url_ok (Sprintf "%s/api/v4/groups/%s/variables" [baseUrl; id]) = true ->
     continues_past_failures (createVariablesForGroup url_ok flags config id)
       (Sprintf "%s/api/v4/groups/%s/variables" [baseUrl; id]) token).
Proof.
  intros url_ok flags config id baseUrl token. split; intros Hurl.
  - apply createVariablesForProject_range_continues. exact Hurl.
  - apply createVariablesForGroup_range_continues. exact Hurl.
Qed.

(** Five records, the third of which is answered 422; and three records,
    the second of which cannot be encoded. *)
Lemma five_records_third_fails :
  (let r := createVariablesForProject all_urls_parse fl0 cfg0 "11" five_variables
              third_fails in
   result r = Ret tt /\
   requests (events r)
   = map (creation_request "https://dst/api/v4/projects/11/variables" "dt")
       [JObj [("key", JStr "V1")]; JObj [("key", JStr "V2")]; JObj [("key", JStr "V3")];
        JObj [("key", JStr "V4")]; JObj [("key", JStr "V5")]] /\
   reports (events r) = [true; true; false; true; true] /\
   rest r = []) /\
  (let r := createVariablesForGroup all_urls_parse fl0 cfg0 "9"
              [VMap (variable "V1"); VUnsupported; VMap (variable "V3")]
              [created; created] in
   result r = Ret tt /\
   requests (events r)
   = map (creation_request "https://dst/api/v4/groups/9/variables" "dt")
       [JObj [("key", JStr "V1")]; JObj [("key", JStr "V3")]] /\
   reports (events r) = [true; false; true] /\
   rest r = []).
Proof.
  split.
  - destruct (proj1 (createVariables_continue_past_failures all_urls_parse fl0 cfg0 "11")
                eq_refl five_variables third_fails [] eq_refl)
      as (R & P & Q & A & O).
    cbv zeta. split; [exact R |]. split; [exact Q |]. split; [exact O | exact P].
  - destruct (proj2 (createVariables_continue_past_failures all_urls_parse fl0 cfg0 "9")
                eq_refl [VMap (variable "V1"); VUnsupported; VMap (variable "V3")]
                [created; created] [] eq_refl)
      as (R & P & Q & A & O).
    cbv zeta. split; [exact R |]. split; [exact Q |]. split; [exact O | exact P].
Defined.

(** ** Paginated fetcher *)

Lemma decode_maps_objects : forall page,
  decode_maps (map JObj page) = Ok (map decode_record page).
Proof.
  induction page as [|fields page IH]; simpl; [reflexivity |].
  rewrite IH. reflexivity.
Qed.

Lemma fetchAllProjects_for_pages :
  forall url_ok flags baseUrl token pages fuel page acc later,
    (forall n, url_ok (Sprintf "%s/api/v4/groups/%s/projects?per_page=100&page=%d"
                         [baseUrl; destinationGroupID flags; itoa n]) = true) ->
    Forall (fun pg => pg <> []) pages ->
    (List.length pages < fuel)%nat ->
    fetchAllProjects_for url_ok flags fuel baseUrl token page acc
      (map page_reply pages ++ page_reply [] :: later)
    = {| result := Ret (Ok (acc ++ List.concat (map (map decode_record) pages)));
         events :=
           page_exchanges
             (CreateHTTPClient (Some (set_SkipTLSVerification NewDefaultConfig true)))
             (fun n => {| Method := "GET";
                          URL := Sprintf "%s/api/v4/groups/%s/projects?per_page=100&page=%d"
                                   [baseUrl; destinationGroupID flags; itoa n];
                          Header := [("PRIVATE-TOKEN", token)]; ReqBody := None |})
             page (pages ++ [[]]);
         rest := later |}.
Proof.
  intros url_ok flags baseUrl token pages.
  induction pages as [|pg pages IH]; intros fuel page acc later Hurl Hne Hfuel.
  - destruct fuel as [|fuel]; [simpl in Hfuel; lia |].
    cbn [fetchAllProjects_for map app]. unfold http_NewRequest. rewrite Hurl. cbv zeta.
    unfold page_reply at 1. rewrite bind_client_Do.
    cbn. rewrite app_nil_r. reflexivity.
  - destruct fuel as [|fuel]; [simpl in Hfuel; lia |].
    inversion Hne as [|? ? Hpg Hne']; subst.
    cbn [fetchAllProjects_for map app]. unfold http_NewRequest. rewrite Hurl. cbv zeta.
    unfold page_reply at 1. rewrite bind_client_Do.
    cbn [StatusCode RespBody io_ReadAll json_Unmarshal_maps negb Z.eqb StatusOK Pos.eqb].
    rewrite decode_maps_objects.
    destruct pg as [|fields pg]; [congruence |].
    cbn [map List.length Nat.eqb].
    rewrite IH; [| exact Hurl | exact Hne' | simpl in Hfuel; lia].
    unfold prepend. cbn [result events rest app List.concat map page_exchanges].
    rewrite <- app_assoc. reflexivity.
Qed.

Lemma fetchGroupProjects_for_pages :
  forall url_ok baseURL token gid pages fuel page acc later,
    (forall n, url_ok (Sprintf
                         "%s/api/v4/groups/%s/projects?per_page=100&page=%d&include_subgroups=true"
                         [baseURL; gid; itoa n]) = true) ->
    Forall (fun pg => pg <> []) pages ->
    (List.length pages < fuel)%nat ->
    fetchGroupProjects_for url_ok fuel baseURL token gid page acc
      (map page_reply pages ++ page_reply [] :: later)
    = {| result := Ret (Ok (acc ++ List.concat (map (map decode_record) pages)));
         events :=
           page_exchanges
             {| ClientTransport := None; ClientTimeout := 0 |}
             (fun n => {| Method := "GET";
                          URL := Sprintf
                                   "%s/api/v4/groups/%s/projects?per_page=100&page=%d&include_subgroups=true"
                                   [baseURL; gid; itoa n];
                          Header := [("PRIVATE-TOKEN", token)]; ReqBody := None |})
             page (pages ++ [[]]);
         rest := later |}.
Proof.
  intros url_ok baseURL token gid pages.
  induction pages as [|pg pages IH]; intros fuel page acc later Hurl Hne Hfuel.
  - destruct fuel as [|fuel]; [simpl in Hfuel; lia |].
    cbn [fetchGroupProjects_for map app]. unfold http_NewRequest. rewrite Hurl. cbv zeta.
    unfold page_reply at 1. rewrite bind_client_Do.
    cbn. rewrite app_nil_r. reflexivity.
  - destruct fuel as [|fuel]; [simpl in Hfuel; lia |].
    inversion Hne as [|? ? Hpg Hne']; subst.
    cbn [fetchGroupProjects_for map app]. unfold http_NewRequest. rewrite Hurl. cbv zeta.
    unfold page_reply at 1. rewrite bind_client_Do.
    cbn [StatusCode RespBody json_Decode_maps json_Unmarshal_maps negb Z.eqb StatusOK
         Pos.eqb].
    rewrite decode_maps_objects.
    destruct pg as [|fields pg]; [congruence |].
    cbn [map List.length Nat.eqb].
    rewrite IH; [| exact Hurl | exact Hne' | simpl in Hfuel; lia].
    unfold prepend. cbn [result events rest app List.concat map page_exchanges].
    rewrite <- app_assoc. reflexivity.
Qed.

Lemma page_exchanges_requests : forall client request first pages,
  List.length (requests (page_exchanges client request first pages)) = List.length pages.
Proof.
  intros client request first pages. revert first.
  induction pages as [|pg pages IH]; intros first; simpl; [reflexivity |].
  rewrite IH. reflexivity.
Qed.

(** C1. Whatever non-empty pages the endpoint serves before its first empty
    page, both paginated listings ask for [per_page=100] pages numbered 1,
    2, 3, ... one request per page, return the records of the non-empty
    pages in order, and stop at the empty page: one request more than there
    are non-empty pages, and the replies after the empty page are left
    unread. *)
Theorem paginated_fetch_until_empty_page :
  forall url_ok flags config gid (fromSource : bool) pages fuel later,
    Forall (fun pg => pg <> []) pages ->
    (List.length pages < fuel)%nat ->
    let script := map page_reply pages ++ page_reply [] :: later in
    let records := List.concat (map (map decode_record) pages) in
    ((forall n, url_ok (Sprintf "%s/api/v4/groups/%s/projects?per_page=100&page=%d"
                          [if isSource flags then SourceBaseURL config
                           else DestinationBaseURL config;
                           destinationGroupID flags; itoa n]) = true) ->
     let r := fetchAllProjects url_ok flags fuel config script in
     result r = Ret (Ok records) /\
     events r
     = page_exchanges
         (CreateHTTPClient (Some (set_SkipTLSVerification NewDefaultConfig true)))
         (fun n => {| Method := "GET";
                      URL := Sprintf "%s/api/v4/groups/%s/projects?per_page=100&page=%d"
                               [if isSource flags then SourceBaseURL config
                                else DestinationBaseURL config;
                                destinationGroupID flags; itoa n];
                      Header := [("PRIVATE-TOKEN",
                                  if isSource flags then SourceAccessToken config
                                  else DestinationAccessToken config)];
                      ReqBody := None |})
         1 (pages ++ [[]]) /\
     List.length (requests (events r)) = S (List.length pages) /\
     rest r = later) /\
    ((forall n, url_ok (Sprintf
                          "%s/api/v4/groups/%s/projects?per_page=100&page=%d&include_subgroups=true"
                          [if fromSource then SourceBaseURL config
                           else DestinationBaseURL config; gid; itoa n]) = true) ->
     let r := fetchGroupProjects url_ok fuel config gid fromSource script in
     result r = Ret (Ok records) /\
     events r
     = page_exchanges
         {| ClientTransport := None; ClientTimeout := 0 |}
         (fun n => {| Method := "GET";
                      URL := Sprintf
                               "%s/api/v4/groups/%s/projects?per_page=100&page=%d&include_subgroups=true"
                               [if fromSource then SourceBaseURL config
                                else DestinationBaseURL config; gid; itoa n];
                      Header := [("PRIVATE-TOKEN",
                                  if fromSource then SourceAccessToken config
                                  else DestinationAccessToken config)];
                      ReqBody := None |})
         1 (pages ++ [[]]) /\
     List.length (requests (events r)) = S (List.length pages) /\
     rest r = later).
Proof.
  intros url_ok flags config gid fromSource pages fuel later Hne Hfuel script records.
  split; intros Hurl r; subst r script records.
  - unfold fetchAllProjects.
    rewrite fetchAllProjects_for_pages by assumption.
    cbn [result events rest app]. repeat split.
    rewrite page_exchanges_requests, List.length_app. simpl. lia.
  - unfold fetchGroupProjects.
    rewrite fetchGroupProjects_for_pages by assumption.
    cbn [result events rest app]. repeat split.
    rewrite page_exchanges_requests, List.length_app. simpl. lia.
Qed.

(** Pages of 100, 100, 37 and 0 records: 237 records after 4 requests, the
    reply after the empty page left unread. *)
Lemma pages_100_100_37 :
  let pages := [numbered_page 1 100; numbered_page 101 100; numbered_page 201 37] in
  let extra := page_reply (numbered_page 238 5) in
  let r := fetchAllProjects all_urls_parse fl0 4 cfg0
             (map page_reply pages ++ [page_reply []; extra]) in
  result r = Ret (Ok (map decode_record (numbered_page 1 237))) /\
  List.length (map decode_record (numbered_page 1 237)) = 237%nat /\
  map URL (requests (events r))
  = ["https://dst/api/v4/groups/9/projects?per_page=100&page=1";
     "https://dst/api/v4/groups/9/projects?per_page=100&page=2";
     "https://dst/api/v4/groups/9/projects?per_page=100&page=3";
     "https://dst/api/v4/groups/9/projects?per_page=100&page=4"] /\
  rest r = [extra].
Proof.
  cbv zeta.
  destruct (proj1 (paginated_fetch_until_empty_page all_urls_parse fl0 cfg0 "" false
                     [numbered_page 1 100; numbered_page 101 100; numbered_page 201 37]
                     4 [page_reply (numbered_page 238 5)]
                     ltac:(repeat constructor; discriminate)
                     ltac:(simpl; lia))
              (fun _ => eq_refl)) as (R & E & _ & P).
  split; [exact R |]. split; [reflexivity |].
  split; [rewrite E; reflexivity | exact P].
Defined.

(** ** Migration orchestrator *)

Lemma bind_ext : forall (A B : Type) (m : M A) (f g : A -> M B) p,
  (forall a p', f a p' = g a p') -> bind m f p = bind m g p.
Proof.
  intros A B m f g p H. unfold bind.
  destruct (m p) as [[a| | |] ev p']; try reflexivity. rewrite H. reflexivity.
Qed.

Lemma migrateVariables_range_app :
  forall url_ok flags config destProjects before after script,
    migrateVariables_range url_ok flags config destProjects (before ++ after) script
    = (migrateVariables_range url_ok flags config destProjects before ;;
       migrateVariables_range url_ok flags config destProjects after) script.
Proof.
  intros url_ok flags config destProjects before after.
  induction before as [|[sid projectData] before IH]; intros script.
  - simpl. rewrite bind_ret. reflexivity.
  - cbn [app migrateVariables_range]. cbv zeta.
    destruct (index (Some projectData) "project_name");
      try (rewrite bind_assoc; apply bind_ext; intros; apply IH).
    rewrite bind_assoc. apply bind_ext. intros d p'.
    destruct (d =? 0).
    + rewrite bind_assoc. apply bind_ext. intros; apply IH.
    + destruct (index (Some projectData) "variables");
        try (rewrite bind_assoc; apply bind_ext; intros; apply IH).
      rewrite bind_assoc. apply bind_ext. intros _ p''.
      rewrite bind_assoc. apply bind_ext. intros; apply IH.
Qed.

Lemma requests_bind_emit : forall (A B : Type) (m : M A) (k : M B) e p,
  (forall c q a, e <> Sent c q a) ->
  let with_e := (m ;; emit e ;; k) p in
  let without := (m ;; k) p in
  requests (events with_e) = requests (events without) /\
  result with_e = result without /\
  rest with_e = rest without.
Proof.
  intros A B m k e p He. cbv zeta. unfold bind.
  destruct (m p) as [[a| | |] ev p']; try (repeat split; reflexivity).
  unfold emit. destruct (k p') as [o ev' p'']. cbn [result events rest].
  rewrite !requests_app. cbn [requests flat_map app].
  destruct e; try (repeat split; reflexivity).
  exfalso. eapply He. reflexivity.
Qed.

(** C4. A source project whose name resolves to 0 is passed over with one
    warning line: the loop over [before ++ project :: after] is the loop
    over [before], the warning, then the loop over [after].  It sends the
    same requests, reads the same replies and ends the same way as the loop
    over [before ++ after]: nothing is created for the project and the
    projects after it are still migrated. *)
Theorem unmatched_project_is_skipped :
  forall url_ok flags config destProjects before sid projectData name after script,
    index (Some projectData) "project_name" = VString name ->
    (forall p, findProjectIDByExactName destProjects name p = ret 0 p) ->
    let range := migrateVariables_range url_ok flags config destProjects in
    let warning :=
      Logged "Warning: Project %s not found in destination group" [AString name] in
    let with_project := range (before ++ (sid, projectData) :: after) script in
    let without := range (before ++ after) script in
    range ((sid, projectData) :: after) script = prepend [warning] (range after script) /\
    with_project = (range before ;; emit warning ;; range after) script /\
    without = (range before ;; range after) script /\
    requests (events with_project) = requests (events without) /\
    result with_project = result without /\
    rest with_project = rest without.
Proof.
  intros url_ok flags config destProjects before sid projectData name after script
         Hname Hmiss range warning with_project without.
  assert (Hstep : forall after' p,
             range ((sid, projectData) :: after') p = prepend [warning] (range after' p)).
  { intros after' p. subst range. cbn [migrateVariables_range]. cbv zeta.
    rewrite Hname. erewrite bind_Ret by (rewrite Hmiss; reflexivity).
    cbn [Z.eqb]. unfold log_Printf. rewrite bind_emit, prepend_nil. reflexivity. }
  assert (Hwith : with_project = (range before ;; emit warning ;; range after) script).
  { subst with_project range. rewrite migrateVariables_range_app.
    apply bind_ext. intros _ p'. rewrite bind_emit. apply Hstep. }
  assert (Hwithout : without = (range before ;; range after) script).
  { subst without range. apply migrateVariables_range_app. }
  split; [apply Hstep |]. split; [exact Hwith |]. split; [exact Hwithout |].
  rewrite Hwith, Hwithout.
  apply requests_bind_emit. intros c q a. subst warning. discriminate.
Qed.

(** Source projects A, B, C against destination projects A and C: B is
    passed over, A and C are migrated. *)
Lemma unmatched_B_is_skipped :
  let destProjects := [project_record 11 "A"; project_record 12 "C"] in
  let r := migrateVariables_range all_urls_parse fl0 cfg0 destProjects
             ([project_entry "1" "A" [variable "X"]]
              ++ project_entry "2" "B" [variable "Y"]
              :: [project_entry "3" "C" [variable "Z"]])
             [created; created] in
  result r = Ret tt /\
  requests (events r)
  = [creation_request "https://dst/api/v4/projects/11/variables" "dt" (JObj [("key", JStr "X")]);
     creation_request "https://dst/api/v4/projects/12/variables" "dt" (JObj [("key", JStr "Z")])] /\
  rest r = [].
Proof.
  destruct (unmatched_project_is_skipped all_urls_parse fl0 cfg0
              [project_record 11 "A"; project_record 12 "C"]
              [project_entry "1" "A" [variable "X"]]
              "2" (snd (project_entry "2" "B" [variable "Y"])) "B"
              [project_entry "3" "C" [variable "Z"]]
              [created; created]
              eq_refl (fun p => eq_refl))
    as (_ & _ & _ & Q & R & P).
  cbv zeta. split; [| split].
  - etransitivity; [exact R | reflexivity].
  - etransitivity; [exact Q | reflexivity].
  - etransitivity; [exact P | reflexivity].
Defined.

(** C7 as stated fails: with two matched source projects the creation
    request for the first is sent before the second is resolved, in
    whichever order the map is ranged over. *)
Lemma write_precedes_second_resolution :
  let run order := migrateVariablesCmd all_urls_parse fl0 host0 order 3 two_matched_projects in
  let key_events order :=
    filter (fun e => is_write e || reports_resolution e) (events (run order)) in
  let post pid key :=
    Sent (CreateHTTPClient (Some (set_SkipTLSVerification NewDefaultConfig true)))
      (creation_request ("https://dst/api/v4/projects/" ++ pid ++ "/variables")%string "dt"
         (JObj [("key", JStr key)]))
      created in
  let resolved name id :=
    Logged "Migrating variables for project %s (ID: %d)" [AString name; AInt id] in
  key_events (fun m => m)
  = [resolved "A" 11; post "11" "X"; resolved "B" 12; post "12" "Y"] /\
  plan_precedes_writes (events (run (fun m => m))) = false /\
  key_events (@rev _)
  = [resolved "B" 12; post "12" "Y"; resolved "A" 11; post "11" "X"] /\
  plan_precedes_writes (events (run (@rev _))) = false.
Proof. repeat split. Qed.

(** C7, amended. In every mode of [migrate variables] all fetching comes
    before all writing: the events of a run split into a first part whose
    only requests are GETs (source variables, destination listing) and a
    second part whose only requests are creation POSTs.  Resolution is part
    of the write loop: a matched source project is reported, its variables
    are created, and only then are the entries after it looked at. *)
Theorem fetches_precede_writes :
  (forall url_ok flags host order fuel script,
      fetch_then_write (events (migrateVariablesCmd url_ok flags host order fuel script))) /\
  (forall url_ok flags config destProjects sid projectData name d vars after script,
      index (Some projectData) "project_name" = VString name ->
      index (Some projectData) "variables" = VMaps vars ->
      (forall p, findProjectIDByExactName destProjects name p = ret d p) ->
      d <> 0 ->
      migrateVariables_range url_ok flags config destProjects
        ((sid, projectData) :: after) script
      = (log_Printf "Migrating variables for project %s (ID: %d)" [AString name; AInt d] ;;
         createVariablesForProject url_ok flags config (itoa d) (interfaceVars vars) ;;
         migrateVariables_range url_ok flags config destProjects after) script).
Proof.
  split.
  - intros. apply migrateVariablesCmd_phased.
  - intros url_ok flags config destProjects sid projectData name d vars after script
           Hname Hvars Hfound Hd.
    cbn [migrateVariables_range]. cbv zeta. rewrite Hname, Hvars.
    erewrite bind_Ret by (rewrite Hfound; reflexivity).
    rewrite prepend_nil.
    destruct (Z.eqb_spec d 0) as [E | _]; [contradiction | reflexivity].
Qed.

(** With A and B both matched, the variable of A is created before the
    entry of B is looked at. *)
Lemma project_A_written_before_B_is_resolved :
  let destProjects := [project_record 11 "A"; project_record 12 "B"] in
  migrateVariables_range all_urls_parse fl0 cfg0 destProjects
    [project_entry "1" "A" [variable "X"]; project_entry "2" "B" [variable "Y"]]
    [created; created]
  = (log_Printf "Migrating variables for project %s (ID: %d)" [AString "A"; AInt 11] ;;
     createVariablesForProject all_urls_parse fl0 cfg0 "11" [VMap (variable "X")] ;;
     migrateVariables_range all_urls_parse fl0 cfg0 destProjects
       [project_entry "2" "B" [variable "Y"]]) [created; created].
Proof.
  cbv zeta.
  apply (proj2 fetches_precede_writes all_urls_parse fl0 cfg0
           [project_record 11 "A"; project_record 12 "B"]
           "1" (snd (project_entry "1" "A" [variable "X"])) "A" 11 [variable "X"]
           [project_entry "2" "B" [variable "Y"]] [created; created]
           eq_refl eq_refl (fun p => eq_refl)).
  discriminate.
Defined.

(** The whole recursive run on source projects A (variable X) and B
    (variable Y) against destination projects A and C: X is created on the
    destination A, B is passed over, C is not touched. *)
Example recursive_migration_A_B_to_A_C :
  let script :=
    [ page_reply [[("id", JNum 1); ("name", JStr "A")]; [("id", JNum 2); ("name", JStr "B")]];
      page_reply [[("key", JStr "X")]];
      page_reply [[("key", JStr "Y")]];
      page_reply [[("id", JNum 11); ("name", JStr "A")]; [("id", JNum 12); ("name", JStr "C")]];
      page_reply [];
      created ] in
  let r := migrateVariablesCmd all_urls_parse fl0 host0 (fun m => m) 2 script in
  result r = Ret tt /\
  filter is_write (events r)
  = [Sent (CreateHTTPClient (Some (set_SkipTLSVerification NewDefaultConfig true)))
       (creation_request "https://dst/api/v4/projects/11/variables" "dt"
          (JObj [("key", JStr "X")]))
       created] /\
  rest r = [].
Proof. repeat split. Qed.

(** ** Source listing in recursive mode *)

(** C8 fails on the code: the listing of the source group is at most one
    request, without [page] or [per_page], so only the first page of
    projects is listed; on a group of 25 projects served 20 per page it
    returns 20, where [fetchAllProjects], given the same replies, goes on
    to the empty page and returns all 25. *)
Theorem getProjectsForGroup_first_page_only :
  (forall url_ok flags config gid script,
      let r := getProjectsForGroup url_ok flags config gid script in
      requests (events r) = [] \/
      requests (events r)
      = [{| Method := "GET";
            URL := Sprintf "%s/api/v4/groups/%s/projects"
                     [if isDestination flags then DestinationBaseURL config
                      else SourceBaseURL config; gid];
            Header := [("PRIVATE-TOKEN",
                        if isDestination flags then DestinationAccessToken config
                        else SourceAccessToken config)];
            ReqBody := None |}]) /\
  (let first_page := page_reply (numbered_page 1 20) in
   let second_page := page_reply (numbered_page 21 5) in
   let script := [first_page; second_page; page_reply []] in
   let r := getProjectsForGroup all_urls_parse fl0 cfg0 "5" script in
   let all := fetchAllProjects all_urls_parse fl0 3 cfg0 script in
   result r = Ret (map decode_record (numbered_page 1 20)) /\
   map URL (requests (events r)) = ["https://src/api/v4/groups/5/projects"] /\
   rest r = [second_page; page_reply []] /\
   result all = Ret (Ok (map decode_record (numbered_page 1 25))) /\
   rest all = []).
Proof.
  split.
  - intros url_ok flags config gid script. cbv zeta.
    unfold getProjectsForGroup, http_NewRequest.
    destruct (isDestination flags);
      (destruct (url_ok _); [| left; reflexivity]);
      (destruct script as [|a script]; [left; reflexivity |]);
      right; cbv zeta; rewrite bind_client_Do; unfold prepend;
      cbn [events requests flat_map app];
      (destruct a as [e | resp]; [reflexivity |]);
      (destruct (io_ReadAll (RespBody resp)) as [body | e]; [| reflexivity]);
      (destruct (negb (StatusCode resp =? StatusOK)); [reflexivity |]);
      (destruct (json_Unmarshal_maps body); reflexivity).
  - repeat split.
Qed.

(** ** Numbers read as float64 *)

Lemma ParseFloat_integer_opp : forall n,
  ParseFloat_integer (- n) = - ParseFloat_integer n.
Proof.
  intros n. unfold ParseFloat_integer. rewrite Z.abs_opp, Z.sgn_opp.
  destruct (Z.abs n <? two53); [reflexivity |]. cbv zeta. ring.
Qed.

Lemma ParseFloat_integer_small : forall n,
  Z.abs n < two53 -> ParseFloat_integer n = n.
Proof.
  intros n H. unfold ParseFloat_integer.
  apply Z.ltb_lt in H. rewrite H. reflexivity.
Qed.

(** The float64 nearest to a large positive integer: a 53-bit mantissa
    and an exponent. *)
Lemma ParseFloat_integer_large : forall a,
  two53 <= a ->
  exists m e, 0 < e /\ 2 ^ 52 <= m <= 2 ^ 53 /\ ParseFloat_integer a = m * 2 ^ e.
Proof.
  intros a Ha. unfold ParseFloat_integer.
  assert (Hpos : 0 < a) by (unfold two53 in Ha; lia).
  rewrite (Z.abs_eq a) by lia.
  destruct (Z.ltb_spec a two53) as [Hlt | _]; [lia |].
  cbv zeta. rewrite (Z.sgn_pos a) by lia. rewrite Z.mul_1_l.
  pose proof (Z.log2_spec a Hpos) as [Hlo Hhi].
  assert (Hlog : 53 <= Z.log2 a).
  { change 53 with (Z.log2 two53). apply Z.log2_le_mono. exact Ha. }
  set (e := Z.log2 a - 52) in *.
  assert (He : 0 < e) by (unfold e; lia).
  assert (Hpow : 0 < 2 ^ e) by (apply Z.pow_pos_nonneg; lia).
  replace (Z.log2 a) with (52 + e) in Hlo, Hhi by (unfold e; lia).
  replace (Z.succ (52 + e)) with (53 + e) in Hhi by lia.
  rewrite Z.pow_add_r in Hlo, Hhi by lia.
  assert (Hq : 2 ^ 52 <= a / 2 ^ e < 2 ^ 53).
  { split.
    - apply Z.div_le_lower_bound; [exact Hpow | lia].
    - apply Z.div_lt_upper_bound; [exact Hpow | lia]. }
  exists (if (2 ^ (e - 1) <? a mod 2 ^ e)
             || ((a mod 2 ^ e =? 2 ^ (e - 1)) && Z.odd (a / 2 ^ e))
          then a / 2 ^ e + 1 else a / 2 ^ e), e.
  split; [exact He |]. split; [| reflexivity].
  destruct ((2 ^ (e - 1) <? a mod 2 ^ e)
            || ((a mod 2 ^ e =? 2 ^ (e - 1)) && Z.odd (a / 2 ^ e))); lia.
Qed.

(** A float64 parses to itself. *)
Lemma ParseFloat_integer_float : forall m e,
  0 < e -> 2 ^ 52 <= m <= 2 ^ 53 ->
  ParseFloat_integer (m * 2 ^ e) = m * 2 ^ e.
Proof.
  intros m e He Hm.
  assert (Hpow : 0 < 2 ^ e) by (apply Z.pow_pos_nonneg; lia).
  assert (H52 : 0 < 2 ^ 52) by reflexivity.
  assert (Hbig : two53 <= m * 2 ^ e).
  { assert (2 <= 2 ^ e).
    { change 2 with (2 ^ 1) at 1. apply Z.pow_le_mono_r; lia. }
    unfold two53. change 9007199254740992 with (2 ^ 52 * 2). nia. }
  unfold ParseFloat_integer.
  rewrite (Z.abs_eq (m * 2 ^ e)) by nia.
  destruct (Z.ltb_spec (m * 2 ^ e) two53) as [Hlt | _]; [lia |].
  cbv zeta. rewrite (Z.sgn_pos (m * 2 ^ e)) by nia. rewrite Z.mul_1_l.
  destruct (Z.eq_dec m (2 ^ 53)) as [-> | Hne].
  - assert (Hlog : Z.log2 (2 ^ 53 * 2 ^ e) = 53 + e).
    { rewrite <- Z.pow_add_r by lia. apply Z.log2_pow2. lia. }
    rewrite Hlog. replace (53 + e - 52) with (e + 1) by lia.
    replace (e + 1 - 1) with e by lia.
    assert (Hsplit : 2 ^ 53 * 2 ^ e = 2 ^ 52 * 2 ^ (e + 1)).
    { rewrite <- !Z.pow_add_r by lia. f_equal. lia. }
    rewrite Hsplit.
    assert (Hpow' : 0 < 2 ^ (e + 1)) by (apply Z.pow_pos_nonneg; lia).
    rewrite Z.div_mul by lia. rewrite Z.mod_mul by lia.
    destruct (Z.ltb_spec (2 ^ e) 0) as [Hneg | _]; [lia |].
    destruct (Z.eqb_spec 0 (2 ^ e)) as [Hzero | _]; [lia |].
    reflexivity.
  - assert (Hlog : Z.log2 (m * 2 ^ e) = 52 + e).
    { apply Z.log2_unique; [lia |].
      replace (Z.succ (52 + e)) with (53 + e) by lia.
      rewrite !Z.pow_add_r by lia. nia. }
    rewrite Hlog. replace (52 + e - 52) with e by lia.
    rewrite Z.div_mul by lia. rewrite Z.mod_mul by lia.
    assert (Hhalf : 0 < 2 ^ (e - 1)) by (apply Z.pow_pos_nonneg; lia).
    destruct (Z.ltb_spec (2 ^ (e - 1)) 0) as [Hneg | _]; [lia |].
    destruct (Z.eqb_spec 0 (2 ^ (e - 1))) as [Hzero | _]; [lia |].
    reflexivity.
Qed.

(** Parsing is idempotent: what it returns is a float64. *)
Lemma ParseFloat_integer_idempotent : forall n,
  ParseFloat_integer (ParseFloat_integer n) = ParseFloat_integer n.
Proof.
  assert (Hpos : forall a, 0 <= a ->
            ParseFloat_integer (ParseFloat_integer a) = ParseFloat_integer a).
  { intros a Ha. destruct (Z.lt_ge_cases a two53) as [Hsmall | Hlarge].
    - rewrite (ParseFloat_integer_small a) by (rewrite Z.abs_eq; lia).
      apply ParseFloat_integer_small. rewrite Z.abs_eq; lia.
    - destruct (ParseFloat_integer_large a Hlarge) as (m & e & He & Hm & ->).
      apply ParseFloat_integer_float; assumption. }
  intros n. destruct (Z.le_gt_cases 0 n) as [Hn | Hn]; [apply Hpos; exact Hn |].
  pose proof (Hpos (- n) ltac:(lia)) as H.
  rewrite !ParseFloat_integer_opp in H. lia.
Qed.

Lemma shortest_parses : forall j a,
  ParseFloat_integer a = a -> ParseFloat_integer (shortest j a) = a.
Proof.
  induction j as [|j IH]; intros a Ha; [exact Ha |].
  cbn [shortest]. cbv zeta.
  destruct (Z.eqb_spec (ParseFloat_integer (a / 10 ^ Z.of_nat (S j) * 10 ^ Z.of_nat (S j))) a)
    as [Hlo | _];
    destruct (Z.eqb_spec
                (ParseFloat_integer
                   (a / 10 ^ Z.of_nat (S j) * 10 ^ Z.of_nat (S j) + 10 ^ Z.of_nat (S j))) a)
      as [Hhi | _]; try assumption.
  - destruct (_ <=? _); assumption.
  - apply IH. exact Ha.
Qed.

(** The literal written for a float64 parses back to it. *)
Lemma ParseFloat_FormatFloat : forall n,
  ParseFloat_integer (FormatFloat_integer (ParseFloat_integer n)) = ParseFloat_integer n.
Proof.
  intros n. set (f := ParseFloat_integer n).
  assert (Hf : ParseFloat_integer f = f) by apply ParseFloat_integer_idempotent.
  unfold FormatFloat_integer.
  destruct (Z.abs f <? two53); [exact Hf |].
  assert (Habs : ParseFloat_integer (Z.abs f) = Z.abs f).
  { destruct (Z.abs_spec f) as [[_ ->] | [_ ->]]; [exact Hf |].
    rewrite ParseFloat_integer_opp, Hf. reflexivity. }
  pose proof (shortest_parses (Z.to_nat (Z.log2 (Z.abs f) / 3 + 1)) (Z.abs f) Habs) as Hc.
  destruct (Z.sgn_spec f) as [[Hs ->] | [[Hs ->] | [Hs ->]]].
  - rewrite Z.mul_1_l, Hc. lia.
  - subst f. rewrite <- Hs. reflexivity.
  - replace (-1 * shortest (Z.to_nat (Z.log2 (Z.abs f) / 3 + 1)) (Z.abs f))
      with (- shortest (Z.to_nat (Z.log2 (Z.abs f) / 3 + 1)) (Z.abs f)) by lia.
    rewrite ParseFloat_integer_opp, Hc. lia.
Qed.

(** ** Opaque variable records *)

Lemma Marshal_VMap : forall kvs,
  Marshal (VMap (Some kvs))
  = match Marshal_fields kvs with Ok js => Ok (JObj js) | Err e => Err e end.
Proof.
  intros kvs. cbn [Marshal].
  match goal with |- match ?f kvs with _ => _ end = _ =>
    assert (E : forall l, f l = Marshal_fields l) end.
  { induction l as [|[k x] l IH]; [reflexivity |]. cbn [Marshal_fields]. rewrite <- IH.
    reflexivity. }
  rewrite E. reflexivity.
Qed.

Lemma Marshal_VSlice : forall l,
  Marshal (VSlice l)
  = match Marshal_elems l with Ok js => Ok (JArr js) | Err e => Err e end.
Proof.
  intros l. cbn [Marshal].
  match goal with |- match ?f l with _ => _ end = _ =>
    assert (E : forall l', f l' = Marshal_elems l') end.
  { induction l' as [|x l' IH]; [reflexivity |]. cbn [Marshal_elems]. rewrite <- IH.
    reflexivity. }
  rewrite E. reflexivity.
Qed.

Lemma Marshal_fields_map_set : forall k v v' m m',
  Marshal v = Ok v' ->
  Marshal_fields m = Ok m' ->
  Marshal_fields (map_set k v m) = Ok (map_set k v' m').
Proof.
  intros k v v' m. induction m as [|[k0 x] m IH]; intros m' Hv Hm.
  - cbn in Hm. injection Hm as <-. cbn. rewrite Hv. reflexivity.
  - cbn [Marshal_fields] in Hm.
    destruct (Marshal x) as [j |] eqn:Hx; [| discriminate].
    destruct (Marshal_fields m) as [js |] eqn:Hjs; [| discriminate].
    injection Hm as <-. cbn [map_set].
    destruct (String.compare k k0).
    + cbn [Marshal_fields]. rewrite Hv, Hjs. reflexivity.
    + cbn [Marshal_fields]. rewrite Hv, Hx, Hjs. reflexivity.
    + cbn [Marshal_fields]. rewrite Hx, (IH js Hv eq_refl). reflexivity.
Qed.

Lemma Marshal_decode : forall j, Marshal (decode j) = Ok (canonical j).
Proof.
  induction j as [| b | n | s | l IH | kvs IH] using JSON_nested_ind; try reflexivity.
  - cbn [decode canonical]. rewrite Marshal_VSlice.
    assert (E : Marshal_elems (map decode l) = Ok (map canonical l)).
    { induction IH as [|x l Hx _ IHl]; [reflexivity |].
      cbn [map Marshal_elems]. rewrite Hx, IHl. reflexivity. }
    rewrite E. reflexivity.
  - cbn [decode canonical]. rewrite Marshal_VMap.
    assert (E : forall m m',
               Marshal_fields m = Ok m' ->
               Marshal_fields
                 (fold_left (fun m kv => map_set (fst kv) (decode (snd kv)) m) kvs m)
               = Ok (fold_left (fun m kv => map_set (fst kv) (canonical (snd kv)) m) kvs m')).
    { induction IH as [|kv kvs Hkv _ IHkvs]; intros m m' Hm; [exact Hm |].
      cbn [fold_left]. apply IHkvs. apply Marshal_fields_map_set; assumption. }
    rewrite (E [] [] eq_refl). reflexivity.
Qed.

Lemma map_set_keys : forall (V : Type) k k0 (v : V) m,
  In k (map fst (map_set k0 v m)) <-> k = k0 \/ In k (map fst m).
Proof.
  intros V k k0 v m. induction m as [|[k1 x] m IH]; cbn [map_set].
  - simpl. intuition congruence.
  - destruct (String.compare k0 k1) eqn:C.
    + apply String.compare_eq_iff in C. subst k1. simpl. intuition congruence.
    + simpl. intuition congruence.
    + cbn [map fst In]. rewrite IH. simpl. intuition congruence.
Qed.

Lemma map_set_values : forall (V : Type) k (v : V) k0 v0 m,
  In (k, v) (map_set k0 v0 m) -> (k = k0 /\ v = v0) \/ In (k, v) m.
Proof.
  intros V k v k0 v0 m. induction m as [|[k1 x] m IH]; cbn [map_set].
  - simpl. intuition congruence.
  - destruct (String.compare k0 k1).
    + simpl. intuition congruence.
    + simpl. intuition congruence.
    + cbn [In]. intros [E | H]; [right; left; exact E |].
      destruct (IH H) as [? | ?]; [left; assumption | right; right; assumption].
Qed.

Lemma canonical_fields_same : forall fields,
  same_fields fields
    (fold_left (fun m kv => map_set (fst kv) (canonical (snd kv)) m) fields []).
Proof.
  intros fields.
  assert (K : forall kvs m k,
             In k (map fst (fold_left
                              (fun m kv => map_set (fst kv) (canonical (snd kv)) m) kvs m))
             <-> In k (map fst kvs) \/ In k (map fst m)).
  { induction kvs as [|[k1 x] kvs IH]; intros m k; cbn [fold_left].
    - simpl. tauto.
    - rewrite IH, map_set_keys. simpl. intuition congruence. }
  assert (W : forall kvs m k v,
             In (k, v) (fold_left
                          (fun m kv => map_set (fst kv) (canonical (snd kv)) m) kvs m) ->
             (exists v0, In (k, v0) kvs /\ v = canonical v0) \/ In (k, v) m).
  { induction kvs as [|[k1 x] kvs IH]; intros m k v H; cbn [fold_left] in H.
    - right. exact H.
    - destruct (IH _ _ _ H) as [(v0 & Hin & E) | Hm].
      + left. exists v0. split; [right; exact Hin | exact E].
      + destruct (map_set_values _ _ _ _ _ _ Hm) as [[E1 E2] | Hm'].
        * left. exists x. simpl in *. subst. split; [left; reflexivity | reflexivity].
        * right. exact Hm'. }
  split.
  - intros k. rewrite K. simpl. tauto.
  - intros k v H. destruct (W _ _ _ _ H) as [? | []]. assumption.
Qed.

Lemma payloads_of_records : forall records,
  payloads (interfaceVars (map decode_record records))
  = map (fun fields => canonical (JObj fields)) records.
Proof.
  induction records as [|fields records IH]; [reflexivity |].
  unfold payloads, interfaceVars in *. cbn [map flat_map].
  change (VMap (decode_record fields)) with (decode (JObj fields)).
  rewrite Marshal_decode, IH. reflexivity.
Qed.

Lemma getVariablesForProject_page : forall url_ok flags config pid records later,
  url_ok (Sprintf "%s/api/v4/projects/%s/variables"
            [if isDestination flags then DestinationBaseURL config
             else SourceBaseURL config; pid]) = true ->
  getVariablesForProject url_ok flags config pid (page_reply records :: later)
  = {| result := Ret (map decode_record records);
       events :=
         [Sent (CreateHTTPClient (Some (set_SkipTLSVerification NewDefaultConfig true)))
            {| Method := "GET";
               URL := Sprintf "%s/api/v4/projects/%s/variables"
                        [if isDestination flags then DestinationBaseURL config
                         else SourceBaseURL config; pid];
               Header := [("PRIVATE-TOKEN",
                           if isDestination flags then DestinationAccessToken config
                           else SourceAccessToken config)];
               ReqBody := None |}
            (page_reply records)];
       rest := later |}.
Proof.
  intros url_ok flags config pid records later Hurl.
  unfold getVariablesForProject, http_NewRequest.
  destruct (isDestination flags); rewrite Hurl; cbv zeta;
    rewrite bind_client_Do; unfold page_reply;
    cbn [StatusCode RespBody io_ReadAll json_Unmarshal_maps negb Z.eqb StatusOK Pos.eqb];
    rewrite decode_maps_objects; reflexivity.
Qed.

Lemma Marshal_VMaps : forall l,
  Marshal (VMaps l)
  = match Marshal_maps l with Ok js => Ok (JArr js) | Err e => Err e end.
Proof.
  intros l. cbn [Marshal].
  match goal with |- match ?f l with _ => _ end = _ =>
    assert (E : forall l', f l' = Marshal_maps l') end.
  { induction l' as [|m l' IH]; [reflexivity |]. cbn [Marshal_maps]. rewrite <- IH.
    reflexivity. }
  rewrite E. reflexivity.
Qed.

Lemma Marshal_records : forall records,
  Marshal (VMaps (map decode_record records))
  = Ok (JArr (map (fun fields => canonical (JObj fields)) records)).
Proof.
  intros records. rewrite Marshal_VMaps.
  assert (E : Marshal_maps (map decode_record records)
              = Ok (map (fun fields => canonical (JObj fields)) records)).
  { induction records as [|fields records IH]; [reflexivity |].
    cbn [map Marshal_maps].
    change (VMap (decode_record fields)) with (decode (JObj fields)).
    rewrite Marshal_decode, IH. reflexivity. }
  rewrite E. reflexivity.
Qed.

Lemma bind_result_Ret : forall (A B : Type) (m : M A) (f : A -> M B) p a,
  result (m p) = Ret a ->
  bind m f p = prepend (events (m p)) (f a (rest (m p))).
Proof.
  intros A B m f p a H. apply bind_Ret. destruct (m p) as [o ev p']. simpl in *.
  rewrite H. reflexivity.
Qed.






(** * Further properties of the code *)

(** ** init.go: reading the answers *)

Lemma substring_prefix : forall s t, String.substring 0 (String.length s) (s ++ t)%string = s.
Proof.
  induction s as [|c s IH]; intros t; simpl.
  - destruct t; reflexivity.
  - rewrite IH. reflexivity.
Qed.

Lemma length_append_one : forall s c,
  String.length (s ++ String c EmptyString)%string = S (String.length s).
Proof. induction s as [|c' s IH]; intros c; simpl; [reflexivity | rewrite IH; reflexivity]. Qed.

Lemma sanitizeInput_drops_last : forall s c script,
  sanitizeInput (s ++ String c EmptyString)%string script = ret s script.
Proof.
  intros s c script. unfold sanitizeInput. rewrite length_append_one.
  rewrite substring_prefix. reflexivity.
Qed.

Lemma ReadString_newline_line : forall line left,
  ~ In "010"%char (list_ascii_of_string line) ->
  ReadString_newline (line ++ String "010"%char left)%string
  = ((line ++ String "010"%char EmptyString)%string, left).
Proof.
  induction line as [|c line IH]; intros left Hno; simpl.
  - reflexivity.
  - simpl in Hno. destruct (Ascii.eqb_spec c "010"%char) as [E | _].
    + exfalso. apply Hno. left. exact E.
    + rewrite IH by (intros H; apply Hno; right; exact H). reflexivity.
Qed.

Lemma ReadString_newline_last : forall line,
  ~ In "010"%char (list_ascii_of_string line) ->
  ReadString_newline line = (line, EmptyString).
Proof.
  induction line as [|c line IH]; intros Hno; simpl.
  - reflexivity.
  - simpl in Hno. destruct (Ascii.eqb_spec c "010"%char) as [E | _].
    + exfalso. apply Hno. left. exact E.
    + rewrite IH by (intros H; apply Hno; right; exact H). reflexivity.
Qed.

(** X1. How [init] turns standard input into an answer: a line ended by a
    newline gives the line as typed, nothing trimmed; a last line without
    newline loses its final character; with nothing left to read the slice
    is out of bounds and the command panics. *)
Theorem answer_is_line_without_last_byte :
  (forall line left script,
      ~ In "010"%char (list_ascii_of_string line) ->
      let (read, left') := ReadString_newline (line ++ String "010"%char left)%string in
      left' = left /\ sanitizeInput read script = ret line script) /\
  (forall line c script,
      ~ In "010"%char (list_ascii_of_string (line ++ String c EmptyString)%string) ->
      let (read, left') := ReadString_newline (line ++ String c EmptyString)%string in
      left' = EmptyString /\ sanitizeInput read script = ret line script) /\
  (forall script,
      let (read, left') := ReadString_newline EmptyString in
      result (sanitizeInput read script)
      = Panic "runtime error: slice bounds out of range [:-1]" /\
      events (sanitizeInput read script) = []).
Proof.
  split; [| split].
  - intros line left script Hno. rewrite ReadString_newline_line by exact Hno.
    split; [reflexivity | apply sanitizeInput_drops_last].
  - intros line c script Hno. rewrite ReadString_newline_last by exact Hno.
    split; [reflexivity | apply sanitizeInput_drops_last].
  - intros script. simpl. split; reflexivity.
Qed.

(** A typed URL followed by more input; a last answer cut short. *)
Lemma answer_of_typed_line :
  (let (read, left) := ReadString_newline "https://src
token" in
   left = "token" /\ sanitizeInput read [] = ret "https://src" []) /\
  (let (read, left) := ReadString_newline "token" in
   left = "" /\ sanitizeInput read [] = ret "toke" []).
Proof.
  split.
  - apply (proj1 answer_is_line_without_last_byte "https://src" "token" []).
    simpl. intros H. repeat (destruct H as [H | H]; [discriminate |]). exact H.
  - apply (proj1 (proj2 answer_is_line_without_last_byte) "toke" "n"%char []).
    simpl. intros H. repeat (destruct H as [H | H]; [discriminate |]). exact H.
Defined.

(** ** init.go: the command *)

Ltac read_answer :=
  rewrite ReadString_newline_line by assumption;
  erewrite bind_Ret by apply sanitizeInput_drops_last;
  rewrite ?bind_emit.

(** X2. Given four newline-ended answers, [init --config path] writes a
    configuration holding exactly those four texts (they are neither
    trimmed nor validated, blank answers included) with empty mirror
    credentials, after the four prompts and before the success line; it
    contacts no instance. *)
Theorem initCmd_writes_the_answers :
  forall host files configPath a1 a2 a3 a4 left script,
    configPath <> EmptyString ->
    host_MkdirAll host (filepath_Dir host configPath) = None ->
    file_write files configPath = None ->
    Forall (fun a => ~ In "010"%char (list_ascii_of_string a)) [a1; a2; a3; a4] ->
    initCmd host files configPath (typed_lines [a1; a2; a3; a4] left) script
    = {| result := Ret tt;
         events :=
           init_prompts
           ++ [Written configPath
                 (Config_document
                    {| SourceBaseURL := a1; SourceAccessToken := a2;
                       DestinationBaseURL := a3; DestinationAccessToken := a4;
                       AuthUser := ""; AuthPassword := "" |});
               Printed "Configuration saved successfully to %s\n" [AString configPath]];
         rest := script |}.
Proof.
  intros host files configPath a1 a2 a3 a4 left script Hpath Hmkdir Hwrite Hlines.
  inversion Hlines as [|? ? H1 Hl1]; subst. inversion Hl1 as [|? ? H2 Hl2]; subst.
  inversion Hl2 as [|? ? H3 Hl3]; subst. inversion Hl3 as [|? ? H4 _]; subst.
  unfold initCmd, writeConfigToFile, typed_lines; cbn [fold_right].
  destruct (String.eqb_spec configPath "") as [E | _]; [contradiction |].
  rewrite Hmkdir, bind_ret, Hwrite. unfold fmt_Print, fmt_Printf.
  rewrite bind_emit. read_answer. read_answer. read_answer.
  rewrite ReadString_newline_line by assumption.
  erewrite bind_Ret by apply sanitizeInput_drops_last.
  rewrite bind_assoc, bind_emit, bind_ret. reflexivity.
Qed.

(** Answers typed for two instances; the second token is blank. *)
Lemma initCmd_on_typed_answers :
  let r := initCmd host0 files0 "/etc/gm/config.yaml"
             (typed_lines ["https://src"; "st"; "https://dst"; ""] "") [] in
  result r = Ret tt /\
  In (Written "/etc/gm/config.yaml"
        (Config_document {| SourceBaseURL := "https://src"; SourceAccessToken := "st";
                            DestinationBaseURL := "https://dst";
                            DestinationAccessToken := "";
                            AuthUser := ""; AuthPassword := "" |}))
     (events r).
Proof.
  cbv zeta.
  rewrite (initCmd_writes_the_answers host0 files0 "/etc/gm/config.yaml"
             "https://src" "st" "https://dst" "" "" []).
  - split; [reflexivity |]. simpl. tauto.
  - discriminate.
  - reflexivity.
  - reflexivity.
  - repeat constructor; simpl; intros H;
      repeat (destruct H as [H | H]; [discriminate |]); exact H.
Defined.

(** X3. When standard input holds fewer than four lines, a last line
    without newline counting as one, [init --config path] panics: it stops
    at the first empty read, right after the prompt of that answer, and
    writes no configuration file. When the input holds three lines and a
    fourth without its newline, [init] does not panic: it returns normally
    and writes the file, the fourth answer short of its last character. *)
Theorem initCmd_panics_on_short_input :
  forall host files configPath answers script,
    configPath <> EmptyString ->
    host_MkdirAll host (filepath_Dir host configPath) = None ->
    Forall (fun a => ~ In "010"%char (list_ascii_of_string a)) answers ->
    ((List.length answers < 4)%nat ->
     let r := initCmd host files configPath (typed_lines answers EmptyString) script in
     result r = Panic "runtime error: slice bounds out of range [:-1]" /\
     Forall (fun e => match e with Written _ _ => False | _ => True end) (events r) /\
     events r = firstn (S (List.length answers)) init_prompts) /\
    (forall body c,
        ~ In "010"%char (list_ascii_of_string (body ++ String c EmptyString)) ->
        ((List.length answers < 3)%nat ->
         let r := initCmd host files configPath
                    (typed_lines answers (body ++ String c EmptyString)) script in
         result r = Panic "runtime error: slice bounds out of range [:-1]" /\
         Forall (fun e => match e with Written _ _ => False | _ => True end) (events r) /\
         events r = firstn (S (S (List.length answers))) init_prompts) /\
        (List.length answers = 3%nat ->
         file_write files configPath = None ->
         initCmd host files configPath
           (typed_lines answers (body ++ String c EmptyString)) script
         = {| result := Ret tt;
              events :=
                init_prompts
                ++ [Written configPath
                      (Config_document
                         {| SourceBaseURL := nth 0 answers EmptyString;
                            SourceAccessToken := nth 1 answers EmptyString;
                            DestinationBaseURL := nth 2 answers EmptyString;
                            DestinationAccessToken := body;
                            AuthUser := ""; AuthPassword := "" |});
                    Printed "Configuration saved successfully to %s\n"
                      [AString configPath]];
              rest := script |})).
Proof.
  intros host files configPath answers script Hpath Hmkdir Hlines.
  assert (Hstart : forall stdin,
             initCmd host files configPath stdin script
             = prepend [Printed "Enter Source Base URL: " []]
                 ((let (line, stdin) := ReadString_newline stdin in
                   sourceBaseURL <- sanitizeInput line ;;
                   fmt_Print "Enter Source Access Token: " ;;
                   let (line, stdin) := ReadString_newline stdin in
                   sourceAccessToken <- sanitizeInput line ;;
                   fmt_Print "Enter Destination Base URL: " ;;
                   let (line, stdin) := ReadString_newline stdin in
                   destinationBaseURL <- sanitizeInput line ;;
                   fmt_Print "Enter Destination Access Token: " ;;
                   let (line, stdin) := ReadString_newline stdin in
                   destinationAccessToken <- sanitizeInput line ;;
                   err <- writeConfigToFile files
                            {| SourceBaseURL := sourceBaseURL;
                               SourceAccessToken := sourceAccessToken;
                               DestinationBaseURL := destinationBaseURL;
                               DestinationAccessToken := destinationAccessToken;
                               AuthUser := ""; AuthPassword := "" |} configPath ;;
                   match err with
                   | Some err => fmt_Printf "Error writing config file: %v\n" [AString err]
                   | None =>
                       fmt_Printf "Configuration saved successfully to %s\n"
                         [AString configPath]
                   end) script)).
  { intros stdin. unfold initCmd.
    destruct (String.eqb_spec configPath "") as [E | _]; [contradiction |].
    rewrite Hmkdir. unfold fmt_Print. rewrite bind_ret, bind_emit. reflexivity. }
  split.
  - intros Hshort. cbv zeta. rewrite Hstart. unfold typed_lines, fmt_Print.
    destruct answers as [|a1 answers]; cbn [fold_right].
    { cbn. repeat split; repeat constructor. }
    inversion Hlines as [|? ? H1 Hl1]; subst. read_answer.
    destruct answers as [|a2 answers]; cbn [fold_right].
    { cbn. repeat split; repeat constructor. }
    inversion Hl1 as [|? ? H2 Hl2]; subst. read_answer.
    destruct answers as [|a3 answers]; cbn [fold_right].
    { cbn. repeat split; repeat constructor. }
    inversion Hl2 as [|? ? H3 Hl3]; subst. read_answer.
    destruct answers as [|a4 answers]; cbn [fold_right].
    { cbn. repeat split; repeat constructor. }
    simpl in Hshort. lia.
  - intros body c Hlast. split.
    + intros Hshort. cbv zeta. rewrite Hstart. unfold typed_lines, fmt_Print.
      destruct answers as [|a1 answers]; cbn [fold_right].
      { rewrite ReadString_newline_last by exact Hlast.
        erewrite bind_Ret by apply sanitizeInput_drops_last. rewrite ?bind_emit.
        cbn. repeat split; repeat constructor. }
      inversion Hlines as [|? ? H1 Hl1]; subst. read_answer.
      destruct answers as [|a2 answers]; cbn [fold_right].
      { rewrite ReadString_newline_last by exact Hlast.
        erewrite bind_Ret by apply sanitizeInput_drops_last. rewrite ?bind_emit.
        cbn. repeat split; repeat constructor. }
      inversion Hl1 as [|? ? H2 Hl2]; subst. read_answer.
      destruct answers as [|a3 answers]; cbn [fold_right].
      { rewrite ReadString_newline_last by exact Hlast.
        erewrite bind_Ret by apply sanitizeInput_drops_last. rewrite ?bind_emit.
        cbn. repeat split; repeat constructor. }
      simpl in Hshort. lia.
    + intros Hthree Hwrite. rewrite Hstart. unfold typed_lines, fmt_Print, fmt_Printf.
      destruct answers as [|a1 [|a2 [|a3 [|a4 answers]]]]; try discriminate Hthree.
      inversion Hlines as [|? ? H1 Hl1]; subst. inversion Hl1 as [|? ? H2 Hl2]; subst.
      inversion Hl2 as [|? ? H3 _]; subst.
      cbn [fold_right nth]. read_answer. read_answer. read_answer.
      rewrite ReadString_newline_last by exact Hlast.
      erewrite bind_Ret by apply sanitizeInput_drops_last.
      unfold writeConfigToFile. rewrite Hwrite.
      rewrite bind_assoc, bind_emit, bind_ret. reflexivity.
Qed.

(** Two answers, then end of input; three answers and a fourth without
    its newline. *)
Lemma initCmd_after_two_answers :
  result (initCmd host0 files0 "/etc/gm/config.yaml"
            (typed_lines ["https://src"; "st"] "") [])
  = Panic "runtime error: slice bounds out of range [:-1]" /\
  (let r := initCmd host0 files0 "/etc/gm/config.yaml"
              (typed_lines ["https://src"; "st"; "https://dst"] "dt") [] in
   result r = Ret tt /\
   In (Written "/etc/gm/config.yaml"
         (Config_document {| SourceBaseURL := "https://src"; SourceAccessToken := "st";
                             DestinationBaseURL := "https://dst";
                             DestinationAccessToken := "d";
                             AuthUser := ""; AuthPassword := "" |}))
      (events r)).
Proof.
  split.
  - apply (proj1 (initCmd_panics_on_short_input host0 files0 "/etc/gm/config.yaml"
                    ["https://src"; "st"] []
                    ltac:(discriminate) eq_refl
                    ltac:(repeat constructor; simpl; intros H;
                          repeat (destruct H as [H | H]; [discriminate |]); exact H))).
    simpl. lia.
  - cbv zeta. change "dt" with ("d" ++ String "t"%char EmptyString)%string.
    rewrite (proj2 (proj2 (initCmd_panics_on_short_input host0 files0 "/etc/gm/config.yaml"
                             ["https://src"; "st"; "https://dst"] []
                             ltac:(discriminate) eq_refl
                             ltac:(repeat constructor; simpl; intros H;
                                   repeat (destruct H as [H | H]; [discriminate |]);
                                   exact H))
                      "d" "t"%char
                      ltac:(simpl; intros H;
                            repeat (destruct H as [H | H]; [discriminate |]); exact H))
               eq_refl eq_refl).
    split; [reflexivity |]. simpl. tauto.
Defined.

(** ** utils/config.go *)

Lemma validateURL_accepts : forall url_Parse urlStr,
  validateURL url_Parse urlStr = None <->
  exists scheme, url_Parse urlStr = Ok scheme /\ (scheme = "http" \/ scheme = "https").
Proof.
  intros url_Parse urlStr. unfold validateURL, nonempty.
  destruct (url_Parse urlStr) as [scheme | err].
  - destruct (String.eqb_spec scheme "") as [E0 | N0]; cbn [negb].
    + split; [discriminate |]. intros (s & E & [H | H]); congruence.
    + destruct (String.eqb_spec scheme "http") as [E1 | N1];
        destruct (String.eqb_spec scheme "https") as [E2 | N2]; cbn [negb andb].
      * split; [intros _; exists scheme; tauto | reflexivity].
      * split; [intros _; exists scheme; tauto | reflexivity].
      * split; [intros _; exists scheme; tauto | reflexivity].
      * split; [discriminate |]. intros (s & E & [H | H]); congruence.
  - split; [discriminate |]. intros (s & E & _). discriminate.
Qed.

(** X4. [Validate] accepts a configuration exactly when the two base URLs
    and the two tokens are non-blank after trimming and both URLs parse
    with scheme http or https.  The mirror credentials play no part. *)
Theorem Validate_accepts_exactly :
  forall TrimSpace url_Parse c,
    (Validate TrimSpace url_Parse c = None <->
     TrimSpace (SourceBaseURL c) <> EmptyString /\
     TrimSpace (SourceAccessToken c) <> EmptyString /\
     TrimSpace (DestinationBaseURL c) <> EmptyString /\
     TrimSpace (DestinationAccessToken c) <> EmptyString /\
     (exists scheme, url_Parse (SourceBaseURL c) = Ok scheme /\
                     (scheme = "http" \/ scheme = "https")) /\
     (exists scheme, url_Parse (DestinationBaseURL c) = Ok scheme /\
                     (scheme = "http" \/ scheme = "https"))) /\
    (forall user password,
        Validate TrimSpace url_Parse
          {| SourceBaseURL := SourceBaseURL c; SourceAccessToken := SourceAccessToken c;
             DestinationBaseURL := DestinationBaseURL c;
             DestinationAccessToken := DestinationAccessToken c;
             AuthUser := user; AuthPassword := password |}
        = Validate TrimSpace url_Parse c).
Proof.
  intros TrimSpace url_Parse c. split; [| reflexivity].
  unfold Validate.
  destruct (String.eqb_spec (TrimSpace (SourceBaseURL c)) "") as [E1 | N1];
    [split; [discriminate | tauto] |].
  destruct (String.eqb_spec (TrimSpace (SourceAccessToken c)) "") as [E2 | N2];
    [split; [discriminate | tauto] |].
  destruct (String.eqb_spec (TrimSpace (DestinationBaseURL c)) "") as [E3 | N3];
    [split; [discriminate | tauto] |].
  destruct (String.eqb_spec (TrimSpace (DestinationAccessToken c)) "") as [E4 | N4];
    [split; [discriminate | tauto] |].
  pose proof (validateURL_accepts url_Parse (SourceBaseURL c)) as Hs.
  pose proof (validateURL_accepts url_Parse (DestinationBaseURL c)) as Hd.
  destruct (validateURL url_Parse (SourceBaseURL c)) as [e |].
  - split; [discriminate |]. intros (_ & _ & _ & _ & H & _).
    apply Hs in H. discriminate.
  - destruct (validateURL url_Parse (DestinationBaseURL c)) as [e |].
    + split; [discriminate |]. intros (_ & _ & _ & _ & _ & H).
      apply Hd in H. discriminate.
    + split; [| reflexivity]. intros _.
      repeat split; try assumption; [apply Hs | apply Hd]; reflexivity.
Qed.

(** The sample configuration is accepted; with an [ftp] source it is not. *)
Lemma Validate_on_samples :
  Validate no_blanks scheme_of cfg0 = None /\
  Validate no_blanks scheme_of
    {| SourceBaseURL := "ftp://src"; SourceAccessToken := "st";
       DestinationBaseURL := "https://dst"; DestinationAccessToken := "dt";
       AuthUser := ""; AuthPassword := "" |} <> None.
Proof.
  split.
  - destruct (Validate_accepts_exactly no_blanks scheme_of cfg0) as [[_ Hif] _].
    apply Hif.
    split; [vm_compute; discriminate |]. split; [vm_compute; discriminate |].
    split; [vm_compute; discriminate |]. split; [vm_compute; discriminate |].
    split; exists "https"; (split; [reflexivity | right; reflexivity]).
  - intros Haccepted.
    destruct (Validate_accepts_exactly no_blanks scheme_of
                {| SourceBaseURL := "ftp://src"; SourceAccessToken := "st";
                   DestinationBaseURL := "https://dst"; DestinationAccessToken := "dt";
                   AuthUser := ""; AuthPassword := "" |}) as [[Honly _] _].
    apply Honly in Haccepted.
    destruct Haccepted as (_ & _ & _ & _ & (scheme & Hparse & Hscheme) & _).
    vm_compute in Hparse. inversion Hparse; subst scheme.
    destruct Hscheme; discriminate.
Defined.

(** X5. A configuration that [loadConfig] returns has passed [Validate],
    and is the one the YAML file holds at the path given by [--config],
    or at [config.yaml] in the home directory when the flag is empty. *)
Theorem loadConfig_returns_validated :
  forall files configPath TrimSpace url_Parse config,
    loadConfig files configPath TrimSpace url_Parse = Ok config ->
    Validate TrimSpace url_Parse config = None /\
    exists path,
      file_yaml files path = Ok (Ok config) /\
      TrimSpace path <> EmptyString /\
      (configPath <> EmptyString -> path = configPath) /\
      (configPath = EmptyString ->
       exists homeDir, user_home files = Ok homeDir /\
                       path = filepath_Join files homeDir "config.yaml").
Proof.
  intros files configPath TrimSpace url_Parse config. unfold loadConfig.
  assert (Hload : forall path,
             match LoadConfig files TrimSpace url_Parse path with
             | Ok c => Ok c
             | Err err => Err (Sprintf "failed to load config from %s: %v" [path; err])
             end = Ok config ->
             Validate TrimSpace url_Parse config = None /\
             file_yaml files path = Ok (Ok config) /\ TrimSpace path <> EmptyString).
  { intros path. unfold LoadConfig.
    destruct (String.eqb_spec (TrimSpace path) "") as [E | N]; [discriminate |].
    destruct (file_yaml files path) as [[c | e] | e]; try discriminate.
    destruct (Validate TrimSpace url_Parse c) eqn:V; [discriminate |].
    intros H. injection H as <-. repeat split; [exact V | exact N]. }
  destruct (String.eqb_spec configPath "") as [E | N].
  - destruct (user_home files) as [homeDir | e]; [| discriminate].
    intros H. destruct (Hload _ H) as (V & F & T). split; [exact V |].
    exists (filepath_Join files homeDir "config.yaml").
    repeat split; try assumption; [contradiction | intros _; exists homeDir; tauto].
  - intros H. destruct (Hload _ H) as (V & F & T). split; [exact V |].
    exists configPath. repeat split; try assumption; [contradiction].
Qed.

(** A valid file under the home directory. *)
Lemma loadConfig_from_home :
  let files := {| file_open := fun _ => Err "no such file"; file_write := fun _ => None;
                  file_yaml := fun path =>
                    if String.eqb path "/home/u/config.yaml" then Ok (Ok cfg0)
                    else Err "no such file";
                  user_home := Ok "/home/u";
                  filepath_Join := fun d f => (d ++ "/" ++ f)%string |} in
  loadConfig files "" no_blanks scheme_of = Ok cfg0 /\
  Validate no_blanks scheme_of cfg0 = None.
Proof.
  cbv zeta. split; [reflexivity |].
  apply (loadConfig_returns_validated
           {| file_open := fun _ => Err "no such file"; file_write := fun _ => None;
              file_yaml := fun path =>
                if String.eqb path "/home/u/config.yaml" then Ok (Ok cfg0)
                else Err "no such file";
              user_home := Ok "/home/u";
              filepath_Join := fun d f => (d ++ "/" ++ f)%string |}
           "" no_blanks scheme_of cfg0 eq_refl).
Defined.

(** ** get.go: the listing commands *)

Lemma executeGitLabAPIRequest_first_attempt :
  forall url_ok baseURL token resource status j later,
    url_ok (Sprintf "%s/api/v4/%s?per_page=%d" [baseURL; resource; itoa defaultPerPage])
    = true ->
    executeGitLabAPIRequest url_ok baseURL token resource (answer 200 status j :: later)
    = {| result := Ret (decode j);
         events := [Sent {| ClientTransport := None; ClientTimeout := 30 * Second |}
                      (listing_request baseURL token resource) (answer 200 status j)];
         rest := later |}.
Proof.
  intros url_ok baseURL token resource status j later Hurl.
  unfold executeGitLabAPIRequest. change (Z.to_nat maxRetries) with 3%nat.
  cbn [executeGitLabAPIRequest_for]. unfold http_NewRequest. rewrite Hurl.
  cbv zeta. cbn [Z.ltb Z.compare]. rewrite bind_ret.
  unfold answer. rewrite bind_client_Do. reflexivity.
Qed.

(** X6. [get projects] without [--group] lists the projects of the source
    instance, with the source token, whatever [--destination] says, yet
    the default snapshot name follows the flag; [get groups] lists the
    groups of the instance the flag selects. When the listing is answered
    200 with a JSON document and the file can be written, the run is one
    [per_page=100] request, the snapshot holding that document re-encoded,
    written to [--output] or to the default name, and the line that tells
    so. On any replies, both
    commands send nothing but that listing request, through a client that
    verifies the server certificate, and write no file but the
    snapshot. *)
Theorem get_listing_targets :
  (forall url_ok flags host outputFile config status j later,
      host_loadConfig host = Ok config ->
      groupID flags = EmptyString ->
      (forall dir, host_MkdirAll host dir = None) ->
      (forall path, host_Create host path = None) ->
      url_ok (Sprintf "%s/api/v4/%s?per_page=%d"
                [SourceBaseURL config; "projects"; itoa defaultPerPage]) = true ->
      let path :=
        if String.eqb outputFile "" then
          if isDestination flags then "data/d-gitlab_get_projects.json"
          else "data/s-gitlab_get_projects.json"
        else outputFile in
      getProjectsCmd url_ok flags host outputFile (answer 200 status j :: later)
      = {| result := Ret tt;
           events :=
             [Sent {| ClientTransport := None; ClientTimeout := 30 * Second |}
                (listing_request (SourceBaseURL config) (SourceAccessToken config)
                   "projects")
                (answer 200 status j);
              Written path (canonical j);
              Logged "Successfully saved output to %s" [AString path]];
           rest := later |}) /\
  (forall url_ok flags host outputFile config status j later,
      host_loadConfig host = Ok config ->
      (forall dir, host_MkdirAll host dir = None) ->
      (forall path, host_Create host path = None) ->
      let baseURL :=
        if isDestination flags then DestinationBaseURL config else SourceBaseURL config in
      let token :=
        if isDestination flags then DestinationAccessToken config
        else SourceAccessToken config in
      url_ok (Sprintf "%s/api/v4/%s?per_page=%d" [baseURL; "groups"; itoa defaultPerPage])
      = true ->
      let path :=
        if String.eqb outputFile "" then
          if isDestination flags then "data/d-gitlab_get_groups.json"
          else "data/s-gitlab_get_groups.json"
        else outputFile in
      getGroupsCmd url_ok flags host outputFile (answer 200 status j :: later)
      = {| result := Ret tt;
           events :=
             [Sent {| ClientTransport := None; ClientTimeout := 30 * Second |}
                (listing_request baseURL token "groups") (answer 200 status j);
              Written path (canonical j);
              Logged "Successfully saved output to %s" [AString path]];
           rest := later |}) /\
  (forall url_ok flags host outputFile config,
      host_loadConfig host = Ok config ->
      groupID flags = EmptyString ->
      emits (listing_run_event (SourceBaseURL config) (SourceAccessToken config) "projects"
               (if String.eqb outputFile "" then
                  if isDestination flags then "data/d-gitlab_get_projects.json"
                  else "data/s-gitlab_get_projects.json"
                else outputFile))
        (getProjectsCmd url_ok flags host outputFile)) /\
  (forall url_ok flags host outputFile config,
      host_loadConfig host = Ok config ->
      emits (listing_run_event
               (if isDestination flags then DestinationBaseURL config
                else SourceBaseURL config)
               (if isDestination flags then DestinationAccessToken config
                else SourceAccessToken config)
               "groups"
               (if String.eqb outputFile "" then
                  if isDestination flags then "data/d-gitlab_get_groups.json"
                  else "data/s-gitlab_get_groups.json"
                else outputFile))
        (getGroupsCmd url_ok flags host outputFile)).
Proof.
  split; [| split; [| split]].
  - intros url_ok flags host outputFile config status j later Hconfig Hgroup Hmkdir Hcreate
           Hurl path.
    unfold getProjectsCmd, EnsureDataDir, saveOutputToFile.
    rewrite Hconfig, Hgroup. cbn [nonempty String.eqb negb].
    erewrite bind_Ret by (apply executeGitLabAPIRequest_first_attempt; exact Hurl).
    rewrite !Hmkdir, Hcreate, Marshal_decode. run_steps.
    subst path. unfold prepend, ret. cbn [result events rest app].
    destruct (String.eqb outputFile ""), (isDestination flags); reflexivity.
  - intros url_ok flags host outputFile config status j later Hconfig Hmkdir Hcreate
           baseURL token Hurl path.
    unfold getGroupsCmd, EnsureDataDir, saveOutputToFile.
    rewrite Hconfig. cbv zeta.
    erewrite bind_Ret by (apply executeGitLabAPIRequest_first_attempt; exact Hurl).
    rewrite !Hmkdir, Hcreate, Marshal_decode. run_steps.
    subst path baseURL token. unfold prepend, ret. cbn [result events rest app].
    destruct (String.eqb outputFile ""), (isDestination flags); reflexivity.
  - intros url_ok flags host outputFile config Hconfig Hgroup.
    unfold getProjectsCmd, saveOutputToFile. rewrite Hconfig, Hgroup. cbn [nonempty String.eqb negb].
    apply emits_bind.
    + apply executeGitLabAPIRequest_emits; intros; simpl; auto.
    + intros projects.
      destruct (String.eqb outputFile ""), (isDestination flags);
        repeat emits_step; try exact I; reflexivity.
  - intros url_ok flags host outputFile config Hconfig.
    unfold getGroupsCmd, saveOutputToFile. rewrite Hconfig. cbv zeta.
    apply emits_bind.
    + apply executeGitLabAPIRequest_emits; intros; simpl; auto.
    + intros groups.
      destruct (String.eqb outputFile ""), (isDestination flags);
        repeat emits_step; try exact I; reflexivity.
Qed.

(** [get projects -d]: the request goes to the source, the snapshot is
    named for the destination and holds the listing. *)
Lemma get_projects_with_destination_flag :
  let flags := {| isDestination := true; groupID := ""; projectID := ""; recursive := false;
                  isSource := false; destinationGroupID := ""; destinationProjectID := "" |} in
  let r := getProjectsCmd all_urls_parse flags host0 ""
             [answer 200 "200 OK" (JArr [JObj [("id", JNum 1)]])] in
  result r = Ret tt /\
  map URL (requests (events r)) = ["https://src/api/v4/projects?per_page=100"] /\
  snapshots (events r)
  = [("data/d-gitlab_get_projects.json", JArr [JObj [("id", JNum 1)]])] /\
  Forall (listing_run_event "https://src" "st" "projects" "data/d-gitlab_get_projects.json")
    (events r).
Proof.
  cbv zeta.
  rewrite (proj1 get_listing_targets all_urls_parse
             {| isDestination := true; groupID := ""; projectID := ""; recursive := false;
                isSource := false; destinationGroupID := ""; destinationProjectID := "" |}
             host0 "" cfg0 "200 OK" (JArr [JObj [("id", JNum 1)]]) []
             eq_refl eq_refl (fun _ => eq_refl) (fun _ => eq_refl) eq_refl).
  split; [reflexivity |]. split; [reflexivity |]. split; [reflexivity |].
  repeat constructor.
Defined.

Lemma bind_client_Do_nil : forall (B : Type) c req (f : Result Response -> M B),
  bind (client_Do c req) f [] = {| result := Blocked; events := []; rest := [] |}.
Proof. reflexivity. Qed.

Lemma pauses_app : forall ev1 ev2,
  filter is_pause (ev1 ++ ev2) = filter is_pause ev1 ++ filter is_pause ev2.
Proof. intros. apply filter_app. Qed.

Lemma executeGitLabAPIRequest_for_bounds :
  forall url_ok left retry client baseURL token resource script,
    0 <= retry ->
    let r := executeGitLabAPIRequest_for url_ok left retry client baseURL token resource
               script in
    (List.length (requests (events r)) <= left)%nat /\
    (List.length (filter is_pause (events r))
     <= if (0 <? retry)%Z then left else pred left)%nat /\
    Forall (fun e => is_pause e = true -> e = Slept retryDelay) (events r).
Proof.
  intros url_ok left. induction left as [|left IH];
    intros retry client baseURL token resource script Hretry; cbv zeta.
  - simpl. repeat split; [lia | destruct (0 <? retry); simpl; lia |].
    repeat constructor; discriminate.
  - cbn [executeGitLabAPIRequest_for]. cbv zeta. unfold http_NewRequest.
    assert (Hpos : (0 <? retry + 1) = true) by (apply Z.ltb_lt; lia).
    assert (Hnext : forall p,
               let r := executeGitLabAPIRequest_for url_ok left (retry + 1) client
                          baseURL token resource p in
               (List.length (requests (events r)) <= left)%nat /\
               (List.length (filter is_pause (events r)) <= left)%nat /\
               Forall (fun e => is_pause e = true -> e = Slept retryDelay) (events r)).
    { intros p. specialize (IH (retry + 1) client baseURL token resource p (ltac:(lia))).
      cbv zeta in IH. rewrite Hpos in IH. exact IH. }
    clear IH.
    destruct (0 <? retry);
      (destruct (url_ok _);
       [ destruct script as [|a script];
         [ run_steps; rewrite ?bind_client_Do_nil
         | run_steps; destruct a as [e | resp];
           [ | destruct (negb (StatusCode resp =? StatusOK));
               [ destruct (retry =? maxRetries - 1)
               | destruct (json_Decode_any (RespBody resp)) ] ] ]
       | ]);
      run_steps;
      try (destruct (Hnext script) as (Hq & Hp & Hs));
      unfold prepend, ret; cbn [events result rest];
      rewrite ?requests_app, ?pauses_app, ?Forall_app;
      cbn [requests flat_map filter is_pause app List.length];
      repeat split; try lia;
      repeat (apply Forall_cons; [first [discriminate | reflexivity | intros _; reflexivity] |]);
      try assumption; try apply Forall_nil.
Qed.

(** X7. The retry budget of [executeGitLabAPIRequest] is a hard cap: on any
    sequence of replies whatever it sends at most three requests and
    pauses at most twice, each pause being two seconds, and it never
    panics. *)
Theorem executeGitLabAPIRequest_at_most_three :
  forall url_ok baseURL token resource script,
    let r := executeGitLabAPIRequest url_ok baseURL token resource script in
    (List.length (requests (events r)) <= 3)%nat /\
    (List.length (filter is_pause (events r)) <= 2)%nat /\
    Forall (fun e => is_pause e = true -> e = Slept (2 * 1000000000)) (events r) /\
    (forall msg, result r <> Panic msg).
Proof.
  intros url_ok baseURL token resource script. cbv zeta.
  unfold executeGitLabAPIRequest.
  destruct (executeGitLabAPIRequest_for_bounds url_ok (Z.to_nat maxRetries) 0
              {| ClientTransport := None; ClientTimeout := 30 * Second |}
              baseURL token resource script (ltac:(lia))) as (Hq & Hp & Hs).
  repeat split; try assumption.
  intros msg. clear Hq Hp Hs.
  change (Z.to_nat maxRetries) with 3%nat.
  generalize 0 script. generalize 3%nat.
  induction n as [|left IH]; intros retry p; cbn [executeGitLabAPIRequest_for].
  - run_steps. discriminate.
  - cbv zeta. unfold http_NewRequest.
    destruct (0 <? retry);
      (destruct (url_ok _);
       [ destruct p as [|a p];
         [ run_steps; rewrite ?bind_client_Do_nil
         | run_steps; destruct a as [e | resp];
           [ | destruct (negb (StatusCode resp =? StatusOK));
               [ destruct (retry =? maxRetries - 1)
               | destruct (json_Decode_any (RespBody resp)) ] ] ]
       | ]);
      run_steps; unfold prepend, ret; cbn [result]; try discriminate; apply IH.
Qed.

(** ** Maps as sorted association lists *)

Lemma ascii_compare_refl : forall a, Ascii.compare a a = Eq.
Proof. intros a. unfold Ascii.compare. apply N.compare_refl. Qed.

Lemma ascii_compare_trans : forall a b c,
  Ascii.compare a b = Lt -> Ascii.compare b c = Lt -> Ascii.compare a c = Lt.
Proof.
  unfold Ascii.compare. intros a b c H1 H2.
  rewrite N.compare_lt_iff in *. eapply N.lt_trans; eassumption.
Qed.

Lemma string_compare_trans : forall a b c,
  String.compare a b = Lt -> String.compare b c = Lt -> String.compare a c = Lt.
Proof.
  induction a as [|x a IH]; intros [|y b] [|z c] H1 H2; simpl in *;
    try discriminate; try reflexivity.
  destruct (Ascii.compare x y) eqn:Hxy; try discriminate;
    destruct (Ascii.compare y z) eqn:Hyz; try discriminate.
  - apply Ascii.compare_eq_iff in Hxy, Hyz. subst.
    rewrite ascii_compare_refl. eapply IH; eassumption.
  - apply Ascii.compare_eq_iff in Hxy. subst. rewrite Hyz. reflexivity.
  - apply Ascii.compare_eq_iff in Hyz. subst. rewrite Hxy. reflexivity.
  - rewrite (ascii_compare_trans _ _ _ Hxy Hyz). reflexivity.
Qed.

Lemma string_compare_Gt : forall a b, String.compare a b = Gt -> String.compare b a = Lt.
Proof.
  intros a b H. rewrite String.compare_antisym, H. reflexivity.
Qed.

Lemma map_set_entries : forall (V : Type) k (v : V) m kv,
  In kv (map_set k v m) -> kv = (k, v) \/ In kv m.
Proof.
  intros V k v m kv. induction m as [|[k1 x] m IH]; cbn [map_set].
  - simpl. intuition.
  - destruct (String.compare k k1).
    + simpl. intuition.
    + simpl. intuition.
    + cbn [In]. intros [E | H]; [right; left; exact E |].
      destruct (IH H) as [? | ?]; [left; assumption | right; right; assumption].
Qed.

(** Assignment keeps the keys of a map strictly ascending. *)
Lemma map_set_ascends : forall (V : Type) k (v : V) m,
  keys_ascend m -> keys_ascend (map_set k v m).
Proof.
  intros V k v m. induction m as [|[k1 x] m IH]; intros Hm; cbn [map_set].
  - simpl. split; constructor.
  - destruct Hm as [Hhead Htail]. destruct (String.compare k k1) eqn:C.
    + apply String.compare_eq_iff in C. subst k1. split; assumption.
    + split; [| split; assumption].
      constructor; [exact C |].
      eapply Forall_impl; [| exact Hhead]. intros kv H.
      eapply string_compare_trans; eassumption.
    + split; [| apply IH; exact Htail].
      apply Forall_forall. intros kv Hin.
      destruct (map_set_entries _ _ _ _ _ Hin) as [-> | Hin'].
      * simpl. apply string_compare_Gt. exact C.
      * rewrite Forall_forall in Hhead. apply Hhead. exact Hin'.
Qed.

(** Assigning a key above all the keys of the map adds it at the end. *)
Lemma map_set_above : forall (V : Type) k (v : V) m,
  Forall (fun kv => String.compare (fst kv) k = Lt) m ->
  map_set k v m = m ++ [(k, v)].
Proof.
  intros V k v m. induction m as [|[k1 x] m IH]; intros H; cbn [map_set].
  - reflexivity.
  - inversion H as [|? ? H1 Hm]; subst. simpl in H1.
    rewrite String.compare_antisym, H1. simpl. rewrite IH by exact Hm. reflexivity.
Qed.

Lemma fold_map_set_ascending : forall (V W : Type) (f : V -> W) m acc,
  keys_ascend m ->
  Forall (fun kv => Forall (fun kv' => String.compare (fst kv) (fst kv') = Lt) m) acc ->
  fold_left (fun a kv => map_set (fst kv) (f (snd kv)) a) m acc
  = acc ++ map (fun kv => (fst kv, f (snd kv))) m.
Proof.
  intros V W f m. induction m as [|[k x] m IH]; intros acc Hm Hacc; cbn [fold_left map].
  - rewrite app_nil_r. reflexivity.
  - destruct Hm as [Hhead Htail]. cbn [fst snd].
    rewrite map_set_above.
    + rewrite IH; [rewrite <- app_assoc; reflexivity | exact Htail |].
      apply Forall_app. split.
      * eapply Forall_impl; [| exact Hacc]. intros kv H.
        inversion H; subst; assumption.
      * constructor; [exact Hhead | constructor].
    + eapply Forall_impl; [| exact Hacc]. intros kv H.
      inversion H; subst; assumption.
Qed.

Lemma canonical_fields_ascend : forall kvs acc,
  keys_ascend acc ->
  keys_ascend (fold_left (fun m kv => map_set (fst kv) (canonical (snd kv)) m) kvs acc).
Proof.
  induction kvs as [|kv kvs IH]; intros acc Hacc; cbn [fold_left]; [exact Hacc |].
  apply IH, map_set_ascends, Hacc.
Qed.

(** Encoding a document a second time changes nothing. *)
Lemma canonical_idempotent : forall j, canonical (canonical j) = canonical j.
Proof.
  induction j as [| b | n | s | l IH | kvs IH] using JSON_nested_ind; try reflexivity.
  - cbn [canonical]. rewrite ParseFloat_FormatFloat. reflexivity.
  - cbn [canonical]. f_equal. rewrite map_map.
    induction IH as [|x l Hx _ IHl]; [reflexivity |]. cbn [map]. rewrite Hx, IHl.
    reflexivity.
  - cbn [canonical]. f_equal.
    set (m := fold_left (fun m kv => map_set (fst kv) (canonical (snd kv)) m) kvs []).
    rewrite (fold_map_set_ascending _ _ canonical m []);
      [| apply canonical_fields_ascend; exact I | constructor].
    cbn [app].
    assert (Hvalues : forall k v, In (k, v) m -> canonical v = v).
    { intros k v Hin.
      destruct (proj2 (canonical_fields_same kvs) k v Hin) as (v0 & Hin0 & ->).
      rewrite Forall_forall in IH. apply (IH (k, v0) Hin0). }
    clearbody m. induction m as [|[k v] m IHm]; [reflexivity |].
    cbn [map fst snd]. rewrite (Hvalues k v) by (left; reflexivity).
    rewrite IHm; [reflexivity |]. intros k' v' Hin. apply (Hvalues k' v'). right. exact Hin.
Qed.

(** ** set.go: the command *)

Lemma payloads_of_decoded : forall js, payloads (map decode js) = map canonical js.
Proof.
  induction js as [|j js IH]; [reflexivity |].
  unfold payloads in *. cbn [map flat_map]. rewrite Marshal_decode, IH. reflexivity.
Qed.

Lemma outcomes_of_decoded : forall js replies,
  List.length replies = List.length js ->
  outcomes (map decode js) replies = map accepted replies.
Proof.
  induction js as [|j js IH]; intros [|a replies] Hlen; try discriminate; [reflexivity |].
  cbn [map outcomes]. rewrite Marshal_decode, IH by (simpl in Hlen; lia). reflexivity.
Qed.

Lemma createVariables_of_decoded :
  forall (create : list GoVal -> M unit) url token js replies later,
    continues_past_failures create url token ->
    List.length replies = List.length js ->
    let r := create (map decode js) (replies ++ later) in
    result r = Ret tt /\
    rest r = later /\
    requests (events r) = map (fun j => creation_request url token (canonical j)) js /\
    reports (events r) = map accepted replies.
Proof.
  intros create url token js replies later Hcreate Hlen.
  assert (Hlen' : List.length replies = List.length (payloads (map decode js)))
    by (rewrite payloads_of_decoded, length_map; exact Hlen).
  destruct (Hcreate (map decode js) replies later Hlen') as (R & P & Q & _ & O).
  cbv zeta. repeat split; try assumption.
  - rewrite Q, payloads_of_decoded, map_map. reflexivity.
  - rewrite O. apply outcomes_of_decoded. exact Hlen.
Qed.

(** X8. [set variables] with one destination posts every element of the
    JSON array in the input file, in order and whatever kind of value it
    is, to that project (or, without [--recursive], to that group): one
    request per element, its body the element re-encoded, and one report
    line per element telling whether its reply was accepted. *)
Theorem setVariablesCmd_posts_the_file :
  forall url_ok host files input order fuel config (fromDest : bool) gid pid
         (deep toSource : bool) d js replies later,
    nonempty d = true ->
    input <> EmptyString ->
    host_loadConfig host = Ok config ->
    file_open files input = Ok (Readable (JSONText (JArr js))) ->
    List.length replies = List.length js ->
    let baseUrl := if toSource then SourceBaseURL config else DestinationBaseURL config in
    let token :=
      if toSource then SourceAccessToken config else DestinationAccessToken config in
    (let flags :=
       {| isDestination := fromDest; groupID := gid; projectID := pid; recursive := deep;
          isSource := toSource; destinationGroupID := ""; destinationProjectID := d |} in
     let url := Sprintf "%s/api/v4/projects/%s/variables" [baseUrl; d] in
     url_ok url = true ->
     let r := setVariablesCmd url_ok flags host files input order fuel (replies ++ later) in
     result r = Ret tt /\
     rest r = later /\
     requests (events r) = map (fun j => creation_request url token (canonical j)) js /\
     reports (events r) = map accepted replies) /\
    (let flags :=
       {| isDestination := fromDest; groupID := gid; projectID := pid; recursive := false;
          isSource := toSource; destinationGroupID := d; destinationProjectID := "" |} in
     let url := Sprintf "%s/api/v4/groups/%s/variables" [baseUrl; d] in
     url_ok url = true ->
     let r := setVariablesCmd url_ok flags host files input order fuel (replies ++ later) in
     result r = Ret tt /\
     rest r = later /\
     requests (events r) = map (fun j => creation_request url token (canonical j)) js /\
     reports (events r) = map accepted replies).
Proof.
  intros url_ok host files input order fuel config fromDest gid pid deep toSource d js
         replies later Hd Hinput Hconfig Hfile Hlen baseUrl token.
  split; intros flags url Hurl;
    unfold setVariablesCmd, readInputFile; rewrite Hconfig, Hfile;
    (destruct (String.eqb_spec input "") as [E | _]; [contradiction |]);
    cbn [destinationProjectID destinationGroupID recursive flags io_ReadAll
         json_Unmarshal_list nonempty String.eqb negb andb orb];
    rewrite Hd; cbn [negb andb orb].
  - apply createVariables_of_decoded; [| exact Hlen].
    apply createVariablesForProject_range_continues. exact Hurl.
  - apply createVariables_of_decoded; [| exact Hlen].
    apply createVariablesForGroup_range_continues. exact Hurl.
Qed.

(** A file with an object, a string and a number, posted to project 8; the
    second creation is refused. *)
Lemma setVariablesCmd_on_mixed_file :
  let doc := JArr [JObj [("key", JStr "A")]; JStr "odd"; JNum 3] in
  let replies := [created; answer 422 "422 Unprocessable Entity" JNull; created] in
  let r := setVariablesCmd all_urls_parse (project_flags "" "8") host0 (files_with doc)
             "in.json" as_listed 1 (replies ++ [created]) in
  result r = Ret tt /\
  rest r = [created] /\
  map ReqBody (requests (events r))
  = [Some (JSONText (JObj [("key", JStr "A")])); Some (JSONText (JStr "odd"));
     Some (JSONText (JNum 3))] /\
  reports (events r) = [true; false; true].
Proof.
  cbv zeta. unfold project_flags.
  destruct (proj1 (setVariablesCmd_posts_the_file all_urls_parse host0
                     (files_with (JArr [JObj [("key", JStr "A")]; JStr "odd"; JNum 3]))
                     "in.json" as_listed 1 cfg0 false "" "" false false "8"
                     [JObj [("key", JStr "A")]; JStr "odd"; JNum 3]
                     [created; answer 422 "422 Unprocessable Entity" JNull; created]
                     [created]
                     eq_refl ltac:(discriminate) eq_refl eq_refl eq_refl) eq_refl)
    as (R & P & Q & S).
  split; [exact R |]. split; [exact P |].
  split; [rewrite Q; reflexivity | rewrite S; reflexivity].
Defined.

Lemma snapshots_app : forall ev1 ev2, snapshots (ev1 ++ ev2) = snapshots ev1 ++ snapshots ev2.
Proof. intros. apply flat_map_app. Qed.

Lemma creations_of_posts : forall (A : Type) url token (body : A -> JSON) l,
  filter (fun q => String.eqb (Method q) "POST")
    (map (fun x => creation_request url token (body x)) l)
  = map (fun x => creation_request url token (body x)) l.
Proof.
  intros A url token body l. induction l as [|x l IH]; [reflexivity |].
  cbn [map filter]. rewrite IH. reflexivity.
Qed.

(** The run of [migrate variables] in project mode. *)
Lemma migrateVariablesCmd_project_run :
  forall url_ok host order fuel config pid dpid dgid deep records replies later,
    let flags :=
      {| isDestination := false; groupID := ""; projectID := pid; recursive := deep;
         isSource := false; destinationGroupID := dgid; destinationProjectID := dpid |} in
    let source_url :=
      Sprintf "%s/api/v4/projects/%s/variables" [SourceBaseURL config; pid] in
    let target_url :=
      Sprintf "%s/api/v4/projects/%s/variables" [DestinationBaseURL config; dpid] in
    nonempty pid = true ->
    nonempty dpid = true ->
    host_loadConfig host = Ok config ->
    (forall dir, host_MkdirAll host dir = None) ->
    (forall path, host_Create host path = None) ->
    url_ok source_url = true ->
    url_ok target_url = true ->
    List.length replies = List.length records ->
    let r := migrateVariablesCmd url_ok flags host order fuel
               (page_reply records :: replies ++ later) in
    result r = Ret tt /\
    rest r = later /\
    requests (events r)
    = {| Method := "GET"; URL := source_url;
         Header := [("PRIVATE-TOKEN", SourceAccessToken config)]; ReqBody := None |}
      :: map (fun fields =>
                creation_request target_url (DestinationAccessToken config)
                  (canonical (JObj fields)))
           records.
Proof.
  intros url_ok host order fuel config pid dpid dgid deep records replies later flags
         source_url target_url Hpid Hdpid Hconfig Hmkdir Hcreate Hsource Htarget Hlen r.
  assert (Hlen' : List.length replies
                  = List.length (payloads (interfaceVars (map decode_record records)))).
  { rewrite payloads_of_records, length_map. exact Hlen. }
  destruct (createVariablesForProject_range_continues url_ok dpid target_url
              (DestinationAccessToken config) Htarget
              (interfaceVars (map decode_record records)) replies later Hlen')
    as (R & P & Q & _).
  subst r. unfold migrateVariablesCmd, EnsureDataDir, saveOutputToFile.
  cbn [groupID projectID destinationGroupID destinationProjectID recursive flags].
  rewrite Hpid, Hdpid, Hconfig, !Hmkdir, Hcreate.
  cbn [nonempty String.eqb negb andb orb]. rewrite andb_false_r.
  rewrite bind_assoc.
  erewrite bind_Ret by (apply getVariablesForProject_page; exact Hsource).
  rewrite bind_ret. cbn [SourceVars_value]. rewrite Marshal_records.
  run_steps.
  erewrite bind_result_Ret by exact R.
  unfold prepend, createVariablesForProject, emit.
  cbn [result events rest isSource flags].
  fold target_url. rewrite P.
  split; [reflexivity |]. split; [reflexivity |].
  rewrite !requests_app. cbn [requests flat_map app]. rewrite app_nil_r.
  f_equal. etransitivity; [exact Q |]. rewrite payloads_of_records, map_map. reflexivity.
Qed.

(** The run of [get variables] on a project. *)
Lemma getVariablesCmd_project_run :
  forall url_ok host output config pid records later,
    let flags :=
      {| isDestination := false; groupID := ""; projectID := pid; recursive := false;
         isSource := false; destinationGroupID := ""; destinationProjectID := "" |} in
    nonempty pid = true ->
    host_loadConfig host = Ok config ->
    (forall dir, host_MkdirAll host dir = None) ->
    (forall path, host_Create host path = None) ->
    url_ok (Sprintf "%s/api/v4/projects/%s/variables" [SourceBaseURL config; pid]) = true ->
    let r := getVariablesCmd url_ok flags host output (page_reply records :: later) in
    result r = Ret tt /\
    rest r = later /\
    snapshots (events r)
    = [(if String.eqb output "" then GenerateOutputFileName "variables" "" pid false false
        else output,
        JArr (map (fun fields => canonical (JObj fields)) records))].
Proof.
  intros url_ok host output config pid records later flags Hpid Hconfig Hmkdir Hcreate
         Hurl r.
  subst r. unfold getVariablesCmd, EnsureDataDir, saveOutputToFile.
  cbn [groupID projectID recursive isDestination flags].
  rewrite Hpid, Hconfig, !Hmkdir, Hcreate.
  cbn [nonempty String.eqb negb andb orb]. cbv zeta.
  erewrite bind_Ret by (apply getVariablesForProject_page; exact Hurl).
  rewrite Marshal_records. run_steps.
  unfold prepend, ret. cbn [result events rest].
  repeat split.
Qed.

(** The run of [set variables -P] on a file holding a JSON array. *)
Lemma setVariablesCmd_project_replay :
  forall url_ok host files input order fuel config d js replies later,
    nonempty d = true ->
    input <> EmptyString ->
    host_loadConfig host = Ok config ->
    file_open files input = Ok (Readable (JSONText (JArr js))) ->
    List.length replies = List.length js ->
    url_ok (Sprintf "%s/api/v4/projects/%s/variables" [DestinationBaseURL config; d])
    = true ->
    let flags :=
      {| isDestination := false; groupID := ""; projectID := ""; recursive := false;
         isSource := false; destinationGroupID := ""; destinationProjectID := d |} in
    let r := setVariablesCmd url_ok flags host files input order fuel (replies ++ later) in
    result r = Ret tt /\
    rest r = later /\
    requests (events r)
    = map (fun j =>
             creation_request
               (Sprintf "%s/api/v4/projects/%s/variables" [DestinationBaseURL config; d])
               (DestinationAccessToken config) (canonical j)) js.
Proof.
  intros url_ok host files input order fuel config d js replies later Hd Hinput Hconfig
         Hfile Hlen Hurl flags.
  unfold setVariablesCmd, readInputFile. rewrite Hconfig, Hfile.
  destruct (String.eqb_spec input "") as [E | _]; [contradiction |].
  cbn [destinationProjectID destinationGroupID recursive flags io_ReadAll
       json_Unmarshal_list nonempty String.eqb negb andb orb].
  rewrite Hd. cbn [negb andb orb].
  destruct (createVariables_of_decoded
              (createVariablesForProject url_ok flags config d)
              (Sprintf "%s/api/v4/projects/%s/variables" [DestinationBaseURL config; d])
              (DestinationAccessToken config) js replies later
              (createVariablesForProject_range_continues url_ok d _ _ Hurl) Hlen)
    as (R & P & Q & _).
  repeat split; assumption.
Qed.

(** X9. Replaying a snapshot is migrating: the file [get variables -p]
    writes for a project holds the fetched records re-encoded, and
    [set variables -P] on that file sends exactly the creation requests
    that [migrate variables -p -P] sends when it fetches the same
    records. *)
Theorem snapshot_replay_is_migration :
  forall url_ok host files order order' fuel config pid d output input records
         replies later,
    nonempty pid = true ->
    nonempty d = true ->
    input <> EmptyString ->
    host_loadConfig host = Ok config ->
    (forall dir, host_MkdirAll host dir = None) ->
    (forall path, host_Create host path = None) ->
    url_ok (Sprintf "%s/api/v4/projects/%s/variables" [SourceBaseURL config; pid]) = true ->
    url_ok (Sprintf "%s/api/v4/projects/%s/variables" [DestinationBaseURL config; d])
    = true ->
    List.length replies = List.length records ->
    let flags p P :=
      {| isDestination := false; groupID := ""; projectID := p; recursive := false;
         isSource := false; destinationGroupID := ""; destinationProjectID := P |} in
    let got := getVariablesCmd url_ok (flags pid "") host output
                 (page_reply records :: later) in
    let migrated := migrateVariablesCmd url_ok (flags pid d) host order fuel
                      (page_reply records :: replies ++ later) in
    exists path doc,
      snapshots (events got) = [(path, doc)] /\
      (file_open files input = Ok (Readable (JSONText doc)) ->
       let replayed := setVariablesCmd url_ok (flags "" d) host files input order' fuel
                         (replies ++ later) in
       result replayed = Ret tt /\
       requests (events replayed) = creations (events migrated) /\
       rest replayed = rest migrated).
Proof.
  intros url_ok host files order order' fuel config pid d output input records replies
         later Hpid Hd Hinput Hconfig Hmkdir Hcreate Hsource Htarget Hlen flags got migrated.
  destruct (getVariablesCmd_project_run url_ok host output config pid records later
              Hpid Hconfig Hmkdir Hcreate Hsource) as (_ & _ & S).
  destruct (migrateVariablesCmd_project_run url_ok host order fuel config pid d "" false
              records replies later Hpid Hd Hconfig Hmkdir Hcreate Hsource Htarget Hlen)
    as (_ & P & Q).
  eexists. eexists. split; [exact S |]. intros Hfile replayed.
  assert (Hlen' : List.length replies
                  = List.length (map (fun fields => canonical (JObj fields)) records))
    by (rewrite length_map; exact Hlen).
  destruct (setVariablesCmd_project_replay url_ok host files input order' fuel config
              d (map (fun fields => canonical (JObj fields)) records) replies later
              Hd Hinput Hconfig Hfile Hlen' Htarget) as (R' & P' & Q').
  subst replayed migrated flags. cbv beta.
  split; [exact R' |]. split; [| rewrite P', P; reflexivity].
  unfold creations. rewrite Q, Q'. cbn [filter Method String.eqb Ascii.eqb Bool.eqb].
  rewrite creations_of_posts, map_map.
  apply map_ext. intros fields. rewrite canonical_idempotent. reflexivity.
Qed.

(** Project 7 holds one variable: [get variables -p 7] writes it to a
    snapshot, and [set variables -P 8] on that snapshot sends the request
    that [migrate variables -p 7 -P 8] sends. *)
Lemma replay_of_one_variable :
  let record := [("key", JStr "DB_URL"); ("value", JStr "s3cret")] in
  let got := getVariablesCmd all_urls_parse (project_flags "7" "") host0 "out.json"
               [page_reply [record]] in
  let replayed := setVariablesCmd all_urls_parse (project_flags "" "8") host0
                    (files_with (JArr [JObj record])) "out.json" as_listed 1 [created] in
  let migrated := migrateVariablesCmd all_urls_parse (project_flags "7" "8") host0
                    as_listed 1 [page_reply [record]; created] in
  snapshots (events got) = [("out.json", JArr [JObj record])] /\
  result replayed = Ret tt /\
  requests (events replayed) = creations (events migrated) /\
  List.length (requests (events replayed)) = 1%nat.
Proof.
  cbv zeta. unfold project_flags.
  destruct (snapshot_replay_is_migration all_urls_parse host0
              (files_with (JArr [JObj [("key", JStr "DB_URL"); ("value", JStr "s3cret")]]))
              as_listed as_listed 1 cfg0 "7" "8" "out.json" "out.json"
              [[("key", JStr "DB_URL"); ("value", JStr "s3cret")]] [created] []
              eq_refl eq_refl ltac:(discriminate) eq_refl (fun _ => eq_refl)
              (fun _ => eq_refl) eq_refl eq_refl eq_refl)
    as (path & doc & Hsnapshot & Hreplay).
  assert (Hdoc : doc = JArr [JObj [("key", JStr "DB_URL"); ("value", JStr "s3cret")]]).
  { vm_compute in Hsnapshot. inversion Hsnapshot. reflexivity. }
  subst doc.
  destruct (Hreplay eq_refl) as (R & Q & _).
  split; [reflexivity |]. split; [exact R |]. split; [exact Q | reflexivity].
Defined.

Lemma setVariables_range_app :
  forall url_ok flags config projects before after script,
    setVariables_range url_ok flags config projects (before ++ after) script
    = (setVariables_range url_ok flags config projects before ;;
       setVariables_range url_ok flags config projects after) script.
Proof.
  intros url_ok flags config projects before after.
  induction before as [|[key projectData] before IH]; intros script.
  - simpl. rewrite bind_ret. reflexivity.
  - cbn [app setVariables_range]. cbv zeta.
    destruct (index projectData "project_name");
      try (rewrite bind_assoc; apply bind_ext; intros; apply IH).
    rewrite bind_assoc. apply bind_ext. intros d p'.
    destruct (d =? 0).
    + rewrite bind_assoc. apply bind_ext. intros; apply IH.
    + destruct (index projectData "variables");
        try (rewrite bind_assoc; apply bind_ext; intros; apply IH).
Qed.

(** X10. In [set variables --recursive] an entry of the input map is
    passed over with one error line, and the loop goes on, when it has no
    string [project_name] (a null entry included), when its name resolves
    to 0, or when its [variables] member is not an array (null included):
    the run sends the same requests, reads the same replies and ends the
    same way as without the entry. *)
Theorem set_recursive_passes_over :
  forall url_ok flags config projects before key projectData after script,
    (forall name, index projectData "project_name" <> VString name) \/
    (exists name,
        index projectData "project_name" = VString name /\
        (forall p, findProjectIDByExactName projects name p = ret 0 p)) \/
    (exists name d,
        index projectData "project_name" = VString name /\
        (forall p, findProjectIDByExactName projects name p = ret d p) /\
        d <> 0 /\
        (forall variables, index projectData "variables" <> VSlice variables)) ->
    let range := setVariables_range url_ok flags config projects in
    let with_entry := range (before ++ (key, projectData) :: after) script in
    let without := range (before ++ after) script in
    (exists format args,
        forall p, range ((key, projectData) :: after) p
                  = prepend [Printed format args] (range after p)) /\
    requests (events with_entry) = requests (events without) /\
    result with_entry = result without /\
    rest with_entry = rest without.
Proof.
  intros url_ok flags config projects before key projectData after script Hskip
         range with_entry without.
  assert (Hstep : exists format args,
             forall p, range ((key, projectData) :: after) p
                       = prepend [Printed format args] (range after p)).
  { subst range. cbn [setVariables_range]. cbv zeta. unfold fmt_Printf.
    destruct Hskip as [Hname | [(name & Hname & Hmiss) | (name & d & Hname & Hfound & Hd & Hvars)]].
    - destruct (index projectData "project_name") eqn:E;
        try (eexists; eexists; intros p; rewrite bind_emit; reflexivity).
      exfalso. eapply Hname. reflexivity.
    - rewrite Hname. eexists. eexists. intros p.
      erewrite bind_Ret by (rewrite Hmiss; reflexivity).
      cbn [Z.eqb]. rewrite bind_emit, prepend_nil. reflexivity.
    - rewrite Hname.
      destruct (Z.eqb_spec d 0) as [E | _]; [contradiction |].
      destruct (index projectData "variables") eqn:E;
        try (eexists; eexists; intros p;
             erewrite bind_Ret by (rewrite Hfound; reflexivity);
             apply Z.eqb_neq in Hd; rewrite Hd, bind_emit, prepend_nil; reflexivity).
      exfalso. eapply Hvars. reflexivity. }
  split; [exact Hstep |].
  destruct Hstep as (format & args & Hstep).
  assert (Hwith : with_entry
                  = (range before ;; emit (Printed format args) ;; range after) script).
  { subst with_entry range. rewrite setVariables_range_app.
    apply bind_ext. intros _ p'. rewrite bind_emit. apply Hstep. }
  assert (Hwithout : without = (range before ;; range after) script).
  { subst without range. apply setVariables_range_app. }
  rewrite Hwith, Hwithout.
  apply requests_bind_emit. intros c q a. discriminate.
Qed.

(** An entry without a project name, between nothing and nothing. *)
Lemma set_recursive_on_nameless_entry :
  let range := setVariables_range all_urls_parse fl0 cfg0 [project_record 11 "A"] in
  let nameless : gomap := Some [("variables", VSlice [])] in
  requests (events (range [("1", nameless)] [created])) = [] /\
  result (range [("1", nameless)] [created]) = Ret tt /\
  rest (range [("1", nameless)] [created]) = [created].
Proof.
  cbv zeta.
  destruct (set_recursive_passes_over all_urls_parse fl0 cfg0 [project_record 11 "A"]
              [] "1" (Some [("variables", VSlice [])]) [] [created]
              ltac:(left; intros name H; vm_compute in H; discriminate H))
    as (_ & Q & R & P).
  split; [exact Q |]. split; [exact R | exact P].
Defined.

(** ** The guards of the commands *)

Ltac quiet :=
  unfold untouched; run_steps; unfold prepend, emit, ret;
  cbn [result events rest app requests snapshots flat_map]; repeat split.

(** X11. The commands give up before touching anything: [migrate
    variables] when the source or the destination ids are missing, when
    the configuration does not load or the data directory cannot be made;
    [set variables] when the configuration does not load, the input path is
    empty, both or neither destination are given, or the input file cannot
    be opened; [get variables] when the configuration does not load, when
    neither a group nor a project is given, and for [--recursive] on a
    project.  In each case only lines are printed: no request is sent, no
    snapshot is written, no reply is read. *)
Theorem commands_refuse_quietly :
  (forall url_ok flags host order fuel script,
      (groupID flags = EmptyString /\ projectID flags = EmptyString) \/
      (destinationGroupID flags = EmptyString /\ destinationProjectID flags = EmptyString) \/
      (exists err, host_loadConfig host = Err err) \/
      (exists err, host_MkdirAll host "data" = Some err) ->
      untouched (migrateVariablesCmd url_ok flags host order fuel script) script) /\
  (forall url_ok flags host files input order fuel script,
      (exists err, host_loadConfig host = Err err) \/
      input = EmptyString \/
      (destinationProjectID flags <> EmptyString /\ destinationGroupID flags <> EmptyString) \/
      (destinationProjectID flags = EmptyString /\ destinationGroupID flags = EmptyString) \/
      (exists err, file_open files input = Err err) ->
      untouched (setVariablesCmd url_ok flags host files input order fuel script) script) /\
  (forall url_ok flags host output script,
      (exists err, host_loadConfig host = Err err) \/
      (groupID flags = EmptyString /\ projectID flags = EmptyString) \/
      (groupID flags = EmptyString /\ recursive flags = true) ->
      untouched (getVariablesCmd url_ok flags host output script) script).
Proof.
  split; [| split].
  - intros url_ok flags host order fuel script H.
    unfold migrateVariablesCmd, EnsureDataDir, nonempty.
    destruct H as [[Hg Hp] | [[Hg Hp] | [[err H] | [err H]]]].
    + rewrite Hg, Hp. cbn [String.eqb negb andb orb]. quiet.
    + rewrite Hg, Hp. cbn [String.eqb negb andb orb]. rewrite orb_true_r. quiet.
    + rewrite H. destruct (_ || _); quiet.
    + rewrite H. destruct (_ || _); [quiet |]. destruct (host_loadConfig host); quiet.
  - intros url_ok flags host files input order fuel script H.
    unfold setVariablesCmd, readInputFile, readRecursiveIputFile, nonempty.
    destruct (host_loadConfig host) as [config | e] eqn:Hconfig; [| quiet].
    destruct (String.eqb_spec input "") as [Einput | Ninput]; [quiet |].
    destruct (String.eqb_spec (destinationProjectID flags) "") as [EP | NP];
      destruct (String.eqb_spec (destinationGroupID flags) "") as [EG | NG];
      cbn [negb andb orb]; try solve [quiet].
    + destruct H as [[err H] | [H | [[H _] | [[_ H] | [err H]]]]];
        try congruence.
      rewrite H. destruct (recursive flags); quiet.
    + destruct H as [[err H] | [H | [[_ H] | [[H _] | [err H]]]]];
        try congruence.
      rewrite H. quiet.
  - intros url_ok flags host output script H.
    unfold getVariablesCmd, EnsureDataDir, nonempty.
    destruct (host_loadConfig host) as [config | e] eqn:Hconfig; [| quiet].
    destruct H as [[err H] | [[Hg Hp] | [Hg Hr]]]; [congruence | |].
    + rewrite Hg, Hp. cbn [String.eqb negb andb orb]. quiet.
    + rewrite Hg, Hr. cbn [String.eqb negb andb orb].
      destruct (negb (String.eqb (projectID flags) "")); [| quiet].
      destruct (host_MkdirAll host "data"); quiet.
Qed.

(** [migrate variables -g 5] without a destination. *)
Lemma migrate_without_destination :
  untouched
    (migrateVariablesCmd all_urls_parse
       {| isDestination := false; groupID := "5"; projectID := ""; recursive := false;
          isSource := false; destinationGroupID := ""; destinationProjectID := "" |}
       host0 as_listed 1 [created])
    [created].
Proof.
  apply (proj1 commands_refuse_quietly).
  right; left. split; reflexivity.
Defined.

(** ** migrate.go: what a failure leads to *)

Lemma emits_bind_value :
  forall (A B : Type) (P : Event -> Prop) (Q : A -> Prop) (m : M A) (f : A -> M B),
    emits P m ->
    (forall p a, result (m p) = Ret a -> Q a) ->
    (forall a, Q a -> emits P (f a)) ->
    emits P (bind m f).
Proof.
  intros A B P Q m f Hm HQ Hf p. rewrite events_bind. apply Forall_app. split.
  - apply Hm.
  - destruct (result (m p)) as [a| | |] eqn:E; try constructor.
    apply Hf. eapply HQ. exact E.
Qed.

Lemma saveOutputToFile_fails : forall host data path p a,
  (forall path', host_Create host path' <> None) ->
  result (saveOutputToFile host data path p) = Ret a -> a <> None.
Proof.
  intros host data path p a Hcreate. unfold saveOutputToFile.
  destruct (host_MkdirAll host (filepath_Dir host path)); cbn [ret result].
  - intros H. injection H as <-. discriminate.
  - destruct (host_Create host path) eqn:E; [| exfalso; eapply Hcreate; exact E].
    cbn [ret result]. intros H. injection H as <-. discriminate.
Qed.

Lemma fetch_events_create_nothing : forall evs,
  Forall fetch_event evs -> creations evs = [].
Proof.
  unfold creations. induction 1 as [|e evs He _ IH]; [reflexivity |].
  destruct e; cbn [requests flat_map app] in *; try exact IH.
  destruct He as [Hget _]. cbn [filter]. rewrite Hget. exact IH.
Qed.

(** X12. When the source snapshot cannot be written, [migrate variables]
    stops after the fetch: in every mode and on any replies, it sends no
    variable-creation request. *)
Theorem no_snapshot_no_migration :
  forall url_ok flags host order fuel script,
    (forall path, host_Create host path <> None) ->
    creations (events (migrateVariablesCmd url_ok flags host order fuel script)) = [].
Proof.
  intros url_ok flags host order fuel script Hcreate.
  apply fetch_events_create_nothing.
  revert script. change (emits fetch_event (migrateVariablesCmd url_ok flags host order fuel)).
  unfold migrateVariablesCmd.
  repeat first
    [ match goal with
      | |- emits _ (bind (saveOutputToFile _ _ _) _) =>
          apply emits_bind_value with (Q := fun saved : error => saved <> None);
          [ apply saveOutputToFile_fetches
          | intros ? ? Hres; cbv beta;
            eapply saveOutputToFile_fails; [exact Hcreate | exact Hres]
          | intros [? |] Hsaved; [| exfalso; apply Hsaved; reflexivity] ]
      end
    | apply getAllVariablesForGroupProjects_fetches
    | apply getVariablesForGroup_fetches
    | apply getVariablesForProject_fetches
    | emits_step ]; exact I.
Qed.

(** On a machine where no file can be created, the project migration of
    one variable fetches it and creates nothing. *)
Lemma migration_on_read_only_machine :
  let r := migrateVariablesCmd all_urls_parse (project_flags "7" "8") host_read_only
             as_listed 1 [page_reply [[("key", JStr "X")]]; created] in
  creations (events r) = [] /\ rest r = [created].
Proof.
  cbv zeta. split; [| reflexivity].
  apply (no_snapshot_no_migration all_urls_parse (project_flags "7" "8") host_read_only
           as_listed 1 [page_reply [[("key", JStr "X")]]; created]).
  intros path. discriminate.
Defined.

Lemma getVariablesForProject_unusable : forall url_ok flags config pid a later,
  url_ok (Sprintf "%s/api/v4/projects/%s/variables"
            [if isDestination flags then DestinationBaseURL config
             else SourceBaseURL config; pid]) = true ->
  unusable a = true ->
  exists c q format args,
    Method q = "GET" /\
    getVariablesForProject url_ok flags config pid (a :: later)
    = {| result := Ret []; events := [Sent c q a; Logged format args]; rest := later |}.
Proof.
  intros url_ok flags config pid a later Hurl Hbad.
  unfold getVariablesForProject, http_NewRequest.
  destruct (isDestination flags); rewrite Hurl; cbv zeta; rewrite bind_client_Do;
    (destruct a as [e | resp]; cbn [unusable] in Hbad;
     [ | destruct (io_ReadAll (RespBody resp)) as [body | e];
         [ destruct (negb (StatusCode resp =? StatusOK)); cbn [orb] in Hbad;
           [ | destruct (json_Unmarshal_maps body); [discriminate |] ] | ] ]);
    run_steps; do 4 eexists; (split; [| reflexivity]); reflexivity.
Qed.

Lemma getVariablesForGroup_unusable : forall url_ok flags config gid a later,
  url_ok (Sprintf "%s/api/v4/groups/%s/variables"
            [if isDestination flags then DestinationBaseURL config
             else SourceBaseURL config; gid]) = true ->
  unusable a = true ->
  exists c q format args,
    Method q = "GET" /\
    getVariablesForGroup url_ok flags config gid (a :: later)
    = {| result := Ret []; events := [Sent c q a; Logged format args]; rest := later |}.
Proof.
  intros url_ok flags config gid a later Hurl Hbad.
  unfold getVariablesForGroup, http_NewRequest.
  destruct (isDestination flags); rewrite Hurl; cbv zeta; rewrite bind_client_Do;
    (destruct a as [e | resp]; cbn [unusable] in Hbad;
     [ | destruct (io_ReadAll (RespBody resp)) as [body | e];
         [ destruct (negb (StatusCode resp =? StatusOK)); cbn [orb] in Hbad;
           [ | destruct (json_Unmarshal_maps body); [discriminate |] ] | ] ]);
    run_steps; do 4 eexists; (split; [| reflexivity]); reflexivity.
Qed.

(** X13. A failed fetch of the source variables does not stop [migrate
    variables]: in project mode and in plain group mode, when the one
    source reply is unusable (no response, unreadable body, status other
    than 200, body that is not an array of objects), the run creates
    nothing, reads no further reply, and still ends with the line
    "Variables migration completed successfully". *)
Theorem failed_source_fetch_reported_as_success :
  forall url_ok host order fuel config id target (deep : bool) other a later,
    nonempty id = true ->
    nonempty target = true ->
    host_loadConfig host = Ok config ->
    (forall dir, host_MkdirAll host dir = None) ->
    (forall path, host_Create host path = None) ->
    unusable a = true ->
    let verdict (r : Run unit) :=
      result r = Ret tt /\ rest r = later /\
      List.length (requests (events r)) = 1%nat /\
      creations (events r) = [] /\
      last (events r) (Slept 0) = Logged "Variables migration completed successfully" [] in
    (url_ok (Sprintf "%s/api/v4/projects/%s/variables" [SourceBaseURL config; id]) = true ->
     verdict (migrateVariablesCmd url_ok
                {| isDestination := false; groupID := ""; projectID := id;
                   recursive := deep; isSource := false;
                   destinationGroupID := other; destinationProjectID := target |}
                host order fuel (a :: later))) /\
    (url_ok (Sprintf "%s/api/v4/groups/%s/variables" [SourceBaseURL config; id]) = true ->
     verdict (migrateVariablesCmd url_ok
                {| isDestination := false; groupID := id; projectID := other;
                   recursive := false; isSource := false;
                   destinationGroupID := target; destinationProjectID := "" |}
                host order fuel (a :: later))).
Proof.
  intros url_ok host order fuel config id target deep other a later Hid Htarget Hconfig
         Hmkdir Hcreate Hbad verdict.
  split; intros Hurl; subst verdict; cbv beta.
  - destruct (getVariablesForProject_unusable url_ok
                {| isDestination := false; groupID := ""; projectID := id;
                   recursive := deep; isSource := false;
                   destinationGroupID := other; destinationProjectID := target |}
                config id a later Hurl Hbad) as (c & q & format & args & Hget & Hrun).
    unfold migrateVariablesCmd, EnsureDataDir, saveOutputToFile.
    cbn [groupID projectID destinationGroupID destinationProjectID recursive].
    rewrite Hid, Htarget, Hconfig, !Hmkdir, Hcreate.
    cbn [nonempty String.eqb negb andb orb]. rewrite andb_false_r.
    rewrite bind_assoc. erewrite bind_Ret by exact Hrun.
    rewrite bind_ret. run_steps. unfold prepend, ret.
    cbn. rewrite Hget. repeat split.
  - destruct (getVariablesForGroup_unusable url_ok
                {| isDestination := false; groupID := id; projectID := other;
                   recursive := false; isSource := false;
                   destinationGroupID := target; destinationProjectID := "" |}
                config id a later Hurl Hbad) as (c & q & format & args & Hget & Hrun).
    unfold migrateVariablesCmd, EnsureDataDir, saveOutputToFile.
    cbn [groupID projectID destinationGroupID destinationProjectID recursive].
    rewrite Hid, Htarget, Hconfig, !Hmkdir, Hcreate.
    cbn [nonempty String.eqb negb andb orb].
    rewrite bind_assoc. erewrite bind_Ret by exact Hrun.
    rewrite bind_ret. run_steps. unfold prepend, ret.
    cbn. rewrite Hget. repeat split.
Qed.

(** The source answers 500 to the one fetch of project 7. *)
Lemma migration_of_unreachable_project :
  let r := migrateVariablesCmd all_urls_parse (project_flags "7" "8") host0 as_listed 1
             [answer 500 "500 Internal Server Error" JNull; created] in
  result r = Ret tt /\ rest r = [created] /\
  creations (events r) = [] /\
  last (events r) (Slept 0) = Logged "Variables migration completed successfully" [].
Proof.
  cbv zeta. unfold project_flags.
  destruct (proj1 (failed_source_fetch_reported_as_success all_urls_parse host0 as_listed 1
                     cfg0 "7" "8" false ""
                     (answer 500 "500 Internal Server Error" JNull) [created]
                     eq_refl eq_refl eq_refl (fun _ => eq_refl) (fun _ => eq_refl) eq_refl)
              eq_refl) as (R & P & _ & C & L).
  split; [exact R |]. split; [exact P |]. split; [exact C | exact L].
Defined.

(** ** The paginated listings: a page that fails *)

Lemma fetchAllProjects_for_step :
  forall url_ok flags baseUrl token fuel page acc fields pg later,
    url_ok (Sprintf "%s/api/v4/groups/%s/projects?per_page=100&page=%d"
              [baseUrl; destinationGroupID flags; itoa page]) = true ->
    fetchAllProjects_for url_ok flags (S fuel) baseUrl token page acc
      (page_reply (fields :: pg) :: later)
    = prepend
        [Sent (CreateHTTPClient (Some (set_SkipTLSVerification NewDefaultConfig true)))
           {| Method := "GET";
              URL := Sprintf "%s/api/v4/groups/%s/projects?per_page=100&page=%d"
                       [baseUrl; destinationGroupID flags; itoa page];
              Header := [("PRIVATE-TOKEN", token)]; ReqBody := None |}
           (page_reply (fields :: pg))]
        (fetchAllProjects_for url_ok flags fuel baseUrl token (page + 1)
           (acc ++ map decode_record (fields :: pg)) later).
Proof.
  intros url_ok flags baseUrl token fuel page acc fields pg later Hurl.
  cbn [fetchAllProjects_for]. unfold http_NewRequest. rewrite Hurl. cbv zeta.
  unfold page_reply. rewrite bind_client_Do.
  cbn [StatusCode RespBody io_ReadAll json_Unmarshal_maps negb Z.eqb StatusOK Pos.eqb].
  rewrite decode_maps_objects. reflexivity.
Qed.

Lemma fetchGroupProjects_for_step :
  forall url_ok baseURL token gid fuel page acc fields pg later,
    url_ok (Sprintf
              "%s/api/v4/groups/%s/projects?per_page=100&page=%d&include_subgroups=true"
              [baseURL; gid; itoa page]) = true ->
    fetchGroupProjects_for url_ok (S fuel) baseURL token gid page acc
      (page_reply (fields :: pg) :: later)
    = prepend
        [Sent {| ClientTransport := None; ClientTimeout := 0 |}
           {| Method := "GET";
              URL := Sprintf
                       "%s/api/v4/groups/%s/projects?per_page=100&page=%d&include_subgroups=true"
                       [baseURL; gid; itoa page];
              Header := [("PRIVATE-TOKEN", token)]; ReqBody := None |}
           (page_reply (fields :: pg))]
        (fetchGroupProjects_for url_ok fuel baseURL token gid (page + 1)
           (acc ++ map decode_record (fields :: pg)) later).
Proof.
  intros url_ok baseURL token gid fuel page acc fields pg later Hurl.
  cbn [fetchGroupProjects_for]. unfold http_NewRequest. rewrite Hurl. cbv zeta.
  unfold page_reply. rewrite bind_client_Do.
  cbn [StatusCode RespBody json_Decode_maps json_Unmarshal_maps negb Z.eqb StatusOK
       Pos.eqb].
  rewrite decode_maps_objects. reflexivity.
Qed.

Lemma fetchAllProjects_for_failing_page :
  forall url_ok flags baseUrl token pages fuel page acc a later,
    (forall n, url_ok (Sprintf "%s/api/v4/groups/%s/projects?per_page=100&page=%d"
                         [baseUrl; destinationGroupID flags; itoa n]) = true) ->
    Forall (fun pg => pg <> []) pages ->
    (List.length pages < fuel)%nat ->
    unusable a = true ->
    (exists e,
       result (fetchAllProjects_for url_ok flags fuel baseUrl token page acc
                 (map page_reply pages ++ a :: later)) = Ret (Err e)) /\
    answers (events (fetchAllProjects_for url_ok flags fuel baseUrl token page acc
                       (map page_reply pages ++ a :: later)))
    = map page_reply pages ++ [a] /\
    List.length (events (fetchAllProjects_for url_ok flags fuel baseUrl token page acc
                           (map page_reply pages ++ a :: later)))
    = S (List.length pages) /\
    rest (fetchAllProjects_for url_ok flags fuel baseUrl token page acc
            (map page_reply pages ++ a :: later)) = later.
Proof.
  intros url_ok flags baseUrl token pages.
  induction pages as [|pg pages IH]; intros fuel page acc a later Hurl Hne Hfuel Hbad.
  - destruct fuel as [|fuel]; [simpl in Hfuel; lia |].
    cbn [fetchAllProjects_for map app]. unfold http_NewRequest. rewrite Hurl. cbv zeta.
    rewrite bind_client_Do.
    destruct a as [e | resp]; cbn [unusable] in Hbad.
    + cbn. repeat split. eexists; reflexivity.
    + destruct (io_ReadAll (RespBody resp)) as [body | e].
      * destruct (negb (StatusCode resp =? StatusOK)); cbn [orb] in Hbad.
        -- cbn. repeat split. eexists; reflexivity.
        -- destruct (json_Unmarshal_maps body); [discriminate |].
           cbn. repeat split. eexists; reflexivity.
      * destruct (negb (StatusCode resp =? StatusOK));
          cbn; repeat split; eexists; reflexivity.
  - destruct fuel as [|fuel]; [simpl in Hfuel; lia |].
    inversion Hne as [|? ? Hpg Hne']; subst.
    destruct pg as [|fields pg]; [congruence |].
    cbn [map app]. rewrite fetchAllProjects_for_step by apply Hurl.
    destruct (IH fuel (page + 1) (acc ++ map decode_record (fields :: pg))
                a later Hurl Hne' ltac:(simpl in Hfuel; lia) Hbad)
      as ((e & Hres) & Hans & Hlen & Hrest).
    unfold prepend. cbn [result events rest app List.length].
    rewrite Hlen, Hrest, Hres.
    split; [eexists; reflexivity |]. split; [| split; reflexivity].
    unfold answers in *. cbn [flat_map app]. rewrite Hans. reflexivity.
Qed.

Lemma fetchGroupProjects_for_failing_page :
  forall url_ok baseURL token gid pages fuel page acc a later,
    (forall n, url_ok (Sprintf
                         "%s/api/v4/groups/%s/projects?per_page=100&page=%d&include_subgroups=true"
                         [baseURL; gid; itoa n]) = true) ->
    Forall (fun pg => pg <> []) pages ->
    (List.length pages < fuel)%nat ->
    unusable a = true ->
    (exists e,
       result (fetchGroupProjects_for url_ok fuel baseURL token gid page acc
                 (map page_reply pages ++ a :: later)) = Ret (Err e)) /\
    answers (events (fetchGroupProjects_for url_ok fuel baseURL token gid page acc
                       (map page_reply pages ++ a :: later)))
    = map page_reply pages ++ [a] /\
    List.length (events (fetchGroupProjects_for url_ok fuel baseURL token gid page acc
                           (map page_reply pages ++ a :: later)))
    = S (List.length pages) /\
    rest (fetchGroupProjects_for url_ok fuel baseURL token gid page acc
            (map page_reply pages ++ a :: later)) = later.
Proof.
  intros url_ok baseURL token gid pages.
  induction pages as [|pg pages IH]; intros fuel page acc a later Hurl Hne Hfuel Hbad.
  - destruct fuel as [|fuel]; [simpl in Hfuel; lia |].
    cbn [fetchGroupProjects_for map app]. unfold http_NewRequest. rewrite Hurl. cbv zeta.
    rewrite bind_client_Do.
    destruct a as [e | resp]; cbn [unusable] in Hbad.
    + cbn. repeat split. eexists; reflexivity.
    + unfold json_Decode_maps.
      destruct (RespBody resp) as [body | e]; cbn [io_ReadAll] in Hbad.
      * destruct (negb (StatusCode resp =? StatusOK)); cbn [orb] in Hbad.
        -- cbn. repeat split. eexists; reflexivity.
        -- destruct (json_Unmarshal_maps body); [discriminate |].
           cbn. repeat split. eexists; reflexivity.
      * destruct (negb (StatusCode resp =? StatusOK));
          cbn; repeat split; eexists; reflexivity.
  - destruct fuel as [|fuel]; [simpl in Hfuel; lia |].
    inversion Hne as [|? ? Hpg Hne']; subst.
    destruct pg as [|fields pg]; [congruence |].
    cbn [map app]. rewrite fetchGroupProjects_for_step by apply Hurl.
    destruct (IH fuel (page + 1) (acc ++ map decode_record (fields :: pg))
                a later Hurl Hne' ltac:(simpl in Hfuel; lia) Hbad)
      as ((e & Hres) & Hans & Hlen & Hrest).
    unfold prepend. cbn [result events rest app List.length].
    rewrite Hlen, Hrest, Hres.
    split; [eexists; reflexivity |]. split; [| split; reflexivity].
    unfold answers in *. cbn [flat_map app]. rewrite Hans. reflexivity.
Qed.

(** X14. A page that fails ends a paginated listing with an error and
    nothing else: when the endpoint serves non-empty pages and then an
    unusable reply (no response, status other than 200, unreadable body,
    body that is not an array of objects), [fetchAllProjects] and
    [fetchGroupProjects] return an error, so the records of the pages
    already read are dropped; the failing request is not repeated, nothing
    is logged, and the replies after it are left unread. *)
Theorem paginated_fetch_fails_as_a_whole :
  forall url_ok flags config gid (fromSource : bool) pages fuel a later,
    Forall (fun pg => pg <> []) pages ->
    (List.length pages < fuel)%nat ->
    unusable a = true ->
    let script := map page_reply pages ++ a :: later in
    let verdict (r : Run (Result (list gomap))) :=
      (exists e, result r = Ret (Err e)) /\
      answers (events r) = map page_reply pages ++ [a] /\
      List.length (events r) = S (List.length pages) /\
      rest r = later in
    ((forall n, url_ok (Sprintf "%s/api/v4/groups/%s/projects?per_page=100&page=%d"
                          [if isSource flags then SourceBaseURL config
                           else DestinationBaseURL config;
                           destinationGroupID flags; itoa n]) = true) ->
     verdict (fetchAllProjects url_ok flags fuel config script)) /\
    ((forall n, url_ok (Sprintf
                          "%s/api/v4/groups/%s/projects?per_page=100&page=%d&include_subgroups=true"
                          [if fromSource then SourceBaseURL config
                           else DestinationBaseURL config; gid; itoa n]) = true) ->
     verdict (fetchGroupProjects url_ok fuel config gid fromSource script)).
Proof.
  intros url_ok flags config gid fromSource pages fuel a later Hne Hfuel Hbad script verdict.
  subst script verdict. cbv beta.
  split; intros Hurl.
  - unfold fetchAllProjects.
    apply fetchAllProjects_for_failing_page; assumption.
  - unfold fetchGroupProjects.
    apply fetchGroupProjects_for_failing_page; assumption.
Qed.

(** Two projects on page 1, then a 502 on page 2: an error, and the two
    projects are not returned. *)
Lemma listing_with_failing_second_page :
  let r := fetchAllProjects all_urls_parse fl0 3 cfg0
             [page_reply (numbered_page 1 2); answer 502 "502 Bad Gateway" JNull;
              page_reply []] in
  (exists e, result r = Ret (Err e)) /\
  List.length (events r) = 2%nat /\
  rest r = [page_reply []].
Proof.
  cbv zeta.
  destruct (proj1 (paginated_fetch_fails_as_a_whole all_urls_parse fl0 cfg0 "" false
                     [numbered_page 1 2] 3 (answer 502 "502 Bad Gateway" JNull)
                     [page_reply []]
                     ltac:(repeat constructor; discriminate) ltac:(simpl; lia) eq_refl)
              (fun _ => eq_refl)) as (R & _ & L & P).
  split; [exact R |]. split; [exact L | exact P].
Defined.

(** ** get.go: the variables of every project of a group *)

Lemma getVariablesForProject_reply : forall url_ok flags config pid a later,
  url_ok (Sprintf "%s/api/v4/projects/%s/variables"
            [if isDestination flags then DestinationBaseURL config
             else SourceBaseURL config; pid]) = true ->
  exists logged,
    getVariablesForProject url_ok flags config pid (a :: later)
    = {| result := Ret (fetched a);
         events :=
           Sent (CreateHTTPClient (Some (set_SkipTLSVerification NewDefaultConfig true)))
             {| Method := "GET";
                URL := Sprintf "%s/api/v4/projects/%s/variables"
                         [if isDestination flags then DestinationBaseURL config
                          else SourceBaseURL config; pid];
                Header := [("PRIVATE-TOKEN",
                            if isDestination flags then DestinationAccessToken config
                            else SourceAccessToken config)];
                ReqBody := None |} a :: logged;
         rest := later |} /\
    requests logged = [] /\ answers logged = [].
Proof.
  intros url_ok flags config pid a later Hurl.
  unfold getVariablesForProject, http_NewRequest.
  destruct (isDestination flags); rewrite Hurl; cbv zeta; rewrite bind_client_Do;
    (destruct a as [e | resp]; cbn [fetched];
     [ | destruct (io_ReadAll (RespBody resp)) as [body | e];
         [ destruct (negb (StatusCode resp =? StatusOK));
           [ | destruct (json_Unmarshal_maps body) ] | ] ]);
    run_steps; eexists; (split; [reflexivity |]); split; reflexivity.
Qed.

Lemma getProjectsForGroup_page : forall url_ok flags config gid page later,
  url_ok (Sprintf "%s/api/v4/groups/%s/projects"
            [if isDestination flags then DestinationBaseURL config
             else SourceBaseURL config; gid]) = true ->
  getProjectsForGroup url_ok flags config gid (page_reply page :: later)
  = {| result := Ret (map decode_record page);
       events :=
         [Sent (CreateHTTPClient (Some (set_SkipTLSVerification NewDefaultConfig true)))
            {| Method := "GET";
               URL := Sprintf "%s/api/v4/groups/%s/projects"
                        [if isDestination flags then DestinationBaseURL config
                         else SourceBaseURL config; gid];
               Header := [("PRIVATE-TOKEN",
                           if isDestination flags then DestinationAccessToken config
                           else SourceAccessToken config)];
               ReqBody := None |}
            (page_reply page)];
       rest := later |}.
Proof.
  intros url_ok flags config gid page later Hurl.
  unfold getProjectsForGroup, http_NewRequest.
  destruct (isDestination flags); rewrite Hurl; cbv zeta;
    rewrite bind_client_Do; unfold page_reply;
    cbn [StatusCode RespBody io_ReadAll json_Unmarshal_maps negb Z.eqb StatusOK Pos.eqb];
    rewrite decode_maps_objects; reflexivity.
Qed.

Lemma getAllVariablesForGroupProjects_range_run :
  forall url_ok flags config projects listing,
    (forall pid, url_ok (Sprintf "%s/api/v4/projects/%s/variables"
                           [if isDestination flags then DestinationBaseURL config
                            else SourceBaseURL config; pid]) = true) ->
    Forall2 listed projects listing ->
    forall replies acc later,
      List.length replies = List.length listing ->
      let r := getAllVariablesForGroupProjects_range url_ok flags config projects acc
                 (replies ++ later) in
      result r
      = Ret (fold_left
               (fun m e => map_set (project_key (fst (fst e)))
                             (filed (snd (fst e)) (snd e)) m)
               (combine listing replies) acc) /\
      map URL (requests (events r))
      = map (fun e => Sprintf "%s/api/v4/projects/%s/variables"
                        [if isDestination flags then DestinationBaseURL config
                         else SourceBaseURL config; project_key (fst e)]) listing /\
      answers (events r) = replies /\
      rest r = later.
Proof.
  intros url_ok flags config projects listing Hurl Hlisted.
  induction Hlisted as [|project [id name] projects listing [Hid Hname] _ IH];
    intros replies acc later Hlen; cbv zeta.
  - destruct replies; [| discriminate]. repeat split.
  - destruct replies as [|a replies]; [discriminate |].
    cbn [fst snd] in Hid, Hname.
    cbn [getAllVariablesForGroupProjects_range]. rewrite Hid, Hname.
    cbn [assert_float64 assert_string]. rewrite !bind_ret.
    destruct (getVariablesForProject_reply url_ok flags config (project_key id) a
                (replies ++ later) (Hurl _)) as (logged & Hrun & Hquiet & Hunread).
    fold (project_key id). cbn [app].
    erewrite bind_Ret by exact Hrun.
    destruct (IH replies
                (map_set (project_key id)
                   (map_set "variables" (VMaps (fetched a))
                      (map_set "project_name" (VString name) [])) acc)
                later ltac:(simpl in Hlen; lia)) as (Hres & Hreq & Hans & Hrest).
    unfold prepend. cbn [result events rest combine fold_left fst snd map].
    rewrite Hres, Hrest. split; [reflexivity |].
    change (Sent ?c ?q a :: logged ++ ?evs) with ((Sent c q a :: logged) ++ evs).
    rewrite requests_app, answers_app, map_app, Hreq, Hans.
    cbn [requests answers flat_map app]. fold (requests logged). fold (answers logged).
    rewrite Hquiet, Hunread. repeat split.
Qed.

Lemma getAllVariablesForGroupProjects_range_app :
  forall url_ok flags config before after acc script,
    getAllVariablesForGroupProjects_range url_ok flags config (before ++ after) acc script
    = bind (getAllVariablesForGroupProjects_range url_ok flags config before acc)
        (fun filed_so_far =>
           getAllVariablesForGroupProjects_range url_ok flags config after filed_so_far)
        script.
Proof.
  intros url_ok flags config before after.
  induction before as [|project before IH]; intros acc script.
  - cbn [app getAllVariablesForGroupProjects_range]. rewrite bind_ret. reflexivity.
  - cbn [app getAllVariablesForGroupProjects_range].
    rewrite !bind_assoc. apply bind_ext. intros f script1.
    rewrite !bind_assoc. apply bind_ext. intros name script2.
    rewrite !bind_assoc. apply bind_ext. intros variables script3.
    apply IH.
Qed.

(** X15. [getAllVariablesForGroupProjects] asks for the variables of every
    project of the listing it received, one request per project in the
    order of the listing, whatever the earlier replies were: a project
    whose reply is unusable is filed with no variables and the loop goes
    on. The result files each project under its id in decimal, with its
    name and the variables decoded from its own reply; it reads one reply
    per project and leaves the later ones unread. *)
Theorem getAllVariablesForGroupProjects_one_fetch_each :
  forall url_ok flags config gid page listing replies later,
    url_ok (Sprintf "%s/api/v4/groups/%s/projects"
              [if isDestination flags then DestinationBaseURL config
               else SourceBaseURL config; gid]) = true ->
    (forall pid, url_ok (Sprintf "%s/api/v4/projects/%s/variables"
                           [if isDestination flags then DestinationBaseURL config
                            else SourceBaseURL config; pid]) = true) ->
    Forall2 listed (map decode_record page) listing ->
    List.length replies = List.length listing ->
    let r := getAllVariablesForGroupProjects url_ok flags config gid
               (page_reply page :: replies ++ later) in
    result r
    = Ret (fold_left
             (fun m e => map_set (project_key (fst (fst e)))
                           (filed (snd (fst e)) (snd e)) m)
             (combine listing replies) []) /\
    map URL (requests (events r))
    = Sprintf "%s/api/v4/groups/%s/projects"
        [if isDestination flags then DestinationBaseURL config
         else SourceBaseURL config; gid]
      :: map (fun e => Sprintf "%s/api/v4/projects/%s/variables"
                         [if isDestination flags then DestinationBaseURL config
                          else SourceBaseURL config; project_key (fst e)]) listing /\
    answers (events r) = page_reply page :: replies /\
    rest r = later.
Proof.
  intros url_ok flags config gid page listing replies later Hgroup Hurl Hlisted Hlen.
  cbv zeta. unfold getAllVariablesForGroupProjects.
  erewrite bind_Ret by (apply getProjectsForGroup_page; exact Hgroup).
  destruct (getAllVariablesForGroupProjects_range_run url_ok flags config
              (map decode_record page) listing Hurl Hlisted replies [] later Hlen)
    as (Hres & Hreq & Hans & Hrest).
  unfold prepend. cbn [result events rest app requests answers flat_map map].
  fold (requests (events (getAllVariablesForGroupProjects_range url_ok flags config
                            (map decode_record page) [] (replies ++ later)))).
  fold (answers (events (getAllVariablesForGroupProjects_range url_ok flags config
                           (map decode_record page) [] (replies ++ later)))).
  rewrite Hres, Hreq, Hans, Hrest. repeat split.
Qed.

(** Group 5 lists A and B; the variables of A cannot be fetched, B has
    one. *)
Lemma variables_of_A_unreachable_B_fetched :
  let r := getAllVariablesForGroupProjects all_urls_parse fl0 cfg0 "5"
             [page_reply [[("id", JNum 1); ("name", JStr "A")];
                          [("id", JNum 2); ("name", JStr "B")]];
              answer 404 "404 Not Found" JNull;
              page_reply [[("key", JStr "Y")]];
              created] in
  result r = Ret [project_entry "1" "A" []; project_entry "2" "B" [variable "Y"]] /\
  map URL (requests (events r))
  = ["https://src/api/v4/groups/5/projects";
     "https://src/api/v4/projects/1/variables";
     "https://src/api/v4/projects/2/variables"] /\
  rest r = [created].
Proof.
  cbv zeta.
  destruct (getAllVariablesForGroupProjects_one_fetch_each all_urls_parse fl0 cfg0 "5"
              [[("id", JNum 1); ("name", JStr "A")]; [("id", JNum 2); ("name", JStr "B")]]
              [(1, "A"); (2, "B")]
              [answer 404 "404 Not Found" JNull; page_reply [[("key", JStr "Y")]]]
              [created]
              eq_refl (fun _ => eq_refl)
              ltac:(repeat constructor) eq_refl) as (R & Q & _ & P).
  cbn [app] in R, Q, P.
  split; [rewrite R; reflexivity |]. split; [rewrite Q; reflexivity | exact P].
Defined.

(** X16. A listed project that lacks a numeric id or a string name stops
    [getAllVariablesForGroupProjects] with a panic: the projects before it
    have had their variables fetched, no request is sent for it or for any
    project after it, and what was filed so far is lost with the panic. *)
Theorem getAllVariablesForGroupProjects_panics_on_odd_record :
  forall url_ok flags config before listing odd after replies acc later,
    (forall pid, url_ok (Sprintf "%s/api/v4/projects/%s/variables"
                           [if isDestination flags then DestinationBaseURL config
                            else SourceBaseURL config; pid]) = true) ->
    Forall2 listed before listing ->
    List.length replies = List.length listing ->
    (forall id, index odd "id" <> VFloat64 id) \/
    (forall name, index odd "name" <> VString name) ->
    let r := getAllVariablesForGroupProjects_range url_ok flags config
               (before ++ odd :: after) acc (replies ++ later) in
    (exists msg, result r = Panic msg) /\
    answers (events r) = replies /\
    rest r = later.
Proof.
  intros url_ok flags config before listing odd after replies acc later Hurl Hlisted Hlen
         Hodd.
  cbv zeta. rewrite getAllVariablesForGroupProjects_range_app.
  destruct (getAllVariablesForGroupProjects_range_run url_ok flags config before listing
              Hurl Hlisted replies acc later Hlen) as (Hres & _ & Hans & Hrest).
  remember (getAllVariablesForGroupProjects_range url_ok flags config before acc
              (replies ++ later)) as done eqn:Hdone.
  destruct done as [o evs left]. cbn [result events rest] in Hres, Hans, Hrest. subst o left.
  erewrite bind_Ret by (symmetry; exact Hdone).
  unfold prepend. cbn [getAllVariablesForGroupProjects_range].
  destruct Hodd as [Hid | Hname].
  - destruct (index odd "id") as [| | id | | | | |] eqn:E;
      try (cbn; rewrite app_nil_r; repeat split; try assumption; eexists; reflexivity).
    exfalso. exact (Hid id eq_refl).
  - destruct (index odd "id") as [| | id | | | | |] eqn:E;
      try (cbn; rewrite app_nil_r; repeat split; try assumption; eexists; reflexivity).
    cbn [assert_float64]. rewrite bind_ret.
    destruct (index odd "name") as [| | | name | | | |] eqn:E';
      try (cbn; rewrite app_nil_r; repeat split; try assumption; eexists; reflexivity).
    exfalso. exact (Hname name eq_refl).
Qed.

(** A listing of A and of a record without an id. *)
Lemma listing_with_record_without_id :
  let r := getAllVariablesForGroupProjects_range all_urls_parse fl0 cfg0
             [project_record 1 "A"; Some [("name", VString "B")]; project_record 3 "C"] []
             [page_reply [[("key", JStr "X")]]; created] in
  (exists msg, result r = Panic msg) /\
  answers (events r) = [page_reply [[("key", JStr "X")]]] /\
  rest r = [created].
Proof.
  cbv zeta.
  exact (getAllVariablesForGroupProjects_panics_on_odd_record all_urls_parse fl0 cfg0
           [project_record 1 "A"] [(1, "A")] (Some [("name", VString "B")])
           [project_record 3 "C"] [page_reply [[("key", JStr "X")]]] [] [created]
           (fun _ => eq_refl) ltac:(repeat constructor) eq_refl
           ltac:(left; intros id H; vm_compute in H; discriminate H)).
Defined.

(** ** mirror.go: the command *)

(** X17. [mirror] with one project flag and one group flag passes the
    check of the flags and then does nothing: with [-p] and [-G] only, or
    with [-g] and [-P] only, [Run] returns nil without calling
    [mirrorProject] or [mirrorGroup], sending no request. When both project
    flags are given the project is mirrored whatever the group flags are. *)
Theorem mirror_with_mixed_flags_does_nothing :
  forall url_ok host mirrorProject fuel config source target script,
    host_loadConfig host = Ok config ->
    nonempty source = true ->
    nonempty target = true ->
    MirrorCommand_Run url_ok host mirrorProject fuel
      {| sourceProjectID := source; targetProjectID := "";
         sourceGroupID := ""; targetGroupID := target |} script
    = {| result := Ret None; events := []; rest := script |} /\
    MirrorCommand_Run url_ok host mirrorProject fuel
      {| sourceProjectID := ""; targetProjectID := target;
         sourceGroupID := source; targetGroupID := "" |} script
    = {| result := Ret None; events := []; rest := script |} /\
    (forall sourceGroup targetGroup,
        MirrorCommand_Run url_ok host mirrorProject fuel
          {| sourceProjectID := source; targetProjectID := target;
             sourceGroupID := sourceGroup; targetGroupID := targetGroup |} script
        = (mirrored <- mirrorProject config source target ;; ret (fst mirrored)) script).
Proof.
  intros url_ok host mirrorProject fuel config source target script Hconfig Hsource Htarget.
  unfold MirrorCommand_Run. rewrite Hconfig.
  cbn [sourceProjectID targetProjectID sourceGroupID targetGroupID].
  rewrite Hsource, Htarget.
  unfold nonempty in Hsource, Htarget.
  apply negb_true_iff in Hsource. apply negb_true_iff in Htarget.
  rewrite Hsource, Htarget. cbn [nonempty String.eqb negb andb orb].
  repeat split.
Qed.

(** [mirror -p 1 -G 2]. *)
Lemma mirror_p_1_G_2 :
  MirrorCommand_Run all_urls_parse host0 mirror_always_fails 1
    {| sourceProjectID := "1"; targetProjectID := "";
       sourceGroupID := ""; targetGroupID := "2" |} [created]
  = {| result := Ret None; events := []; rest := [created] |}.
Proof.
  exact (proj1 (mirror_with_mixed_flags_does_nothing all_urls_parse host0
                  mirror_always_fails 1 cfg0 "1" "2" [created] eq_refl eq_refl eq_refl)).
Defined.

Lemma string_compare_refl : forall s, String.compare s s = Eq.
Proof.
  induction s as [|a s IH]; cbn [String.compare]; [reflexivity |].
  rewrite ascii_compare_refl. exact IH.
Qed.

Lemma map_get_map_set : forall (V : Type) k (v : V) m,
  map_get k (map_set k v m) = Some v.
Proof.
  intros V k v m. induction m as [|[k' v'] m IH]; cbn [map_set map_get].
  - rewrite String.eqb_refl. reflexivity.
  - destruct (String.compare k k') eqn:E; cbn [map_get].
    + rewrite String.eqb_refl. reflexivity.
    + rewrite String.eqb_refl. reflexivity.
    + destruct (String.eqb_spec k k') as [-> | _]; [| exact IH].
      rewrite string_compare_refl in E. discriminate.
Qed.

Lemma map_get_map_set_other : forall (V : Type) k k0 (v : V) m,
  k <> k0 -> map_get k (map_set k0 v m) = map_get k m.
Proof.
  intros V k k0 v m Hne. induction m as [|[k' v'] m IH]; cbn [map_set map_get].
  - destruct (String.eqb_spec k k0); [contradiction | reflexivity].
  - destruct (String.compare k0 k') eqn:E; cbn [map_get].
    + apply String.compare_eq_iff in E. subst k'.
      destruct (String.eqb_spec k k0); [contradiction | reflexivity].
    + destruct (String.eqb_spec k k0); [contradiction | reflexivity].
    + rewrite IH. reflexivity.
Qed.

Lemma targetProjectMap_range_run : forall targets entries,
  Forall2 placed targets entries ->
  forall acc script,
    targetProjectMap_range targets acc script
    = {| result :=
           Ret (fold_left (fun m e => map_set (mirror_path e) (Sprintf_f0 (snd e)) m)
                  entries acc);
         events := []; rest := script |}.
Proof.
  intros targets entries Hplaced.
  induction Hplaced as [|project [[ns name] id] targets entries
                          (namespace & Hns & Hnsname & Hname & Hid) _ IH];
    intros acc script.
  - reflexivity.
  - cbn [fst snd] in Hnsname, Hname, Hid.
    cbn [targetProjectMap_range]. rewrite Hns, Hname, Hnsname.
    cbn [assert_string]. rewrite bind_ret, Hid. rewrite IH. reflexivity.
Qed.

(** X18. Among the target projects, [mirrorGroup] keeps one per path
    ("namespace name/project name"), and it is the last one listed: when
    the listing holds several projects with the path of [e], the map built
    by the first loop gives that path the id of the last of them. (The
    resolver of [migrate], by contrast, returns the first match.) *)
Theorem mirror_target_last_listed_wins :
  forall targets before e after acc script,
    Forall2 placed targets (before ++ e :: after) ->
    Forall (fun e' => mirror_path e' <> mirror_path e) after ->
    exists targetProjectMap,
      targetProjectMap_range targets acc script
      = {| result := Ret targetProjectMap; events := []; rest := script |} /\
      map_get (mirror_path e) targetProjectMap = Some (Sprintf_f0 (snd e)).
Proof.
  intros targets before e after acc script Hplaced Hafter.
  eexists. split; [apply targetProjectMap_range_run; exact Hplaced |].
  clear Hplaced.
  rewrite fold_left_app. cbn [fold_left].
  generalize (fold_left (fun m e0 => map_set (mirror_path e0) (Sprintf_f0 (snd e0)) m)
                before acc).
  intros m.
  assert (Hhere : map_get (mirror_path e)
                    (map_set (mirror_path e) (Sprintf_f0 (snd e)) m)
                  = Some (Sprintf_f0 (snd e))) by apply map_get_map_set.
  revert Hhere. generalize (map_set (mirror_path e) (Sprintf_f0 (snd e)) m).
  induction Hafter as [|e' after Hne _ IH]; intros m' Hhere; cbn [fold_left].
  - exact Hhere.
  - apply IH. cbv beta. rewrite map_get_map_set_other by congruence. exact Hhere.
Qed.

(** Two target projects [g/api], with ids 11 and 12, and one [g/web]. *)
Lemma two_targets_with_one_path :
  exists targetProjectMap,
    targetProjectMap_range
      [decode_record (namespaced "g" "api" 11); decode_record (namespaced "g" "api" 12);
       decode_record (namespaced "g" "web" 13)] [] []
    = {| result := Ret targetProjectMap; events := []; rest := [] |} /\
    map_get "g/api" targetProjectMap = Some "12".
Proof.
  exact (mirror_target_last_listed_wins
           [decode_record (namespaced "g" "api" 11); decode_record (namespaced "g" "api" 12);
            decode_record (namespaced "g" "web" 13)]
           [("g", "api", 11)] ("g", "api", 12) [("g", "web", 13)] [] []
           ltac:(repeat constructor; eexists; repeat split)
           ltac:(repeat constructor; discriminate)).
Defined.

Lemma page_exchanges_answers : forall client request first pages,
  answers (page_exchanges client request first pages) = map page_reply pages.
Proof.
  intros client request first pages. revert first.
  induction pages as [|pg pages IH]; intros first; [reflexivity |].
  cbn [page_exchanges map]. unfold answers in *. cbn [flat_map app].
  rewrite IH. reflexivity.
Qed.

Lemma page_exchanges_length : forall client request first pages,
  List.length (page_exchanges client request first pages) = List.length pages.
Proof.
  intros client request first pages. revert first.
  induction pages as [|pg pages IH]; intros first; simpl; [reflexivity |].
  rewrite IH. reflexivity.
Qed.

(** X19. [mirrorGroup] needs both listings in full. When a page of the
    source listing fails, it returns "failed to fetch source projects" and
    the target group is never asked; when the source listing succeeds and a
    page of the target listing fails, it returns "failed to fetch target
    projects". In both cases no project is mirrored ([mirrorProject] is not
    called, whatever it is) and the replies after the failing one are left
    unread. *)
Theorem mirrorGroup_needs_both_listings :
  forall url_ok mirrorProject fuel config sourceGroup targetGroup
         sourcePages targetPages a later,
    (forall n, url_ok (Sprintf
                         "%s/api/v4/groups/%s/projects?per_page=100&page=%d&include_subgroups=true"
                         [SourceBaseURL config; sourceGroup; itoa n]) = true) ->
    (forall n, url_ok (Sprintf
                         "%s/api/v4/groups/%s/projects?per_page=100&page=%d&include_subgroups=true"
                         [DestinationBaseURL config; targetGroup; itoa n]) = true) ->
    Forall (fun pg => pg <> []) sourcePages ->
    Forall (fun pg => pg <> []) targetPages ->
    (List.length sourcePages < fuel)%nat ->
    (List.length targetPages < fuel)%nat ->
    unusable a = true ->
    (let r := mirrorGroup url_ok mirrorProject fuel config sourceGroup targetGroup
                (map page_reply sourcePages ++ a :: later) in
     (exists err,
         result r = Ret (Some (Sprintf "failed to fetch source projects: %v" [err]))) /\
     answers (events r) = map page_reply sourcePages ++ [a] /\
     List.length (events r) = S (List.length sourcePages) /\
     rest r = later) /\
    (let r := mirrorGroup url_ok mirrorProject fuel config sourceGroup targetGroup
                (map page_reply sourcePages ++ page_reply []
                   :: map page_reply targetPages ++ a :: later) in
     (exists err,
         result r = Ret (Some (Sprintf "failed to fetch target projects: %v" [err]))) /\
     answers (events r)
     = map page_reply sourcePages ++ page_reply [] :: map page_reply targetPages ++ [a] /\
     List.length (events r) = (S (List.length sourcePages) + S (List.length targetPages))%nat /\
     rest r = later).
Proof.
  intros url_ok mirrorProject fuel config sourceGroup targetGroup sourcePages targetPages
         a later Hsource Htarget Hsne Htne Hsfuel Htfuel Hbad.
  split; cbv zeta; unfold mirrorGroup, fetchGroupProjects.
  - destruct (fetchGroupProjects_for_failing_page url_ok (SourceBaseURL config)
                (SourceAccessToken config) sourceGroup sourcePages fuel 1 [] a later
                Hsource Hsne Hsfuel Hbad) as ((err & Hres) & Hans & Hlen & Hrest).
    remember (fetchGroupProjects_for url_ok fuel (SourceBaseURL config)
                (SourceAccessToken config) sourceGroup 1 []
                (map page_reply sourcePages ++ a :: later)) as failed eqn:Hfailed.
    destruct failed as [o evs left]. cbn [result events rest] in Hres, Hans, Hlen, Hrest.
    subst o left.
    erewrite bind_Ret by (symmetry; exact Hfailed).
    unfold prepend, ret. cbn [result events rest]. rewrite app_nil_r.
    split; [exists err; reflexivity |]. repeat split; assumption.
  - erewrite bind_Ret
      by (apply fetchGroupProjects_for_pages; [exact Hsource | exact Hsne | exact Hsfuel]).
    destruct (fetchGroupProjects_for_failing_page url_ok (DestinationBaseURL config)
                (DestinationAccessToken config) targetGroup targetPages fuel 1 [] a later
                Htarget Htne Htfuel Hbad) as ((err & Hres) & Hans & Hlen & Hrest).
    remember (fetchGroupProjects_for url_ok fuel (DestinationBaseURL config)
                (DestinationAccessToken config) targetGroup 1 []
                (map page_reply targetPages ++ a :: later)) as failed eqn:Hfailed.
    destruct failed as [o evs left]. cbn [result events rest] in Hres, Hans, Hlen, Hrest.
    subst o left.
    erewrite bind_Ret by (symmetry; exact Hfailed).
    unfold prepend, ret. cbn [result events rest]. rewrite app_nil_r.
    split; [exists err; reflexivity |].
    rewrite answers_app, List.length_app, Hans, Hlen.
    rewrite page_exchanges_answers, page_exchanges_length, map_app, List.length_app.
    cbn [map List.length]. rewrite <- app_assoc.
    repeat split. lia.
Qed.

(** The source group answers one page and then 500. *)
Lemma mirror_of_group_with_failing_listing :
  let r := mirrorGroup all_urls_parse mirror_always_fails 3 cfg0 "5" "9"
             [page_reply [namespaced "g" "api" 1]; answer 500 "500" JNull;
              page_reply []] in
  (exists err,
      result r = Ret (Some (Sprintf "failed to fetch source projects: %v" [err]))) /\
  List.length (events r) = 2%nat /\
  rest r = [page_reply []].
Proof.
  cbv zeta.
  destruct (proj1 (mirrorGroup_needs_both_listings all_urls_parse mirror_always_fails 3
                     cfg0 "5" "9" [[namespaced "g" "api" 1]] []
                     (answer 500 "500" JNull) [page_reply []]
                     (fun _ => eq_refl) (fun _ => eq_refl)
                     ltac:(repeat constructor; discriminate) ltac:(constructor)
                     ltac:(simpl; lia) ltac:(simpl; lia) eq_refl))
    as (R & _ & L & P).
  split; [exact R |]. split; [exact L | exact P].
Defined.






(** ** migrate.go: where the variables are created *)

Lemma fetch_event_aimed : forall url e, fetch_event e -> aimed_at url e.
Proof.
  intros url [c q a | | | |]; simpl; try exact (fun H => H).
  intros [Hget _] Hpost. rewrite Hget in Hpost. discriminate.
Qed.

Lemma makeGitLabAPIRequest_aimed : forall url_ok url token payload,
  emits (aimed_at url) (makeGitLabAPIRequest url_ok "POST" url token payload).
Proof.
  intros. unfold makeGitLabAPIRequest, http_NewRequest.
  repeat emits_step; try exact I; intros _; reflexivity.
Qed.

Lemma createVariablesForProject_range_aimed : forall url_ok pid url token variables,
  emits (aimed_at url) (createVariablesForProject_range url_ok pid url token variables).
Proof.
  intros. induction variables as [|v variables IH]; simpl.
  - apply emits_ret.
  - destruct (Marshal v).
    + apply emits_bind; [apply makeGitLabAPIRequest_aimed | intros err].
      apply emits_bind; [repeat emits_step; exact I | intros _; apply IH].
    + apply emits_bind; [repeat emits_step; exact I | intros _; apply IH].
Qed.

Lemma createVariablesForGroup_range_aimed : forall url_ok gid url token variables,
  emits (aimed_at url) (createVariablesForGroup_range url_ok gid url token variables).
Proof.
  intros. induction variables as [|v variables IH]; simpl.
  - apply emits_ret.
  - destruct (Marshal v).
    + apply emits_bind; [apply makeGitLabAPIRequest_aimed | intros err].
      apply emits_bind; [repeat emits_step; exact I | intros _; apply IH].
    + apply emits_bind; [repeat emits_step; exact I | intros _; apply IH].
Qed.

Lemma creations_aimed : forall url evs,
  Forall (aimed_at url) evs -> Forall (fun q => URL q = url) (creations evs).
Proof.
  intros url evs Hall. unfold creations, requests.
  induction Hall as [|e evs He _ IH]; [constructor |].
  destruct e as [c q a | | | |]; cbn [flat_map app filter]; try exact IH.
  destruct (String.eqb_spec (Method q) "POST") as [Hpost | _]; [| exact IH].
  constructor; [exact (He Hpost) | exact IH].
Qed.

(** X21. In [migrate variables] the kind of the source decides where the
    variables are created, not the destination flag that was given. With a
    source group and without [--recursive], every creation request goes to
    the group named by [--destination-group], also when that flag is empty
    and only [--destination-project] was given (the requests then go to
    [groups//variables]); with a source project alone, every creation
    request goes to the project named by [--destination-project], empty or
    not. *)
Theorem migrate_destination_follows_source_kind :
  forall url_ok flags host order fuel config script,
    host_loadConfig host = Ok config ->
    let base := if isSource flags then SourceBaseURL config else DestinationBaseURL config in
    let made := creations (events (migrateVariablesCmd url_ok flags host order fuel script)) in
    (nonempty (groupID flags) = true -> recursive flags = false ->
     Forall (fun q => URL q = Sprintf "%s/api/v4/groups/%s/variables"
                               [base; destinationGroupID flags]) made) /\
    (nonempty (groupID flags) = false ->
     Forall (fun q => URL q = Sprintf "%s/api/v4/projects/%s/variables"
                               [base; destinationProjectID flags]) made).
Proof.
  intros url_ok flags host order fuel config script Hconfig base made.
  subst base made.
  split.
  - intros Hgroup Hflat. apply creations_aimed.
    assert (Hrun : emits
                     (aimed_at (Sprintf "%s/api/v4/groups/%s/variables"
                                  [if isSource flags then SourceBaseURL config
                                   else DestinationBaseURL config;
                                   destinationGroupID flags]))
                     (migrateVariablesCmd url_ok flags host order fuel));
      [| apply Hrun].
    unfold migrateVariablesCmd. rewrite Hconfig, Hgroup, Hflat.
    unfold createVariablesForGroup.
    repeat first
      [ apply createVariablesForGroup_range_aimed
      | apply (emits_weaken _ _ _ _ (fetch_event_aimed _));
        first [ apply getVariablesForGroup_fetches | apply saveOutputToFile_fetches ]
      | emits_step ]; exact I.
  - intros Hgroup. apply creations_aimed.
    assert (Hrun : emits
                     (aimed_at (Sprintf "%s/api/v4/projects/%s/variables"
                                  [if isSource flags then SourceBaseURL config
                                   else DestinationBaseURL config;
                                   destinationProjectID flags]))
                     (migrateVariablesCmd url_ok flags host order fuel));
      [| apply Hrun].
    unfold migrateVariablesCmd. rewrite Hconfig, Hgroup.
    unfold createVariablesForProject.
    repeat first
      [ apply createVariablesForProject_range_aimed
      | apply (emits_weaken _ _ _ _ (fetch_event_aimed _));
        first [ apply getVariablesForProject_fetches | apply saveOutputToFile_fetches ]
      | emits_step ]; exact I.
Qed.

(** [migrate variables -g 5 --destination-project 8] on a group with one
    variable: one creation request, sent to [groups//variables]. *)
Lemma migrate_group_to_project_flag :
  let made :=
    creations (events (migrateVariablesCmd all_urls_parse
                         {| isDestination := false; groupID := "5"; projectID := "";
                            recursive := false; isSource := false;
                            destinationGroupID := ""; destinationProjectID := "8" |}
                         host0 as_listed 1 [page_reply [[("key", JStr "X")]]; created])) in
  Forall (fun q => URL q = "https://dst/api/v4/groups//variables") made /\
  List.length made = 1%nat.
Proof.
  cbv zeta. split; [| reflexivity].
  exact (proj1 (migrate_destination_follows_source_kind all_urls_parse
                  {| isDestination := false; groupID := "5"; projectID := "";
                     recursive := false; isSource := false;
                     destinationGroupID := ""; destinationProjectID := "8" |}
                  host0 as_listed 1 cfg0 [page_reply [[("key", JStr "X")]]; created]
                  eq_refl) eq_refl eq_refl).
Defined.
